(** * AI image generator and editor: conversation state, generation client,
    file intake and image viewer

  A shallow embedding of the TypeScript sources

    - [types.ts], [constants.ts]
    - [components/ChatInput.tsx]   (file intake, [handleFilesChange])
    - [services/geminiService.ts]  (generation client, [callGeminiApi])
    - [components/ImageModal.tsx]  (viewer zoom, [handleWheel])
    - [App.tsx]                    (conversation store and orchestrator)

  React state is modelled by explicit state passing: a functional
  updater [setMessages(prev => f prev)] is the function [f] applied to the
  current list; where a handler reads what its updater has written, whether
  React has run the updater by then is an input of the handler.  Promises are modelled by their settled outcome, a sum of
  the thrown value and the result.  The browser (clock, FileReader,
  localStorage, console, alert) and the remote API are inputs of the
  functions that use them. *)

From Stdlib Require Import ZArith NArith List String Ascii Bool Lia.
From Stdlib Require Import Decimal DecimalString DecimalN.
From Stdlib Require Import Floats.SpecFloat.
From stdpp Require Import base option list strings gmap.
Import ListNotations.

Local Open Scope string_scope.
Local Open Scope list_scope.

(** ** JavaScript values used by the sources *)

Module Js.

(** A text is held as the bytes of its UTF-8 encoding. *)

(** [Number.prototype.toString] on a non-negative integer: its decimal
    digits. *)
Definition toString (n : N) : string :=
  NilZero.string_of_uint (N.to_uint n).

(** Truthiness of a string: every string but the empty one. *)
Definition truthy (s : string) : bool :=
  match s with
  | EmptyString => false
  | String _ _ => true
  end.

(** Truthiness of [string | undefined]. *)
Definition truthy_opt (o : option string) : bool :=
  match o with
  | Some s => truthy s
  | None => false
  end.

(** A thrown value: an [Error] object with its message, or any other
    value. *)
Inductive Thrown : Type :=
| ErrorObj (message : string)
| NonError (shown : string).

(** A settled promise. *)
Definition Settled (A : Type) : Type := (Thrown + A)%type.

Definition resolved {A : Type} (a : A) : Settled A := inr a.
Definition rejected {A : Type} (e : Thrown) : Settled A := inl e.

(** [String.prototype.split] on a one-character separator. *)
Fixpoint split (sep : ascii) (s : string) : list string :=
  match s with
  | EmptyString => [EmptyString]
  | String c rest =>
      if Ascii.eqb c sep then EmptyString :: split sep rest
      else match split sep rest with
           | [] => [String c EmptyString]
           | piece :: pieces => String c piece :: pieces
           end
  end.

(** The code points [String.prototype.trim] strips, each as the bytes of
    its UTF-8 encoding: the white space U+0009, U+000B, U+000C, U+FEFF and
    the space separators U+0020, U+00A0, U+1680, U+2000 to U+200A, U+202F,
    U+205F, U+3000, and the line terminators U+000A, U+000D, U+2028,
    U+2029. *)
Definition whiteSpace : list (list ascii) :=
  map (map ascii_of_N)
    [ [9]; [10]; [11]; [12]; [13]; [32];
      [194; 160];
      [225; 154; 128];
      [226; 128; 128]; [226; 128; 129]; [226; 128; 130]; [226; 128; 131];
      [226; 128; 132]; [226; 128; 133]; [226; 128; 134]; [226; 128; 135];
      [226; 128; 136]; [226; 128; 137]; [226; 128; 138];
      [226; 128; 168]; [226; 128; 169]; [226; 128; 175];
      [226; 129; 159];
      [227; 128; 128];
      [239; 187; 191] ]%N.

(** What is left of [l] behind [w], when [l] starts with [w]. *)
Fixpoint stripPrefix (w l : list ascii) : option (list ascii) :=
  match w, l with
  | [], _ => Some l
  | a :: w', b :: l' => if Ascii.eqb a b then stripPrefix w' l' else None
  | _ :: _, [] => None
  end.

(** What is left of [l] behind the first of the code points [ws] it starts
    with. *)
Fixpoint skipSpace (ws : list (list ascii)) (l : list ascii) : option (list ascii) :=
  match ws with
  | [] => None
  | w :: ws' =>
      match stripPrefix w l with
      | Some rest => Some rest
      | None => skipSpace ws' l
      end
  end.

(** [l] without the code points of [ws] it starts with; [fuel] bounds
    their number. *)
Fixpoint skipSpaces (ws : list (list ascii)) (fuel : nat) (l : list ascii)
  : list ascii :=
  match fuel with
  | 0 => l
  | S fuel' =>
      match skipSpace ws l with
      | Some rest => skipSpaces ws fuel' rest
      | None => l
      end
  end.

Definition trimStartBytes (l : list ascii) : list ascii :=
  skipSpaces whiteSpace (length l) l.

Definition trimEndBytes (l : list ascii) : list ascii :=
  reverse (skipSpaces (map reverse whiteSpace) (length l) (reverse l)).

(** [String.prototype.trimStart], [trimEnd] and [trim]. *)
Definition trimStart (s : string) : string :=
  string_of_list_ascii (trimStartBytes (list_ascii_of_string s)).

Definition trimEnd (s : string) : string :=
  string_of_list_ascii (trimEndBytes (list_ascii_of_string s)).

Definition trim (s : string) : string :=
  string_of_list_ascii (trimEndBytes (trimStartBytes (list_ascii_of_string s))).

End Js.

(** ** [types.ts] *)

Module Types.

Inductive MessageRole : Type := user | bot.

(** [base64] is [undefined] when the reader's result holds no comma. *)
Record ImageFile : Type := {
  base64 : option string;
  mimeType : string
}.

Inductive ResponseType : Type := image | text_.

Inductive AspectRatio : Type :=
| ratio_1_1 | ratio_16_9 | ratio_9_16 | ratio_4_3 | ratio_3_4.

Inductive VariationCount : Type := one | two | four.

Definition variationCount (v : VariationCount) : nat :=
  match v with
  | one => 1
  | two => 2
  | four => 4
  end.

Record GenerationOptions : Type := {
  aspectRatio : AspectRatio;
  variations : VariationCount;
  negativePrompt : string
}.

Record RequestPayload : Type := {
  prompt : string;
  images : list ImageFile;
  options : GenerationOptions;
  responseType : ResponseType
}.

(** The object held by the [requestPayload] field of a message.  Beside a
    complete [RequestPayload], the edit handler can build the object
    [{ prompt }] when it spreads an absent payload. *)
Inductive PayloadObject : Type :=
| complete (p : RequestPayload)
| promptOnly (newPrompt : string).

Record ChatMessage : Type := {
  id : string;
  role : MessageRole;
  text : option string;
  imagePreviewUrls : option (list string);
  isEditing : option bool;
  requestPayload : option PayloadObject;
  generatedImages : option (list string);
  isLoading : option bool;
  error : option string;
  userMessageId : option string
}.

End Types.

(** ** [constants.ts] *)

Module Constants.
Import Types.

Definition ASPECT_RATIOS : list AspectRatio :=
  [ratio_1_1; ratio_16_9; ratio_9_16; ratio_4_3; ratio_3_4].
Definition VARIATION_OPTIONS : list VariationCount := [one; two; four].

Definition MAX_FILE_SIZE_MB : N := 10.
Definition MAX_FILE_SIZE_BYTES : N := MAX_FILE_SIZE_MB * 1024 * 1024.
Definition ACCEPTED_IMAGE_TYPES : list string :=
  ["image/jpeg"; "image/png"; "image/webp"].

End Constants.

(** ** The browser objects the components touch *)

Module Browser.

(** A [File]: its name, its media type, its size in bytes, and what a
    [FileReader] yields for [readAsDataURL]: the data URL, or nothing when
    the reader fires [onerror]. *)
Record File : Type := {
  name : string;
  type : string;
  size : N;
  dataURL : option string
}.

(** Object URLs: [URL.createObjectURL] hands out a fresh handle and keeps
    it alive until [URL.revokeObjectURL]. *)
Record ObjectURLs : Type := {
  nextHandle : N;
  live : gset string
}.

Definition createObjectURL (f : File) (u : ObjectURLs) : string * ObjectURLs :=
  let url := "blob:" +:+ Js.toString (nextHandle u) in
  (url, {| nextHandle := nextHandle u + 1; live := {[url]} ∪ live u |}).

Definition revokeObjectURL (url : string) (u : ObjectURLs) : ObjectURLs :=
  {| nextHandle := nextHandle u; live := live u ∖ {[url]} |}.

(** [files.map(file => URL.createObjectURL(file))] *)
Fixpoint createObjectURLs (fs : list File) (u : ObjectURLs)
  : list string * ObjectURLs :=
  match fs with
  | [] => ([], u)
  | f :: rest =>
      let '(url, u1) := createObjectURL f u in
      let '(urls, u2) := createObjectURLs rest u1 in
      (url :: urls, u2)
  end.

(** [urls.forEach(url => URL.revokeObjectURL(url))] *)
Definition revokeObjectURLs (urls : list string) (u : ObjectURLs) : ObjectURLs :=
  fold_left (fun acc url => revokeObjectURL url acc) urls u.

End Browser.

(** ** [components/ChatInput.tsx] *)

Module ChatInput.
Import Types Constants Browser.

Record State : Type := {
  prompt : string;
  files : list File;
  previewUrls : list string;
  options : GenerationOptions
}.

Definition initial : State := {|
  prompt := "";
  files := [];
  previewUrls := [];
  options := {| aspectRatio := ratio_1_1; variations := one; negativePrompt := "" |}
|}.

(** [ACCEPTED_IMAGE_TYPES.includes(file.type)] *)
Definition includes (l : list string) (s : string) : bool :=
  existsb (String.eqb s) l.

Definition invalidTypeAlert (f : File) : string :=
  "Invalid file type: " +:+ name f +:+ ". Please select a JPEG, PNG, or WEBP file.".

Definition tooLargeAlert (f : File) : string :=
  "File is too large: " +:+ name f +:+ ". Maximum size is "
    +:+ Js.toString (MAX_FILE_SIZE_BYTES / 1024 / 1024) +:+ "MB.".

(** The local variables of the loop in [handleFilesChange], with the
    alerts shown so far and the object URLs of the page. *)
Record Scan : Type := {
  newFiles : list File;
  newUrls : list string;
  alerts : list string;
  urls : ObjectURLs
}.

(** One iteration of [for (const file of Array.from(selectedFiles))]. *)
Definition scanFile (acc : Scan) (file : File) : Scan :=
  if negb (includes ACCEPTED_IMAGE_TYPES (type file)) then
    {| newFiles := newFiles acc; newUrls := newUrls acc;
       alerts := alerts acc ++ [invalidTypeAlert file]; urls := urls acc |}
  else if (MAX_FILE_SIZE_BYTES <? size file)%N then
    {| newFiles := newFiles acc; newUrls := newUrls acc;
       alerts := alerts acc ++ [tooLargeAlert file]; urls := urls acc |}
  else
    let '(url, u) := createObjectURL file (urls acc) in
    {| newFiles := newFiles acc ++ [file]; newUrls := newUrls acc ++ [url];
       alerts := alerts acc; urls := u |}.

Definition scanFiles (selectedFiles : list File) (u : ObjectURLs) : Scan :=
  fold_left scanFile selectedFiles
    {| newFiles := []; newUrls := []; alerts := []; urls := u |}.

(** [handleFilesChange]: the new component state, the alerts shown and the
    object URLs of the page. *)
Definition handleFilesChange (selectedFiles : option (list File))
    (st : State) (u : ObjectURLs) : State * list string * ObjectURLs :=
  match selectedFiles with
  | Some selected =>
      let r := scanFiles selected u in
      ({| prompt := prompt st;
          files := files st ++ newFiles r;
          previewUrls := previewUrls st ++ newUrls r;
          options := options st |},
       alerts r, urls r)
  | None => (st, [], u)
  end.

(** [prev.filter((_, i) => i !== index)] *)
Fixpoint filterIndexFrom {A : Type} (keep : nat -> bool) (i : nat) (l : list A)
  : list A :=
  match l with
  | [] => []
  | x :: rest =>
      if keep i then x :: filterIndexFrom keep (S i) rest
      else filterIndexFrom keep (S i) rest
  end.

Definition withoutIndex {A : Type} (index : nat) (l : list A) : list A :=
  filterIndexFrom (fun i => negb (i =? index)%nat) 0 l.

(** [removeFile]; [previewUrls[index]] out of range is [undefined], which
    [URL.revokeObjectURL] takes as the text ["undefined"]. *)
Definition removeFile (index : nat) (st : State) (u : ObjectURLs) : State * ObjectURLs :=
  ({| prompt := prompt st;
      files := withoutIndex index (files st);
      previewUrls := withoutIndex index (previewUrls st);
      options := options st |},
   match previewUrls st !! index with
   | Some url => revokeObjectURL url u
   | None => revokeObjectURL "undefined" u
   end).

(** [clearAllFiles] *)
Definition clearAllFiles (st : State) (u : ObjectURLs) : State * ObjectURLs :=
  ({| prompt := prompt st; files := []; previewUrls := []; options := options st |},
   revokeObjectURLs (previewUrls st) u).

(** [handleSubmit]: the form and the object URLs afterwards, and the
    arguments it has called [onSubmit] with, if it has. *)
Definition handleSubmit (st : State) (isLoading : bool) (u : ObjectURLs)
  : State * ObjectURLs * option (string * list File * GenerationOptions) :=
  if negb (Js.truthy (Js.trim (prompt st))) || isLoading then (st, u, None)
  else
    let onSubmit := Some (Js.trim (prompt st), files st, options st) in
    let st := {| prompt := ""; files := files st; previewUrls := previewUrls st;
                 options := options st |} in
    let '(st, u) := clearAllFiles st u in
    (st, u, onSubmit).

(** [showGenerationOptions] *)
Definition showGenerationOptions (st : State) : bool :=
  (length (files st) <=? 1)%nat.

(** What the user does with the form: type, choose options, pick or drop
    files, remove one, submit (while the page is loading or not). *)
Inductive Event : Type :=
| typed (newPrompt : string)
| optionsChosen (newOptions : GenerationOptions)
| filesPicked (selectedFiles : option (list File))
| fileRemoved (index : nat)
| submitPressed (isLoading : bool).

Definition handle (st : State) (u : ObjectURLs) (e : Event) : State * ObjectURLs :=
  match e with
  | typed newPrompt =>
      ({| prompt := newPrompt; files := files st; previewUrls := previewUrls st;
          options := options st |}, u)
  | optionsChosen newOptions =>
      ({| prompt := prompt st; files := files st; previewUrls := previewUrls st;
          options := newOptions |}, u)
  | filesPicked selectedFiles =>
      let '(st', _, u') := handleFilesChange selectedFiles st u in (st', u')
  | fileRemoved index => removeFile index st u
  | submitPressed isLoading => (handleSubmit st isLoading u).1
  end.

(** The form after a sequence of events. *)
Definition after (events : list Event) (st : State) (u : ObjectURLs)
  : State * ObjectURLs :=
  fold_left (fun acc e => handle acc.1 acc.2 e) events (st, u).

End ChatInput.

(** ** The [@google/genai] client, as far as the service reads and writes it *)

Module GenAI.
Import Types.

Record Blob : Type := {
  data : option string;
  blobMimeType : option string
}.

(** A part carries inline data or text; [partText] is the [text] field of
    a part. *)
Record Part : Type := {
  inlineData : option Blob;
  partText : option string
}.

Record Content : Type := { parts : list Part }.

Record Candidate : Type := { content : Content }.

(** A response: the optional candidates and the [text] accessor. *)
Record GenerateContentResponse : Type := {
  candidates : option (list Candidate);
  text : option string
}.

Inductive Modality : Type := IMAGE | TEXT.

Record ImageConfig : Type := { aspectRatio : AspectRatio }.

Record Config : Type := {
  responseModalities : list Modality;
  imageConfig : ImageConfig
}.

Record GenerateContentRequest : Type := {
  contents : list Content;
  config : option Config
}.

(** The argument of [ai.models.generateContent]:
    [{ model: modelName, ...request }]. *)
Record GenerateContentParameters : Type := {
  model : string;
  request : GenerateContentRequest
}.

Record GoogleGenAI : Type := { apiKey : option string }.

(** What one call to the remote API comes to: the instant it settles and
    the settled promise. *)
Record Reply : Type := {
  settledAt : nat;
  outcome : Js.Settled GenerateContentResponse
}.

(** The remote API: the reply to the [k]-th call of an invocation. *)
Definition Remote : Type :=
  GoogleGenAI -> nat -> GenerateContentParameters -> Reply.

End GenAI.

(** ** Promises *)

Module Promise.
Import GenAI.

(** The rejection [Promise.all] reports: the one that settles first, the
    earlier promise winning a tie. *)
Fixpoint firstRejection (replies : list Reply) : option (nat * Js.Thrown) :=
  match replies with
  | [] => None
  | r :: rest =>
      match outcome r, firstRejection rest with
      | inl e, Some (t, e') =>
          if (settledAt r <=? t)%nat then Some (settledAt r, e) else Some (t, e')
      | inl e, None => Some (settledAt r, e)
      | inr _, later => later
      end
  end.

Fixpoint fulfilled (replies : list Reply) : list GenerateContentResponse :=
  match replies with
  | [] => []
  | r :: rest =>
      match outcome r with
      | inr v => v :: fulfilled rest
      | inl _ => fulfilled rest
      end
  end.

(** [Promise.all]: all values in the order of the promises, or the first
    rejection. *)
Definition all (replies : list Reply) : Js.Settled (list GenerateContentResponse) :=
  match firstRejection replies with
  | Some (_, e) => Js.rejected e
  | None => Js.resolved (fulfilled replies)
  end.

End Promise.

(** ** [services/geminiService.ts] *)

Module GeminiService.
Import Types GenAI.

(** The module body: the check of [process.env.API_KEY] and the creation
    of the client. *)
Definition loadModule (env : gmap string string) : Js.Thrown + GoogleGenAI :=
  if negb (Js.truthy_opt (env !! "API_KEY")) then
    inl (Js.ErrorObj "API_KEY environment variable is not set")
  else
    inr {| apiKey := env !! "API_KEY" |}.

Definition fileToGenerativePart (base64 : option string) (mimeType : string) : Part :=
  {| inlineData := Some {| data := base64; blobMimeType := Some mimeType |};
     partText := None |}.

(** What [callGeminiApi] returns: [{ images }] or [{ text }]. *)
Record Result : Type := {
  images : option (list string);
  text : option string
}.

(** An argument of [console.error]. *)
Inductive LogArg : Type :=
| logString (s : string)
| logThrown (e : Js.Thrown).

(** One invocation: the remote calls it issued, what it wrote to the
    console, and the promise it returned. *)
Record Run : Type := {
  issued : list GenerateContentParameters;
  logged : list (list LogArg);
  returned : Js.Settled Result
}.

Definition modelName (responseType : ResponseType) : string :=
  match responseType with
  | image => "gemini-2.5-flash-image"
  | text_ => "gemini-2.5-flash"
  end.

Definition fullPrompt (params : RequestPayload) : string :=
  match responseType params with
  | image =>
      if Js.truthy (negativePrompt (options params)) then
        prompt params +:+ ". Negative prompt: do not include "
          +:+ negativePrompt (options params)
      else prompt params
  | text_ => prompt params
  end.

Definition buildRequest (params : RequestPayload) : GenerateContentRequest :=
  let parts :=
    map (fun img => fileToGenerativePart (base64 img) (Types.mimeType img))
        (Types.images params)
    ++ [ {| inlineData := None; partText := Some (fullPrompt params) |} ] in
  {| contents := [ {| parts := parts |} ];
     config :=
       match responseType params with
       | image =>
           Some {| responseModalities := [IMAGE];
                   imageConfig :=
                     {| aspectRatio := Types.aspectRatio (options params) |} |}
       | text_ => None
       end |}.

Definition variationCount (params : RequestPayload) : nat :=
  match responseType params with
  | image => Types.variationCount (variations (options params))
  | text_ => 1
  end.

(** The argument of every [ai.models.generateContent] of one invocation. *)
Definition call (params : RequestPayload) : GenerateContentParameters :=
  {| model := modelName (responseType params); request := buildRequest params |}.

(** [Array(variationCount).fill(0).map(() => ai.models.generateContent(..))]:
    the arguments of the calls, in the order they are issued. *)
Definition calls (params : RequestPayload) : list GenerateContentParameters :=
  replicate (variationCount params) (call params).

(** The inline data of one response, candidate after candidate and part
    after part; a part without data, or with empty data, is skipped. *)
Definition partImages (p : Part) : list string :=
  match inlineData p with
  | Some b =>
      match data b with
      | Some d => if Js.truthy d then [d] else []
      | None => []
      end
  | None => []
  end.

Definition responseImages (response : GenerateContentResponse) : list string :=
  match candidates response with
  | Some cs => flat_map (fun c => flat_map partImages (parts (content c))) cs
  | None => []
  end.

(** The [catch] block: what is logged and what is thrown instead. *)
Definition rewrap (e : Js.Thrown) : Js.Thrown :=
  match e with
  | Js.ErrorObj message => Js.ErrorObj ("API Error: " +:+ message)
  | Js.NonError _ =>
      Js.ErrorObj "An unknown error occurred while calling the API."
  end.

Definition caught (sent : list GenerateContentParameters) (e : Js.Thrown) : Run :=
  {| issued := sent;
     logged := [[logString "Error calling Gemini API:"; logThrown e]];
     returned := Js.rejected (rewrap e) |}.

(** The body of the [try] block once [Promise.all] has resolved. *)
Definition collect (params : RequestPayload)
    (responses : list GenerateContentResponse) : Js.Settled Result :=
  match responseType params with
  | text_ =>
      match responses with
      | first :: _ =>
          match GenAI.text first with
          | Some textResponse =>
              if Js.truthy textResponse then
                Js.resolved {| images := None; text := Some textResponse |}
              else
                Js.rejected (Js.ErrorObj "The model returned an empty text response.")
          | None =>
              Js.rejected (Js.ErrorObj "The model returned an empty text response.")
          end
      | [] =>
          Js.rejected
            (Js.ErrorObj "Cannot read properties of undefined (reading 'text')")
      end
  | image =>
      let base64Images := flat_map responseImages responses in
      if (length base64Images =? 0)%nat then
        Js.rejected (Js.ErrorObj
          "No images were generated. The prompt may have been blocked or the response was empty.")
      else
        Js.resolved {| images := Some base64Images; text := None |}
  end.

(** [callGeminiApi].  An argument without [options] makes the
    destructuring at the top throw before any call is issued. *)
Definition callGeminiApi (ai : GoogleGenAI) (remote : Remote)
    (params : PayloadObject) : Run :=
  match params with
  | promptOnly _ =>
      {| issued := []; logged := [];
         returned := Js.rejected (Js.ErrorObj
           "Cannot destructure property 'aspectRatio' of 'options' as it is undefined.") |}
  | complete params =>
      let sent := calls params in
      let promises := imap (fun k call => remote ai k call) sent in
      match Promise.all promises with
      | inl e => caught sent e
      | inr responses =>
          match collect params responses with
          | inl e => caught sent e
          | inr result =>
              {| issued := sent; logged := []; returned := Js.resolved result |}
          end
      end
  end.

(** Importing the service and calling it: the call exists only once the
    module body has run to its end. *)
Definition importAndCall (env : gmap string string) (remote : Remote)
    (params : PayloadObject) : Js.Thrown + Run :=
  match loadModule env with
  | inl e => inl e
  | inr ai => inr (callGeminiApi ai remote params)
  end.

End GeminiService.

(** ** JavaScript numbers: IEEE 754 binary64 *)

Module Number.

Definition prec : Z := 53.
Definition emax : Z := 1024.

Definition mul (x y : spec_float) : spec_float := SFmul prec emax x y.
Definition sub (x y : spec_float) : spec_float := SFsub prec emax x y.

Definition isNaN (x : spec_float) : bool :=
  match x with
  | S754_nan => true
  | _ => false
  end.

(** The literals [0.1], [0.5], [1] and [5]. *)
Definition lit_0_1 : spec_float := S754_finite false 7205759403792794 (-56).
Definition lit_0_5 : spec_float := S754_finite false 4503599627370496 (-53).
Definition lit_1 : spec_float := S754_finite false 4503599627370496 (-52).
Definition lit_5 : spec_float := S754_finite false 5629499534213120 (-50).

(** [Math.min] and [Math.max] of two numbers: NaN if either is NaN, and
    [-0] below [+0]. *)
Definition min (a b : spec_float) : spec_float :=
  if isNaN a || isNaN b then S754_nan
  else if SFltb a b then a
  else if SFltb b a then b
  else match a, b with
       | S754_zero true, _ => a
       | _, S754_zero true => b
       | _, _ => a
       end.

Definition max (a b : spec_float) : spec_float :=
  if isNaN a || isNaN b then S754_nan
  else if SFltb a b then b
  else if SFltb b a then a
  else match a, b with
       | S754_zero false, _ => a
       | _, S754_zero false => b
       | _, _ => a
       end.

Definition leb (a b : spec_float) : bool := SFleb a b.

End Number.

(** ** [components/ImageModal.tsx] *)

Module ImageModal.

(** [useState(1)] *)
Definition initialZoom : spec_float := Number.lit_1.

(** The updater [handleWheel] passes to [setZoom]. *)
Definition handleWheel (deltaY : spec_float) (prevZoom : spec_float) : spec_float :=
  let zoomFactor := Number.lit_0_1 in
  let newZoom :=
    Number.sub prevZoom (Number.mul (Number.mul deltaY zoomFactor) Number.lit_0_1) in
  Number.max Number.lit_0_5 (Number.min newZoom Number.lit_5).

(** The zoom after each of a sequence of wheel events. *)
Fixpoint zooms (deltas : list spec_float) (zoom : spec_float) : list spec_float :=
  match deltas with
  | [] => []
  | deltaY :: later =>
      let zoom' := handleWheel deltaY zoom in
      zoom' :: zooms later zoom'
  end.

(** The state of the viewer: [zoom], [translate], [isDragging] and
    [startPosRef.current]. *)
Record Point : Type := { x : spec_float; y : spec_float }.

Record State : Type := {
  zoom : spec_float;
  translate : Point;
  isDragging : bool;
  startPos : Point
}.

Definition initial : State := {|
  zoom := initialZoom;
  translate := {| x := S754_zero false; y := S754_zero false |};
  isDragging := false;
  startPos := {| x := S754_zero false; y := S754_zero false |}
|}.

(** The events of the viewer, with the pointer position they carry. *)
Inductive Event : Type :=
| wheel (deltaY : spec_float)
| mouseDown (clientX clientY : spec_float)
| mouseMove (clientX clientY : spec_float)
| mouseUp
| mouseLeave.

Definition handleMouseDown (clientX clientY : spec_float) (st : State) : State :=
  {| zoom := zoom st; translate := translate st; isDragging := true;
     startPos := {| x := Number.sub clientX (x (translate st));
                    y := Number.sub clientY (y (translate st)) |} |}.

Definition handleMouseMove (clientX clientY : spec_float) (st : State) : State :=
  if negb (isDragging st) then st
  else
    let newX := Number.sub clientX (x (startPos st)) in
    let newY := Number.sub clientY (y (startPos st)) in
    {| zoom := zoom st; translate := {| x := newX; y := newY |};
       isDragging := isDragging st; startPos := startPos st |}.

Definition handleMouseUp (st : State) : State :=
  {| zoom := zoom st; translate := translate st; isDragging := false;
     startPos := startPos st |}.

Definition handle (st : State) (e : Event) : State :=
  match e with
  | wheel deltaY =>
      {| zoom := handleWheel deltaY (zoom st); translate := translate st;
         isDragging := isDragging st; startPos := startPos st |}
  | mouseDown clientX clientY => handleMouseDown clientX clientY st
  | mouseMove clientX clientY => handleMouseMove clientX clientY st
  | mouseUp => handleMouseUp st
  | mouseLeave => handleMouseUp st
  end.

Definition after (events : list Event) (st : State) : State :=
  fold_left handle events st.

(** [handleKeyDown]: whether [onClose] is called. *)
Definition handleKeyDown (key : string) : bool := String.eqb key "Escape".

(** The closed interval from [0.5] to [5]. *)
Definition clamped (zoom : spec_float) : Prop :=
  Number.leb Number.lit_0_5 zoom = true /\ Number.leb zoom Number.lit_5 = true.

End ImageModal.

(** ** [components/ChatMessage.tsx] *)

Module ChatMessage.
Import Types.

(** The state of a [UserMessage]: [isEditing] and [editText]. *)
Record EditState : Type := {
  isEditing : bool;
  editText : string
}.

(** [useState(false)], [useState(message.text || '')] *)
Definition initial (message : Types.ChatMessage) : EditState :=
  {| isEditing := false;
     editText := match text message with
                 | Some t => if Js.truthy t then t else ""
                 | None => ""
                 end |}.

(** [handleEditSubmit]: the state afterwards and the arguments of [onEdit],
    if it is called. *)
Definition handleEditSubmit (message : Types.ChatMessage) (st : EditState)
  : EditState * option (string * string) :=
  let trimmed := Js.trim (editText st) in
  let differs :=
    match text message with
    | Some t => negb (String.eqb trimmed t)
    | None => true
    end in
  ({| isEditing := false; editText := editText st |},
   if Js.truthy trimmed && differs then Some (id message, trimmed) else None).

(** [rows={Math.max(2, editText.split('\n').length)}] *)
Definition rows (editText : string) : nat :=
  Nat.max 2 (length (Js.split (ascii_of_nat 10) editText)).

(** What [handleDownload] gives the link it clicks. *)
Record Download : Type := {
  href : string;
  download : string
}.

Definition handleDownload (message : Types.ChatMessage) (base64Image : string)
    (index : nat) : Download :=
  {| href := "data:image/png;base64," +:+ base64Image;
     download := "generated-image-" +:+ id message +:+ "-"
                   +:+ Js.toString (N.of_nat (index + 1)) +:+ ".png" |}.

(** One generated image as [BotMessage] shows it: the source and the
    alternative text of the picture, the argument of [onImageClick], and
    the download its button starts. *)
Record ImageCell : Type := {
  src : string;
  alt : string;
  zooms : string;
  downloads : Download
}.

(** What [BotMessage] renders: the "Generating..." row, the error text with
    the argument of [onRetry] when there is a retry button, the text
    paragraph, and the grid of images with whether it has two columns. *)
Record BotView : Type := {
  generating : bool;
  errorShown : option (string * option string);
  textShown : option string;
  grid : option (bool * list ImageCell)
}.

Definition BotMessage (message : Types.ChatMessage) : BotView :=
  {| generating :=
       match Types.isLoading message with
       | Some true => true
       | _ => false
       end;
     errorShown :=
       match error message with
       | Some e =>
           if Js.truthy e then
             Some (e, match userMessageId message with
                      | Some u => if Js.truthy u then Some u else None
                      | None => None
                      end)
           else None
       | None => None
       end;
     textShown :=
       match text message with
       | Some t => if Js.truthy t then Some t else None
       | None => None
       end;
     grid :=
       match generatedImages message with
       | Some imgs =>
           Some ((1 <? length imgs)%nat,
                 imap (fun index img =>
                         {| src := "data:image/png;base64," +:+ img;
                            alt := "Generated image "
                                     +:+ Js.toString (N.of_nat (index + 1));
                            zooms := img;
                            downloads := handleDownload message img index |})
                      imgs)
       | None => None
       end |}.

(** What [UserMessage] renders while it is not edited: the text paragraph
    and the previews with whether they take two columns. *)
Record UserView : Type := {
  paragraph : option string;
  previews : option (bool * list string)
}.

Definition UserMessage (message : Types.ChatMessage) : UserView :=
  {| paragraph :=
       match text message with
       | Some t => if Js.truthy t then Some t else None
       | None => None
       end;
     previews :=
       match imagePreviewUrls message with
       | Some urls =>
           if (0 <? length urls)%nat then Some ((1 <? length urls)%nat, urls)
           else None
       | None => None
       end |}.

(** [ChatMessageComponent] *)
Definition ChatMessageComponent (message : Types.ChatMessage) : UserView + BotView :=
  match role message with
  | user => inl (UserMessage message)
  | bot => inr (BotMessage message)
  end.

End ChatMessage.

(** ** [App.tsx] *)

Module App.
Import Types Browser.
Import GeminiService(LogArg, logString, logThrown, Result, Run).

(** A text kept in [localStorage]: the JSON of a list of messages, or any
    other text. *)
Inductive Stored : Type :=
| json (saved : list ChatMessage)
| otherText (raw : string).

(** The state of the component ([messages], [isLoading]) and the parts of
    the browser its handlers and effects write to: the storage, the
    object URLs, the console, and the calls sent to the remote API. *)
Record Page : Type := {
  messages : list ChatMessage;
  isLoading : bool;
  localStorage : gmap string Stored;
  objectURLs : ObjectURLs;
  console : list (list LogArg);
  network : list GenAI.GenerateContentParameters
}.

Definition setMessages (update : list ChatMessage -> list ChatMessage)
    (p : Page) : Page :=
  {| messages := update (messages p); isLoading := isLoading p;
     localStorage := localStorage p; objectURLs := objectURLs p;
     console := console p; network := network p |}.

Definition setIsLoading (b : bool) (p : Page) : Page :=
  {| messages := messages p; isLoading := b;
     localStorage := localStorage p; objectURLs := objectURLs p;
     console := console p; network := network p |}.

Definition setLocalStorage
    (update : gmap string Stored -> gmap string Stored) (p : Page) : Page :=
  {| messages := messages p; isLoading := isLoading p;
     localStorage := update (localStorage p); objectURLs := objectURLs p;
     console := console p; network := network p |}.

Definition setObjectURLs (u : ObjectURLs) (p : Page) : Page :=
  {| messages := messages p; isLoading := isLoading p;
     localStorage := localStorage p; objectURLs := u;
     console := console p; network := network p |}.

Definition consoleError (lines : list (list LogArg)) (p : Page) : Page :=
  {| messages := messages p; isLoading := isLoading p;
     localStorage := localStorage p; objectURLs := objectURLs p;
     console := console p ++ lines; network := network p |}.

Definition send (sent : list GenAI.GenerateContentParameters) (p : Page) : Page :=
  {| messages := messages p; isLoading := isLoading p;
     localStorage := localStorage p; objectURLs := objectURLs p;
     console := console p; network := network p ++ sent |}.

(** The page when the component mounts. *)
Definition mount (storage : gmap string Stored) (u : ObjectURLs) : Page :=
  {| messages := []; isLoading := false; localStorage := storage;
     objectURLs := u; console := []; network := [] |}.

(** [msg.isLoading] as a condition. *)
Definition loading (msg : ChatMessage) : bool :=
  match Types.isLoading msg with
  | Some true => true
  | _ => false
  end.

(** [messages.filter(msg => !msg.isLoading)] *)
Definition withoutLoading (l : list ChatMessage) : list ChatMessage :=
  List.filter (fun msg => negb (loading msg)) l.

(** The object URLs a list of parsed messages makes the load effect
    revoke. *)
Definition previewUrlsToRevoke (parsedMessages : list ChatMessage) : list string :=
  flat_map (fun msg =>
              match role msg, imagePreviewUrls msg with
              | user, Some urls => urls
              | _, _ => []
              end) parsedMessages.

(** The effect run once on mount. *)
Definition loadEffect (p : Page) : Page :=
  match localStorage p !! "chatHistory" with
  | Some (json parsedMessages) =>
      setMessages (fun _ => withoutLoading parsedMessages)
        (setObjectURLs
           (revokeObjectURLs (previewUrlsToRevoke parsedMessages) (objectURLs p)) p)
  | Some (otherText raw) =>
      if Js.truthy raw then
        setLocalStorage (delete "chatHistory")
          (consoleError
             [[logString "Failed to parse chat history from localStorage";
               logThrown (Js.ErrorObj "SyntaxError")]] p)
      else p
  | None => p
  end.

(** The effect run after every change of [messages]. *)
Definition saveEffect (p : Page) : Page :=
  let savableMessages := withoutLoading (messages p) in
  if (0 <? length savableMessages)%nat then
    setLocalStorage (insert "chatHistory" (json savableMessages)) p
  else
    setLocalStorage (delete "chatHistory") p.

(** [filesToImageFiles]: one reader per file, joined by [Promise.all]; a
    reader that fails rejects with its event. *)
Definition readFile (file : File) : Js.Settled ImageFile :=
  match dataURL file with
  | Some result =>
      Js.resolved {| base64 := nth_error (Js.split "," result) 1;
                     mimeType := type file |}
  | None => Js.rejected (Js.NonError "[object ProgressEvent]")
  end.

Fixpoint filesToImageFiles (files : list File) : Js.Settled (list ImageFile) :=
  match files with
  | [] => Js.resolved []
  | file :: rest =>
      match readFile file, filesToImageFiles rest with
      | inr imageFile, inr imageFiles => Js.resolved (imageFile :: imageFiles)
      | inl e, _ => Js.rejected e
      | inr _, inl e => Js.rejected e
      end
  end.

Definition loadingBotMessage (botMessageId userMessageId : string) : ChatMessage :=
  {| id := botMessageId; role := bot; text := None; imagePreviewUrls := None;
     isEditing := None; requestPayload := None; generatedImages := None;
     Types.isLoading := Some true; error := None;
     userMessageId := Some userMessageId |}.

Definition successBotMessage (botMessageId userMessageId : string)
    (response : Result) : ChatMessage :=
  {| id := botMessageId; role := bot; text := GeminiService.text response;
     imagePreviewUrls := None; isEditing := None; requestPayload := None;
     generatedImages := GeminiService.images response;
     Types.isLoading := None; error := None;
     userMessageId := Some userMessageId |}.

Definition errorBotMessage (botMessageId userMessageId errorMessage : string)
  : ChatMessage :=
  {| id := botMessageId; role := bot; text := None; imagePreviewUrls := None;
     isEditing := None; requestPayload := None; generatedImages := None;
     Types.isLoading := None; error := Some errorMessage;
     userMessageId := Some userMessageId |}.

(** [prev.map(msg => msg.id === target ? replacement : msg)] *)
Definition replaceById (target : string) (replacement : ChatMessage)
    (prev : list ChatMessage) : list ChatMessage :=
  map (fun msg => if String.eqb (id msg) target then replacement else msg) prev.

(** [existingBotMessageId || (Date.now() + 1).toString()] *)
Definition botMessageIdFor (existingBotMessageId : option string) (now : N) : string :=
  match existingBotMessageId with
  | Some existing => if Js.truthy existing then existing else Js.toString (now + 1)
  | None => Js.toString (now + 1)
  end.

(** What [processRequest] holds across its [await]. *)
Record Pending : Type := {
  pendingPayload : PayloadObject;
  pendingUserMessageId : string;
  botMessageId : string
}.

(** [processRequest] up to its [await]: the loading message is put in
    place and [callGeminiApi] sends its calls. *)
Definition processRequest_begin (ai : GenAI.GoogleGenAI) (remote : GenAI.Remote)
    (requestPayload : PayloadObject) (userMessageId : string)
    (existingBotMessageId : option string) (now : N) (p : Page)
  : Page * Pending :=
  let botMessageId := botMessageIdFor existingBotMessageId now in
  let loadingBotMessage := loadingBotMessage botMessageId userMessageId in
  let p := setIsLoading true p in
  let p :=
    if Js.truthy_opt existingBotMessageId then
      setMessages (replaceById botMessageId loadingBotMessage) p
    else
      setMessages (fun prev => prev ++ [loadingBotMessage]) p in
  (send (GeminiService.issued (GeminiService.callGeminiApi ai remote requestPayload)) p,
   {| pendingPayload := requestPayload; pendingUserMessageId := userMessageId;
      botMessageId := botMessageId |}).

(** The message put in place of the loading one when the call settles. *)
Definition terminalBotMessage (botMessageId userMessageId : string)
    (settled : Js.Settled Result) : ChatMessage :=
  match settled with
  | inr response => successBotMessage botMessageId userMessageId response
  | inl error =>
      let errorMessage :=
        match error with
        | Js.ErrorObj message => message
        | Js.NonError _ => "An unexpected error occurred."
        end in
      errorBotMessage botMessageId userMessageId errorMessage
  end.

(** [processRequest] from the point where [callGeminiApi] has settled. *)
Definition processRequest_settle (pending : Pending) (run : Run) (p : Page) : Page :=
  setIsLoading false
    (setMessages
       (replaceById (botMessageId pending)
          (terminalBotMessage (botMessageId pending) (pendingUserMessageId pending)
             (GeminiService.returned run)))
       (consoleError (GeminiService.logged run) p)).

(** A request run to its end with nothing else in between. *)
Definition settleNow (ai : GenAI.GoogleGenAI) (remote : GenAI.Remote)
    (pending : Pending) (p : Page) : Page :=
  processRequest_settle pending
    (GeminiService.callGeminiApi ai remote (pendingPayload pending)) p.

Definition processRequest (ai : GenAI.GoogleGenAI) (remote : GenAI.Remote)
    (requestPayload : PayloadObject) (userMessageId : string)
    (existingBotMessageId : option string) (now : N) (p : Page) : Page :=
  let '(p, pending) :=
    processRequest_begin ai remote requestPayload userMessageId
      existingBotMessageId now p in
  settleNow ai remote pending p.

(** The payload [handleSubmit] builds once the files are encoded. *)
Definition submitPayload (prompt : string) (files : list File)
    (options : GenerationOptions) : Js.Settled RequestPayload :=
  match filesToImageFiles files with
  | inl e => Js.rejected e
  | inr imageFiles =>
      Js.resolved
        {| prompt := prompt; images := imageFiles; options := options;
           responseType := if (1 <? length files)%nat then text_ else image |}
  end.

Definition userMessage (userMessageId prompt : string)
    (imagePreviewUrls : list string) (requestPayload : RequestPayload)
  : ChatMessage :=
  {| id := userMessageId; role := user; text := Some prompt;
     imagePreviewUrls := Some imagePreviewUrls; isEditing := None;
     requestPayload := Some (complete requestPayload);
     generatedImages := None; Types.isLoading := None; error := None;
     userMessageId := None |}.

(** [handleSubmit] up to the [await] inside [processRequest].  [now] is
    the clock at the start and [elapsed] the time gone when
    [processRequest] reads it again.  When encoding the files fails the
    promise of [handleSubmit] is rejected there and then. *)
Definition handleSubmit_begin (ai : GenAI.GoogleGenAI) (remote : GenAI.Remote)
    (prompt : string) (files : list File) (options : GenerationOptions)
    (now elapsed : N) (p : Page) : Page * Js.Settled Pending :=
  let userMessageId := Js.toString now in
  let '(imagePreviewUrls, u) := createObjectURLs files (objectURLs p) in
  let p := setObjectURLs u p in
  match submitPayload prompt files options with
  | inl e => (p, Js.rejected e)
  | inr requestPayload =>
      let p :=
        setMessages
          (fun prev =>
             prev ++ [userMessage userMessageId prompt imagePreviewUrls requestPayload])
          p in
      let '(p, pending) :=
        processRequest_begin ai remote (complete requestPayload) userMessageId None
          (now + elapsed) p in
      (p, Js.resolved pending)
  end.

(** [handleSubmit], run to its end with nothing else in between. *)
Definition handleSubmit (ai : GenAI.GoogleGenAI) (remote : GenAI.Remote)
    (prompt : string) (files : list File) (options : GenerationOptions)
    (now elapsed : N) (p : Page) : Page * Js.Settled unit :=
  match handleSubmit_begin ai remote prompt files options now elapsed p with
  | (p, inl e) => (p, Js.rejected e)
  | (p, inr pending) => (settleNow ai remote pending p, Js.resolved tt)
  end.

(** [messages.find(msg => msg.id === userMessageId)] *)
Definition findById (userMessageId : string) (l : list ChatMessage)
  : option ChatMessage :=
  List.find (fun msg => String.eqb (id msg) userMessageId) l.

(** [msg.userMessageId === userMessageId] *)
Definition refersTo (userMessageId : string) (msg : ChatMessage) : bool :=
  match Types.userMessageId msg with
  | Some linked => String.eqb linked userMessageId
  | None => false
  end.

(** [messages.find(msg => msg.userMessageId === userMessageId)] *)
Definition findBotFor (userMessageId : string) (l : list ChatMessage)
  : option ChatMessage :=
  List.find (refersTo userMessageId) l.

(** [handleRetry] up to the [await] inside [processRequest]; no request
    is pending when the messages were not found. *)
Definition handleRetry_begin (ai : GenAI.GoogleGenAI) (remote : GenAI.Remote)
    (userMessageId : string) (now : N) (p : Page) : Page * option Pending :=
  let userMessage := findById userMessageId (messages p) in
  let botMessage := findBotFor userMessageId (messages p) in
  match userMessage ≫= requestPayload, botMessage with
  | Some requestPayload, Some botMessage =>
      let '(p, pending) :=
        processRequest_begin ai remote requestPayload userMessageId
          (Some (id botMessage)) now p in
      (p, Some pending)
  | _, _ =>
      (consoleError
         [[logString "Could not find messages to retry for userMessageId:";
           logString userMessageId]] p,
       None)
  end.

(** [handleRetry] and the request it starts, run to the end with nothing
    else in between. *)
Definition handleRetry (ai : GenAI.GoogleGenAI) (remote : GenAI.Remote)
    (userMessageId : string) (now : N) (p : Page) : Page :=
  match handleRetry_begin ai remote userMessageId now p with
  | (p, Some pending) => settleNow ai remote pending p
  | (p, None) => p
  end.

(** [{ ...payload, prompt: newPrompt }] *)
Definition withPrompt (payload : option PayloadObject) (newPrompt : string)
  : PayloadObject :=
  match payload with
  | Some (complete r) =>
      complete {| prompt := newPrompt; images := images r; options := options r;
                  responseType := responseType r |}
  | Some (promptOnly _) => promptOnly newPrompt
  | None => promptOnly newPrompt
  end.

(** The updater of [handleEdit] on one message. *)
Definition editMessage (userMessageId newPrompt : string) (msg : ChatMessage)
  : ChatMessage :=
  if String.eqb (id msg) userMessageId then
    {| id := id msg; role := role msg; text := Some newPrompt;
       imagePreviewUrls := imagePreviewUrls msg; isEditing := isEditing msg;
       requestPayload := Some (withPrompt (requestPayload msg) newPrompt);
       generatedImages := generatedImages msg;
       Types.isLoading := Types.isLoading msg;
       error := error msg; userMessageId := Types.userMessageId msg |}
  else msg.

(** What the updater leaves in [originalRequestPayload]: the payload of
    the last message it matched. *)
Definition capturedPayload (userMessageId : string) (prev : list ChatMessage)
  : option PayloadObject :=
  fold_left
    (fun captured msg =>
       if String.eqb (id msg) userMessageId then requestPayload msg else captured)
    prev None.

(** [handleEdit] up to the [await] inside [processRequest].  React runs
    the updater given to [setMessages] inside that call when no update of
    the component is pending ([eager]), and at the next render otherwise.
    Only in the first case is [originalRequestPayload] set when the handler
    tests it; in the second it is still [undefined] there.  The messages
    are updated in both. *)
Definition handleEdit_begin (ai : GenAI.GoogleGenAI) (remote : GenAI.Remote)
    (eager : bool) (userMessageId newPrompt : string) (now : N) (p : Page)
  : Page * option Pending :=
  let originalRequestPayload :=
    if eager then capturedPayload userMessageId (messages p) else None in
  let botMessage := findBotFor userMessageId (messages p) in
  let p := setMessages (map (editMessage userMessageId newPrompt)) p in
  match originalRequestPayload, botMessage with
  | Some original, Some botMessage =>
      let newRequestPayload := withPrompt (Some original) newPrompt in
      let '(p, pending) :=
        processRequest_begin ai remote newRequestPayload userMessageId
          (Some (id botMessage)) now p in
      (p, Some pending)
  | _, _ =>
      (consoleError
         [[logString "Could not find messages to edit for userMessageId:";
           logString userMessageId]] p,
       None)
  end.

(** [handleEdit] and the request it starts, run to the end with nothing
    else in between. *)
Definition handleEdit (ai : GenAI.GoogleGenAI) (remote : GenAI.Remote)
    (eager : bool) (userMessageId newPrompt : string) (now : N) (p : Page) : Page :=
  match handleEdit_begin ai remote eager userMessageId newPrompt now p with
  | (p, Some pending) => settleNow ai remote pending p
  | (p, None) => p
  end.

(** The object URLs once the input form has cleared its files, right after
    it called [onSubmit]. *)
Definition formCleared (form : ChatInput.State) (p : Page) : Page :=
  setObjectURLs (ChatInput.handleSubmit form false (objectURLs p)).1.2 p.

(** [handleImageClick]: the new [zoomedImageUrl]. *)
Definition handleImageClick (base64Image : string) : string :=
  "data:image/png;base64," +:+ base64Image.

(** The events of the page: a submission let through by the input form,
    a retry, an edit, the settling of a pending request, the save effect,
    and a reload of the page. *)
Inductive step : Page -> Page -> Prop :=
| step_submit ai remote form prompt files options now elapsed p :
    (ChatInput.handleSubmit form (isLoading p) (objectURLs p)).2
    = Some (prompt, files, options) ->
    step p (formCleared form
              (handleSubmit_begin ai remote prompt files options now elapsed p).1)
| step_retry ai remote userMessageId now p :
    step p (handleRetry_begin ai remote userMessageId now p).1
| step_edit ai remote eager userMessageId newPrompt now p :
    step p (handleEdit_begin ai remote eager userMessageId newPrompt now p).1
| step_settle pending run p :
    step p (processRequest_settle pending run p)
| step_save p :
    step p (saveEffect p)
| step_reload p :
    step p (loadEffect (mount (localStorage p) (objectURLs p))).

(** The pages the application reaches from a first visit. *)
Inductive reachable : Page -> Prop :=
| reachable_mount u : reachable (mount ∅ u)
| reachable_step p q : reachable p -> step p q -> reachable q.

End App.

(** * Vocabulary of the properties *)

Module Spec.
Import Types Constants Browser.

(** A file the intake is to accept: media type on the allow-list and size
    within the ceiling of 10 MiB. *)
Definition validFile (f : File) : Prop :=
  type f ∈ ["image/jpeg"; "image/png"; "image/webp"]
  /\ (size f <= 10 * 1024 * 1024)%N.

#[export] Instance validFile_dec (f : File) : Decision (validFile f).
Proof. unfold validFile. apply _. Defined.

(** The message a rejected file is reported with; none for a valid file. *)
Definition rejection (f : File) : list string :=
  if decide (type f ∈ ["image/jpeg"; "image/png"; "image/webp"]) then
    if decide (size f <= 10 * 1024 * 1024)%N then []
    else [ChatInput.tooLargeAlert f]
  else [ChatInput.invalidTypeAlert f].

(** Every remote call of one invocation succeeds, the [k]-th one with
    [answers !! k]. *)
Definition succeed (ai : GenAI.GoogleGenAI) (remote : GenAI.Remote)
    (params : RequestPayload) (answers : list GenAI.GenerateContentResponse) : Prop :=
  length answers = GeminiService.variationCount params
  /\ forall k answer,
       answers !! k = Some answer ->
       GenAI.outcome (remote ai k (GeminiService.call params)) = inr answer.

(** The number of calls the client is to issue. *)
Definition fanOut (params : RequestPayload) : nat :=
  match responseType params with
  | image => variationCount (variations (options params))
  | text_ => 1
  end.

(** A message that is not in the loading state. *)
Definition notLoading (m : ChatMessage) : Prop := isLoading m <> Some true.

#[export] Instance notLoading_dec (m : ChatMessage) : Decision (notLoading m).
Proof. unfold notLoading. apply _. Defined.

(** The terminal states of a bot message: success, with images or text
    and no error, and error, with a message and nothing else. *)
Definition success (m : ChatMessage) : Prop :=
  notLoading m /\ error m = None
  /\ ((exists imgs, generatedImages m = Some imgs /\ imgs <> [])
      \/ (exists t, text m = Some t /\ t <> "")).

Definition failure (m : ChatMessage) : Prop :=
  notLoading m /\ (exists message, error m = Some message /\ message <> "")
  /\ generatedImages m = None /\ text m = None.

Definition terminal (m : ChatMessage) : Prop := success m \/ failure m.

(** A file the reader can read. *)
Definition readable (f : File) : Prop := is_Some (dataURL f).

(** No message carries the empty identifier. *)
Definition identified (l : list ChatMessage) : Prop :=
  Forall (fun m => id m <> "") l.

(** The identifiers of the page, shown and stored, are not empty. *)
Definition identifiedPage (p : App.Page) : Prop :=
  identified (App.messages p)
  /\ forall saved,
       App.localStorage p !! "chatHistory" = Some (App.json saved) -> identified saved.

(** White space only: a sequence of code points that [trim] strips. *)
Definition allSpaces (s : string) : Prop :=
  exists spaces,
    Forall (fun w => w ∈ Js.whiteSpace) spaces
    /\ list_ascii_of_string s = concat spaces.

(** A text that is not empty and neither starts nor ends with a code point
    that [trim] strips. *)
Definition tight (s : string) : Prop :=
  s <> ""
  /\ Forall (fun w => ~ w `prefix_of` list_ascii_of_string s
                      /\ ~ w `suffix_of` list_ascii_of_string s)
       Js.whiteSpace.

#[export] Instance tight_dec (s : string) : Decision (tight s).
Proof. unfold tight. apply _. Defined.

(** The files and the previews of the form go in pairs. *)
Definition paired (st : ChatInput.State) : Prop :=
  length (ChatInput.files st) = length (ChatInput.previewUrls st).

(** A text without a comma, and the part of a text before its first
    comma. *)
Fixpoint noComma (s : string) : bool :=
  match s with
  | EmptyString => true
  | String c rest => negb (Ascii.eqb c ",") && noComma rest
  end.

Fixpoint uptoComma (s : string) : string :=
  match s with
  | EmptyString => EmptyString
  | String c rest => if Ascii.eqb c "," then EmptyString else String c (uptoComma rest)
  end.

(** A user message carries its request: a complete payload whose prompt
    is the text shown, one preview per image, the response type that goes
    with the number of images, and neither a loading mark nor a link to
    another message. *)
Definition carriesRequest (m : ChatMessage) : Prop :=
  role m = user ->
  exists r urls,
    requestPayload m = Some (complete r)
    /\ text m = Some (prompt r)
    /\ imagePreviewUrls m = Some urls
    /\ length urls = length (images r)
    /\ responseType r = (if (1 <? length (images r))%nat then text_ else image)
    /\ isLoading m = None
    /\ userMessageId m = None.

Definition carryRequests (p : App.Page) : Prop :=
  Forall carriesRequest (App.messages p)
  /\ forall saved,
       App.localStorage p !! "chatHistory" = Some (App.json saved) ->
       Forall carriesRequest saved.

(** The wheel events among the events of the viewer. *)
Definition wheelDeltas (events : list ImageModal.Event) : list spec_float :=
  flat_map (fun e => match e with
                     | ImageModal.wheel deltaY => [deltaY]
                     | _ => []
                     end) events.

Definition isMouseDown (e : ImageModal.Event) : bool :=
  match e with
  | ImageModal.mouseDown _ _ => true
  | _ => false
  end.

(** An object URL handed out before the [n]-th. *)
Definition handedOutBefore (n : N) (url : string) : Prop :=
  exists k, (k < n)%N /\ url = "blob:" +:+ Js.toString k.

(** Every live object URL was handed out by [createObjectURL]. *)
Definition handedOut (u : ObjectURLs) : Prop :=
  forall url, url ∈ live u -> handedOutBefore (nextHandle u) url.

End Spec.

(** * Sample inputs *)

Module Examples.
Import Types Browser.

(** Three picked files, the second of 10 MiB and one byte. *)
Definition picked : list File :=
  [ {| name := "a.png"; type := "image/png"; size := 2048; dataURL := Some "data:image/png;base64,AAAA" |};
    {| name := "b.jpg"; type := "image/jpeg"; size := 10485761; dataURL := Some "data:image/jpeg;base64,BBBB" |};
    {| name := "c.webp"; type := "image/webp"; size := 10485760; dataURL := Some "data:image/webp;base64,CCCC" |} ].

Definition sampleOptions : GenerationOptions :=
  {| aspectRatio := ratio_16_9; variations := two; negativePrompt := "blur" |}.

Definition samplePayload : RequestPayload :=
  {| prompt := "a lighthouse at dusk"; images := []; options := sampleOptions;
     responseType := image |}.

Definition sampleClient : GenAI.GoogleGenAI := {| GenAI.apiKey := Some "k-123" |}.

(** An answer holding one image. *)
Definition answerWith (data : string) : GenAI.GenerateContentResponse :=
  {| GenAI.candidates :=
       Some [ {| GenAI.content :=
                   {| GenAI.parts :=
                        [ {| GenAI.inlineData :=
                               Some {| GenAI.data := Some data;
                                       GenAI.blobMimeType := Some "image/png" |};
                             GenAI.partText := None |} ] |} |} ];
     GenAI.text := None |}.

(** A remote API that answers the [k]-th call with one image. *)
Definition sampleRemote : GenAI.Remote :=
  fun _ k _ =>
    {| GenAI.settledAt := k;
       GenAI.outcome := inr (answerWith ("img" +:+ Js.toString (N.of_nat k))) |}.

(** A remote API whose second call is refused. *)
Definition refusingRemote : GenAI.Remote :=
  fun _ k _ =>
    if (k =? 1)%nat then
      {| GenAI.settledAt := 0; GenAI.outcome := inl (Js.ErrorObj "quota exceeded") |}
    else
      {| GenAI.settledAt := k;
         GenAI.outcome := inr (answerWith ("img" +:+ Js.toString (N.of_nat k))) |}.

(** A picked file that can no longer be read. *)
Definition unreadable : File :=
  {| name := "gone.png"; type := "image/png"; size := 512; dataURL := None |}.


(** A page on a first visit, one object URL handed out. *)
Definition firstVisit : App.Page :=
  App.mount ∅ {| nextHandle := 1; live := {["blob:0"]} |}.

(** Wheel events with [deltaY] 100, -250, the most negative finite number,
    infinity, and -7. *)
Definition wheel : list spec_float :=
  [ S754_finite false 7036874417766400 (-46);
    S754_finite true 8796093022208000 (-45);
    S754_finite true 9007199254740991 971;
    S754_infinity false;
    S754_finite true 7881299347898368 (-50) ].

(** The page after a submission whose second remote call was refused. *)
Definition answered : App.Page :=
  (App.handleSubmit sampleClient refusingRemote "a red kite" [] sampleOptions
     1700000000000 2 firstVisit).1.

(** A page reloaded while a request was on its way: the user message is
    there, its bot message is not. *)
Definition orphaned : App.Page :=
  App.setMessages
    (fun _ => [App.userMessage "1700000000000" "a red kite" [] samplePayload])
    firstVisit.

(** A form with two valid files and their previews, and the object URLs
    that go with it. *)
Definition filled : ChatInput.State :=
  {| ChatInput.prompt := "  compare them ";
     ChatInput.files :=
       [ {| name := "a.png"; type := "image/png"; size := 2048;
            dataURL := Some "data:image/png;base64,AAAA" |};
         {| name := "c.webp"; type := "image/webp"; size := 10485760;
            dataURL := Some "data:image/webp;base64,CCCC" |} ];
     ChatInput.previewUrls := ["blob:0"; "blob:1"];
     ChatInput.options := sampleOptions |}.

Definition filledURLs : ObjectURLs :=
  {| nextHandle := 2; live := {[ "blob:0"; "blob:1" ]} |}.

(** A prompt of a no-break space, an ideographic space and a line
    separator, and an edit text that ends with an ideographic space. *)
Definition blankPrompt : string :=
  string_of_list_ascii
    (map ascii_of_N [194; 160; 227; 128; 128; 226; 128; 168]%N).

Definition paddedEdit : string :=
  "a red kite" +:+ string_of_list_ascii (map ascii_of_N [227; 128; 128]%N).

(** The page on which that form is being filled in. *)
Definition composing : App.Page := App.mount ∅ filledURLs.



(** A drag of the picture, with a turn of the wheel in between. *)
Definition drag : list ImageModal.Event :=
  [ ImageModal.mouseDown (S754_finite false 5 0) (S754_finite false 7 0);
    ImageModal.wheel (S754_finite true 8796093022208000 (-45));
    ImageModal.mouseMove (S754_finite false 9 0) (S754_finite false 4 0);
    ImageModal.mouseUp;
    ImageModal.mouseMove (S754_finite false 1 0) (S754_finite false 1 0) ].

End Examples.

(** * Properties *)

(** ** The model on small inputs *)

Section Samples.
Import Types Browser.

Example toString_timestamp : Js.toString 1700000000003 = "1700000000003".
Proof. reflexivity. Qed.

Example split_data_url :
  Js.split "," "data:image/png;base64,AAAA" = ["data:image/png;base64"; "AAAA"].
Proof. reflexivity. Qed.

Example trim_prompt : Js.trim "  a red kite " = "a red kite".
Proof. reflexivity. Qed.

Example max_file_size : Constants.MAX_FILE_SIZE_BYTES = 10485760%N.
Proof. reflexivity. Qed.

Example readFile_picked :
  App.filesToImageFiles Examples.picked
  = Js.resolved [ {| base64 := Some "AAAA"; mimeType := "image/png" |};
                  {| base64 := Some "BBBB"; mimeType := "image/jpeg" |};
                  {| base64 := Some "CCCC"; mimeType := "image/webp" |} ].
Proof. reflexivity. Qed.

Example full_prompt :
  GeminiService.fullPrompt Examples.samplePayload
  = "a lighthouse at dusk. Negative prompt: do not include blur".
Proof. reflexivity. Qed.

Example answered_messages :
  map (fun m => (id m, role m, error m)) (App.messages Examples.answered)
  = [("1700000000000", user, None);
     ("1700000000003", bot, Some "API Error: quota exceeded")].
Proof. reflexivity. Qed.

(** [1 - 100 * 0.1 * 0.1] is clamped to [0.5]. *)
Example handleWheel_down :
  ImageModal.handleWheel (S754_finite false 7036874417766400 (-46)) ImageModal.initialZoom
  = Number.lit_0_5.
Proof. reflexivity. Qed.

End Samples.

(** ** Decimal identifiers *)

Section ToString.
Import Js.

Lemma to_uint_not_nil (n : N) : N.to_uint n <> Nil.
Proof.
  destruct n as [|p]; simpl.
  - discriminate.
  - apply DecimalPos.Unsigned.to_uint_nonnil.
Qed.

Lemma toString_inj (n m : N) : toString n = toString m -> n = m.
Proof.
  unfold toString. intros E.
  apply DecimalN.Unsigned.to_uint_inj.
  pose proof (NilZero.usu _ (to_uint_not_nil n)) as Hn.
  pose proof (NilZero.usu _ (to_uint_not_nil m)) as Hm.
  rewrite E in Hn. congruence.
Qed.

Lemma toString_truthy (n : N) : truthy (toString n) = true.
Proof.
  unfold toString.
  pose proof (NilZero.usu _ (to_uint_not_nil n)) as H.
  destruct (NilZero.string_of_uint (N.to_uint n)); [discriminate H | reflexivity].
Qed.

Lemma truthy_nonempty (s : string) : truthy s = true <-> s <> "".
Proof. destruct s; simpl; split; congruence. Qed.

End ToString.

(** ** File intake *)

Section FileIntake.
Import Types Constants Browser ChatInput Spec.

Lemma includes_accepted (s : string) :
  includes ACCEPTED_IMAGE_TYPES s = true <-> s ∈ ACCEPTED_IMAGE_TYPES.
Proof.
  unfold includes. rewrite existsb_exists. split.
  - intros (x & Hx & E). apply String.eqb_eq in E. subst x.
    now apply list_elem_of_In.
  - intros H. exists s. split; [now apply list_elem_of_In | apply String.eqb_refl].
Qed.

Lemma scanFile_cases (acc : Scan) (f : File) :
  newFiles (scanFile acc f) = newFiles acc ++ filter validFile [f]
  /\ alerts (scanFile acc f) = alerts acc ++ rejection f.
Proof.
  unfold scanFile, rejection.
  change ["image/jpeg"; "image/png"; "image/webp"] with ACCEPTED_IMAGE_TYPES.
  change (10 * 1024 * 1024)%N with MAX_FILE_SIZE_BYTES.
  destruct (includes ACCEPTED_IMAGE_TYPES (type f)) eqn:Ht; simpl.
  - apply includes_accepted in Ht.
    destruct (decide (type f ∈ ACCEPTED_IMAGE_TYPES)) as [_|n]; [|contradiction].
    destruct (MAX_FILE_SIZE_BYTES <? size f)%N eqn:Hs.
    + apply N.ltb_lt in Hs. simpl.
      destruct (decide (size f <= MAX_FILE_SIZE_BYTES)%N) as [Hle|_]; [lia|].
      rewrite filter_cons_False, filter_nil, app_nil_r; [done|].
      unfold validFile. change (10 * 1024 * 1024)%N with MAX_FILE_SIZE_BYTES. lia.
    + apply N.ltb_ge in Hs.
      destruct (decide (size f <= MAX_FILE_SIZE_BYTES)%N) as [_|Hn]; [|lia].
      destruct (createObjectURL f (urls acc)) as [url u]. simpl.
      rewrite filter_cons_True, filter_nil, app_nil_r; [done|].
      split; [exact Ht | exact Hs].
  - destruct (decide (type f ∈ ACCEPTED_IMAGE_TYPES)) as [Hin|_].
    + apply includes_accepted in Hin. congruence.
    + rewrite filter_cons_False, filter_nil, app_nil_r; [done|].
      intros [Hin _]. apply includes_accepted in Hin. congruence.
Qed.

Lemma scan_from (selected : list File) (acc : Scan) :
  newFiles (fold_left scanFile selected acc)
    = newFiles acc ++ filter validFile selected
  /\ alerts (fold_left scanFile selected acc)
    = alerts acc ++ flat_map rejection selected.
Proof.
  revert acc. induction selected as [|f rest IH]; intros acc; simpl.
  - now rewrite !app_nil_r.
  - destruct (IH (scanFile acc f)) as [Hf Ha].
    destruct (scanFile_cases acc f) as [Hf1 Ha1].
    rewrite Hf, Ha, Hf1, Ha1, <- !app_assoc. split; [|done].
    f_equal. change (f :: rest) with ([f] ++ rest). now rewrite filter_app.
Qed.

End FileIntake.

Section FileIntakeClaim.
Import Types Constants Browser ChatInput Spec Examples.

Lemma rejection_valid (f : File) : validFile f -> rejection f = [].
Proof.
  intros [Ht Hs]. unfold rejection.
  destruct (decide _) as [_|n]; [|contradiction].
  destruct (decide _) as [_|n]; [reflexivity|contradiction].
Qed.

Lemma rejection_invalid (f : File) :
  ~ validFile f -> exists alert, rejection f = [alert].
Proof.
  intros Hn. unfold rejection.
  destruct (decide _) as [Ht|_]; [|eauto].
  destruct (decide _) as [Hs|_]; [|eauto].
  exfalso. apply Hn. split; assumption.
Qed.

Lemma rejection_shown (selected : list File) (f : File) (alert : string) :
  f ∈ selected -> rejection f = [alert] -> alert ∈ flat_map rejection selected.
Proof.
  intros Hin Hr. apply list_elem_of_In, in_flat_map.
  exists f. split; [now apply list_elem_of_In|].
  rewrite Hr. now left.
Qed.

(** C8.  [handleFilesChange] on a batch of selected files: the files of
    the component become the earlier ones followed by the valid files of
    the batch, in their order; every file whose media type is off the
    allow-list {jpeg, png, webp} or whose size exceeds 10 MiB (10485760
    bytes) is left out and reported by one alert of its own, in batch
    order; a batch of three files of which only the second is too large
    yields the first and the third, and the one alert of the second. *)
Theorem handleFilesChange_rejects_each_invalid_file
    (selected : list File) (st : State) (u : ObjectURLs) :
  let '(st', shown, _) := handleFilesChange (Some selected) st u in
  MAX_FILE_SIZE_BYTES = 10485760%N
  /\ files st' = files st ++ filter validFile selected
  /\ shown = flat_map rejection selected
  /\ (forall f, f ∈ selected -> ~ validFile f ->
        exists alert, rejection f = [alert] /\ alert ∈ shown)
  /\ (forall f, f ∈ selected -> validFile f -> rejection f = [] /\ f ∈ files st')
  /\ (forall f1 f2 f3,
        selected = [f1; f2; f3] ->
        validFile f1 -> validFile f3 ->
        type f2 ∈ ACCEPTED_IMAGE_TYPES -> (MAX_FILE_SIZE_BYTES < size f2)%N ->
        filter validFile selected = [f1; f3]
        /\ length (filter validFile selected) = 2
        /\ shown = [tooLargeAlert f2]).
Proof.
  unfold handleFilesChange, scanFiles.
  destruct (scan_from selected
              {| newFiles := []; newUrls := []; alerts := []; urls := u |})
    as [Hfiles Halerts].
  simpl in Hfiles, Halerts. simpl.
  rewrite Hfiles, Halerts.
  split; [reflexivity|]. split; [reflexivity|]. split; [reflexivity|].
  split; [|split].
  - intros f Hin Hbad. destruct (rejection_invalid f Hbad) as [alert Hr].
    exists alert. split; [exact Hr|]. eapply rejection_shown; eauto.
  - intros f Hin Hok. split; [now apply rejection_valid|].
    apply elem_of_app. right. apply list_elem_of_filter. now split.
  - intros f1 f2 f3 -> H1 H3 Ht2 Hs2.
    assert (Hbad : ~ validFile f2).
    { intros [_ Hle]. change (10 * 1024 * 1024)%N with MAX_FILE_SIZE_BYTES in Hle. lia. }
    assert (Hfilter : filter validFile [f1; f2; f3] = [f1; f3]).
    { rewrite filter_cons_True by exact H1.
      rewrite filter_cons_False by exact Hbad.
      rewrite filter_cons_True by exact H3. reflexivity. }
    rewrite Hfilter. split; [reflexivity|]. split; [reflexivity|].
    simpl. rewrite (rejection_valid f1 H1), (rejection_valid f3 H3). simpl.
    unfold rejection.
    destruct (decide _) as [_|n]; [|contradiction].
    destruct (decide _) as [Hle|_]; [|reflexivity].
    change (10 * 1024 * 1024)%N with MAX_FILE_SIZE_BYTES in Hle. lia.
Qed.

Lemma handleFilesChange_rejects_each_invalid_file_witness :
  length (filter validFile picked) = 2
  /\ (handleFilesChange (Some picked) initial
        {| nextHandle := 0; live := ∅ |}).1.2
     = ["File is too large: b.jpg. Maximum size is 10MB."].
Proof.
  pose proof (handleFilesChange_rejects_each_invalid_file picked initial
                {| nextHandle := 0; live := ∅ |}) as H.
  destruct (handleFilesChange (Some picked) initial {| nextHandle := 0; live := ∅ |})
    as [[st' shown] u'].
  destruct H as (_ & _ & _ & _ & _ & H3).
  destruct (H3 _ _ _ eq_refl) as (_ & Hlen & Hshown).
  - split; [apply list_elem_of_In; vm_compute; tauto | simpl; lia].
  - split; [apply list_elem_of_In; vm_compute; tauto | simpl; lia].
  - apply list_elem_of_In. vm_compute. tauto.
  - vm_compute. reflexivity.
  - split; [exact Hlen|]. simpl. rewrite Hshown. vm_compute. reflexivity.
Defined.

End FileIntakeClaim.

(** ** Generation client *)

Section PromiseAll.
Import GenAI.

Lemma all_resolved (replies : list Reply) (answers : list GenerateContentResponse) :
  Forall2 (fun r a => outcome r = inr a) replies answers ->
  Promise.all replies = Js.resolved answers.
Proof.
  intros H. unfold Promise.all.
  assert (Promise.firstRejection replies = None /\ Promise.fulfilled replies = answers)
    as [-> ->]; [|reflexivity].
  induction H as [|r a rs bs Hr _ [IH1 IH2]]; simpl; [done|].
  rewrite Hr, IH1, IH2. done.
Qed.

Lemma firstRejection_sound (replies : list Reply) (t : nat) (e : Js.Thrown) :
  Promise.firstRejection replies = Some (t, e) ->
  exists r, r ∈ replies /\ outcome r = inl e.
Proof.
  revert t e. induction replies as [|r rest IH]; intros t e; simpl; [discriminate|].
  destruct (outcome r) as [e0|v] eqn:Hr.
  - destruct (Promise.firstRejection rest) as [[t1 e1]|] eqn:Hrest.
    + destruct (settledAt r <=? t1)%nat; intros [= <- <-].
      * exists r. split; [left | exact Hr].
      * destruct (IH _ _ eq_refl) as (r1 & Hin & Ho).
        exists r1. split; [right; exact Hin | exact Ho].
    + intros [= <- <-]. exists r. split; [left | exact Hr].
  - intros H. destruct (IH _ _ H) as (r1 & Hin & Ho).
    exists r1. split; [right; exact Hin | exact Ho].
Qed.

Lemma firstRejection_none (replies : list Reply) :
  Promise.firstRejection replies = None ->
  forall r, r ∈ replies -> exists v, outcome r = inr v.
Proof.
  induction replies as [|r rest IH]; simpl; intros H r0 Hin; [inversion Hin|].
  destruct (outcome r) as [e0|v] eqn:Hr.
  - destruct (Promise.firstRejection rest) as [[t1 e1]|]; [|discriminate H].
    destruct (settledAt r <=? t1)%nat; discriminate H.
  - apply elem_of_cons in Hin as [->|Hin]; [eauto | now apply IH].
Qed.

Lemma all_rejected (replies : list Reply) (r0 : Reply) (e0 : Js.Thrown) :
  r0 ∈ replies -> outcome r0 = inl e0 ->
  exists r e, r ∈ replies /\ outcome r = inl e /\ Promise.all replies = Js.rejected e.
Proof.
  intros Hin Hout. unfold Promise.all.
  destruct (Promise.firstRejection replies) as [[t e]|] eqn:Hf.
  - destruct (firstRejection_sound _ _ _ Hf) as (r & Hr & Ho). eauto.
  - destruct (firstRejection_none _ Hf _ Hin) as [v Hv]. congruence.
Qed.

End PromiseAll.

Section GenerationClient.
Import Types GenAI GeminiService Spec.

(** The client of the module and the remote API it talks to. *)
Variables (ai : GoogleGenAI) (remote : Remote).

Lemma issued_calls (params : RequestPayload) :
  issued (callGeminiApi ai remote (complete params)) = calls params.
Proof.
  unfold callGeminiApi.
  destruct (Promise.all _) as [e|responses]; [reflexivity|].
  destruct (collect params responses); reflexivity.
Qed.

Lemma replies_of_answers
    (params : RequestPayload) (answers : list GenerateContentResponse) :
  succeed ai remote params answers ->
  Promise.all (imap (fun k call => remote ai k call) (calls params))
    = Js.resolved answers.
Proof.
  intros [Hlen Hk]. apply all_resolved.
  apply Forall2_same_length_lookup_2.
  - rewrite length_imap. unfold calls. now rewrite length_replicate.
  - intros i r a Hr Ha. rewrite list_lookup_imap in Hr.
    unfold calls in Hr.
    destruct (replicate _ _ !! i) as [c|] eqn:Hc; [|discriminate Hr].
    apply lookup_replicate in Hc as [-> _].
    injection Hr as <-. now apply Hk.
Qed.

Lemma length_flat_map_sum {A B : Type} (f : A -> list B) (l : list A) :
  length (flat_map f l) = sum_list (map (fun a => length (f a)) l).
Proof.
  induction l as [|a l IH]; simpl; [reflexivity|].
  now rewrite length_app, IH.
Qed.

(** C3.  [callGeminiApi] on a request payload issues the same call
    [variations] times in image mode and once in text mode.  When every
    call succeeds, image mode returns the images of all answers, call
    after call and part after part, as many as the answers hold together,
    and fails with the "API Error: No images were generated..." error
    when there is none; text mode returns the text of the first answer
    and fails with the "API Error: ...empty text response." error when
    that text is absent or empty. *)
Theorem callGeminiApi_fans_out_and_joins (params : RequestPayload) :
  let run := callGeminiApi ai remote (complete params) in
  issued run = replicate (fanOut params) (call params)
  /\ length (issued run) = fanOut params
  /\ (forall answers, succeed ai remote params answers ->
      match responseType params with
      | image =>
          let combined := flat_map responseImages answers in
          length combined = sum_list (map (fun a => length (responseImages a)) answers)
          /\ (combined <> [] ->
              returned run = Js.resolved {| images := Some combined; text := None |})
          /\ (combined = [] ->
              returned run = Js.rejected (Js.ErrorObj
                "API Error: No images were generated. The prompt may have been blocked or the response was empty."))
      | text_ =>
          exists first, answers = [first]
            /\ (forall t, GenAI.text first = Some t -> t <> "" ->
                returned run = Js.resolved {| images := None; text := Some t |})
            /\ (GenAI.text first = None \/ GenAI.text first = Some "" ->
                returned run = Js.rejected (Js.ErrorObj
                  "API Error: The model returned an empty text response."))
      end).
Proof.
  intros run. subst run. rewrite issued_calls.
  assert (Hn : variationCount params = fanOut params)
    by (unfold variationCount, fanOut; destruct (responseType params); reflexivity).
  split; [unfold calls; now rewrite Hn|].
  split; [unfold calls; now rewrite length_replicate|].
  intros answers Hok. pose proof (replies_of_answers params answers Hok) as Hall.
  unfold callGeminiApi. rewrite Hall. unfold Js.resolved.
  destruct Hok as [Hlen _]. unfold variationCount in Hlen.
  unfold collect. destruct (responseType params).
  - cbv zeta. split; [apply length_flat_map_sum|].
    destruct (flat_map responseImages answers) as [|img imgs]; simpl.
    + split; [congruence | reflexivity].
    + split; [reflexivity | discriminate].
  - destruct answers as [|first [|second more]]; try discriminate Hlen.
    exists first. split; [reflexivity|]. split.
    + intros t Ht Hne. rewrite Ht.
      apply truthy_nonempty in Hne. rewrite Hne. reflexivity.
    + intros [Hnone|Hempty]; [rewrite Hnone | rewrite Hempty]; reflexivity.
Qed.

(** C4.  When one of the remote calls of an invocation fails, and so in
    image mode when one of the [variations] calls fails, [callGeminiApi]
    returns no result at all: it rejects with an [Error] built from the
    rejection of a failed call, "API Error: " followed by the message of
    a thrown [Error], and the fixed message "An unknown error occurred
    while calling the API." for any other thrown value. *)
Theorem callGeminiApi_fails_when_a_call_fails
    (params : RequestPayload) (k : nat) (e : Js.Thrown) :
  k < fanOut params ->
  outcome (remote ai k (call params)) = inl e ->
  let run := callGeminiApi ai remote (complete params) in
  (forall result, returned run <> Js.resolved result)
  /\ exists j e',
       j < fanOut params
       /\ outcome (remote ai j (call params)) = inl e'
       /\ match e' with
          | Js.ErrorObj message =>
              returned run = Js.rejected (Js.ErrorObj ("API Error: " +:+ message))
          | Js.NonError _ =>
              returned run = Js.rejected (Js.ErrorObj
                "An unknown error occurred while calling the API.")
          end.
Proof.
  intros Hk He run.
  assert (Hn : variationCount params = fanOut params)
    by (unfold variationCount, fanOut; destruct (responseType params); reflexivity).
  set (replies := imap (fun k call => remote ai k call) (calls params)).
  assert (Hin : remote ai k (call params) ∈ replies).
  { apply list_elem_of_lookup. exists k. unfold replies, calls.
    rewrite list_lookup_imap, lookup_replicate_2 by lia. reflexivity. }
  destruct (all_rejected replies _ _ Hin He) as (r & e' & Hr & Ho & Hall).
  apply list_elem_of_lookup in Hr as [j Hj].
  unfold replies, calls in Hj. rewrite list_lookup_imap in Hj.
  destruct (replicate _ _ !! j) as [c|] eqn:Hc; [|discriminate Hj].
  apply lookup_replicate in Hc as [-> Hlt]. injection Hj as <-.
  assert (Hret : returned run = Js.rejected (rewrap e')).
  { subst run. unfold callGeminiApi. fold replies. rewrite Hall. reflexivity. }
  split.
  - intros result. rewrite Hret. discriminate.
  - exists j, e'. split; [lia|]. split; [exact Ho|].
    rewrite Hret. destruct e'; reflexivity.
Qed.

End GenerationClient.

Section GenerationClientSamples.
Import Types GenAI GeminiService Spec.

Lemma callGeminiApi_fans_out_and_joins_witness :
  returned (callGeminiApi Examples.sampleClient Examples.sampleRemote
              (complete Examples.samplePayload))
  = Js.resolved {| images := Some ["img0"; "img1"]; text := None |}.
Proof.
  pose proof (callGeminiApi_fans_out_and_joins Examples.sampleClient
                Examples.sampleRemote Examples.samplePayload) as (_ & _ & H).
  assert (Hs : succeed Examples.sampleClient Examples.sampleRemote Examples.samplePayload
                 [Examples.answerWith "img0"; Examples.answerWith "img1"]).
  { split; [reflexivity|].
    intros [|[|k]] answer Hk; cbn in Hk; [| |discriminate Hk];
      injection Hk as <-; reflexivity. }
  specialize (H _ Hs).
  change (responseType Examples.samplePayload) with image in H.
  cbv beta iota zeta in H. destruct H as (_ & H & _).
  rewrite H; [reflexivity|]. intros E. vm_compute in E. discriminate E.
Defined.

Lemma callGeminiApi_fails_when_a_call_fails_witness :
  returned (callGeminiApi Examples.sampleClient Examples.refusingRemote
              (complete Examples.samplePayload))
  = Js.rejected (Js.ErrorObj "API Error: quota exceeded").
Proof.
  destruct (callGeminiApi_fails_when_a_call_fails Examples.sampleClient
              Examples.refusingRemote Examples.samplePayload 1
              (Js.ErrorObj "quota exceeded")) as (_ & j & e' & Hj & Ho & Hret).
  - cbv. lia.
  - reflexivity.
  - cbv in Hj. destruct j as [|[|j]]; [discriminate Ho | | lia].
    injection Ho as <-. exact Hret.
Defined.

End GenerationClientSamples.

Section ModuleLoad.
Import Types GenAI GeminiService Spec.

(** C10.  With [API_KEY] unset (or empty) the body of the service module
    throws the error "API_KEY environment variable is not set" and no
    call can be made through it; whenever a call is made, the module was
    loaded with a non-empty key, which the client holds. *)
Theorem loadModule_requires_api_key (env : gmap string string) :
  (env !! "API_KEY" = None \/ env !! "API_KEY" = Some "" ->
     loadModule env = inl (Js.ErrorObj "API_KEY environment variable is not set")
     /\ forall remote params,
          importAndCall env remote params
          = inl (Js.ErrorObj "API_KEY environment variable is not set"))
  /\ (forall remote params run,
        importAndCall env remote params = inr run ->
        exists key,
          env !! "API_KEY" = Some key /\ key <> ""
          /\ loadModule env = inr {| apiKey := Some key |}
          /\ run = callGeminiApi {| apiKey := Some key |} remote params).
Proof.
  unfold importAndCall, loadModule. split.
  - intros [-> | ->]; simpl; split; reflexivity.
  - intros remote params run.
    destruct (env !! "API_KEY") as [key|] eqn:Hkey; simpl; [|discriminate].
    destruct (Js.truthy key) eqn:Ht; simpl; [|discriminate].
    intros [= <-]. exists key.
    repeat split. now apply truthy_nonempty.
Qed.

Lemma loadModule_requires_api_key_witness :
  loadModule ∅ = inl (Js.ErrorObj "API_KEY environment variable is not set")
  /\ exists key, ({[ "API_KEY" := "k-123" ]} : gmap string string) !! "API_KEY" = Some key
                /\ key <> "".
Proof.
  split.
  - apply (loadModule_requires_api_key ∅). left. apply lookup_empty.
  - destruct (loadModule_requires_api_key {[ "API_KEY" := "k-123" ]})
      as [_ H].
    destruct (H Examples.sampleRemote (complete Examples.samplePayload) _ eq_refl)
      as (key & Hk & Hne & _).
    exists key. split; assumption.
Defined.

End ModuleLoad.

(** ** Conversation store *)

Section Store.
Import Types Browser App Spec.

Lemma loading_spec (m : ChatMessage) : loading m = false <-> notLoading m.
Proof.
  unfold loading, notLoading.
  destruct (Types.isLoading m) as [[|]|]; split; congruence.
Qed.

Lemma withoutLoading_filter (l : list ChatMessage) :
  withoutLoading l = filter notLoading l.
Proof.
  unfold withoutLoading. induction l as [|m l IH]; simpl; [reflexivity|].
  destruct (loading m) eqn:Hm; simpl.
  - rewrite filter_cons_False; [exact IH|].
    intros Hn. apply loading_spec in Hn. congruence.
  - rewrite filter_cons_True by now apply loading_spec. now rewrite IH.
Qed.

Lemma withoutLoading_notLoading (l : list ChatMessage) :
  Forall notLoading (withoutLoading l).
Proof.
  rewrite withoutLoading_filter. apply Forall_forall.
  intros m Hm. now apply list_elem_of_filter in Hm as [Hm _].
Qed.

Lemma length_replaceById (target : string) (r : ChatMessage) (l : list ChatMessage) :
  length (replaceById target r l) = length l.
Proof. unfold replaceById. apply length_map. Qed.

Lemma ids_replaceById (target : string) (r : ChatMessage) (l : list ChatMessage) :
  id r = target -> map id (replaceById target r l) = map id l.
Proof.
  intros Hr. unfold replaceById. rewrite map_map. apply map_ext.
  intros m. destruct (String.eqb_spec (id m) target); congruence.
Qed.

Lemma lookup_map {A B : Type} (f : A -> B) (l : list A) (i : nat) :
  map f l !! i = f <$> l !! i.
Proof.
  revert i. induction l as [|a l IH]; intros [|i]; simpl; try reflexivity. apply IH.
Qed.

Lemma lookup_replaceById (target : string) (r : ChatMessage)
    (l : list ChatMessage) (i : nat) :
  replaceById target r l !! i
  = (fun m => if String.eqb (id m) target then r else m) <$> l !! i.
Proof. unfold replaceById. apply lookup_map. Qed.




End Store.

Section Persistence.
Import Types Browser App Spec.

(** C6.  After any change of the messages, the save effect leaves under
    the key ["chatHistory"] the messages that are not loading, in their
    order, and removes the key when none is left: what is stored is never
    an empty list, never holds a loading message, and no other key is
    touched.  A page that mounts on this storage, and indeed on any
    storage, starts with no loading message. *)
Theorem saveEffect_never_persists_loading
    (update : list ChatMessage -> list ChatMessage) (p : Page) :
  let p' := saveEffect (setMessages update p) in
  let kept := filter notLoading (update (messages p)) in
  messages p' = update (messages p)
  /\ (kept <> [] -> localStorage p' !! "chatHistory" = Some (json kept))
  /\ (kept = [] -> localStorage p' !! "chatHistory" = None)
  /\ (forall saved, localStorage p' !! "chatHistory" = Some (json saved) ->
        saved <> [] /\ Forall notLoading saved)
  /\ (forall raw, localStorage p' !! "chatHistory" <> Some (otherText raw))
  /\ (forall key, key <> "chatHistory" ->
        localStorage p' !! key = localStorage p !! key)
  /\ (forall u, messages (loadEffect (mount (localStorage p') u)) = kept)
  /\ (forall storage u, Forall notLoading (messages (loadEffect (mount storage u)))).
Proof.
  intros p' kept. subst p' kept. unfold saveEffect.
  rewrite <- withoutLoading_filter.
  change (messages (setMessages update p)) with (update (messages p)).
  set (kept := withoutLoading (update (messages p))).
  assert (Hkept : Forall notLoading kept) by apply withoutLoading_notLoading.
  assert (Hidem : withoutLoading kept = kept).
  { rewrite withoutLoading_filter. clear -Hkept.
    induction Hkept as [|m l Hm _ IH]; [reflexivity|].
    rewrite filter_cons_True by exact Hm. now rewrite IH. }
  assert (Hany : forall storage u,
             Forall notLoading (messages (loadEffect (mount storage u)))).
  { intros storage u. unfold loadEffect. simpl.
    destruct (storage !! "chatHistory") as [[saved|raw]|]; simpl.
    - apply withoutLoading_notLoading.
    - destruct (Js.truthy raw); simpl; constructor.
    - constructor. }
  destruct kept as [|m kept'] eqn:Ek; simpl.
  - split; [reflexivity|]. split; [congruence|].
    split; [intros _; apply lookup_delete_eq|].
    split; [intros saved; rewrite lookup_delete_eq; discriminate|].
    split; [intros raw; rewrite lookup_delete_eq; discriminate|].
    split; [intros key Hkey; now apply lookup_delete_ne|].
    split; [|exact Hany].
    intros u. unfold loadEffect. simpl. now rewrite lookup_delete_eq.
  - split; [reflexivity|].
    split; [intros _; apply lookup_insert_eq|].
    split; [congruence|].
    split; [intros saved; rewrite lookup_insert_eq; intros [= <-];
            split; [discriminate | exact Hkept]|].
    split; [intros raw; rewrite lookup_insert_eq; discriminate|].
    split; [intros key Hkey; now apply lookup_insert_ne|].
    split; [|exact Hany].
    intros u. unfold loadEffect. simpl. rewrite lookup_insert_eq. simpl.
    exact Hidem.
Qed.

Lemma saveEffect_never_persists_loading_witness :
  localStorage
    (saveEffect
       (setMessages
          (fun prev => prev ++ [errorBotMessage "8" "7" "API Error: refused";
                                loadingBotMessage "10" "9"])
          (mount ∅ {| nextHandle := 0; live := ∅ |})))
    !! "chatHistory"
  = Some (json [errorBotMessage "8" "7" "API Error: refused"])
  /\ localStorage
       (saveEffect
          (setMessages (fun prev => prev ++ [loadingBotMessage "10" "9"])
             (mount ∅ {| nextHandle := 0; live := ∅ |})))
       !! "chatHistory"
     = None.
Proof.
  split.
  - destruct (saveEffect_never_persists_loading
                (fun prev => prev ++ [errorBotMessage "8" "7" "API Error: refused";
                                      loadingBotMessage "10" "9"])
                (mount ∅ {| nextHandle := 0; live := ∅ |})) as (_ & H & _).
    rewrite H; [reflexivity|]. intros E. vm_compute in E. discriminate E.
  - destruct (saveEffect_never_persists_loading
                (fun prev => prev ++ [loadingBotMessage "10" "9"])
                (mount ∅ {| nextHandle := 0; live := ∅ |})) as (_ & _ & H & _).
    apply H. reflexivity.
Defined.

End Persistence.

(** ** Submission *)

Section Submission.
Import Types Browser App Spec.
Import GeminiService(callGeminiApi, returned, images, text).

Lemma filesToImageFiles_readable (files : list File) :
  Forall readable files ->
  exists imageFiles,
    filesToImageFiles files = Js.resolved imageFiles
    /\ length imageFiles = length files.
Proof.
  induction 1 as [|f rest [d Hd] _ (imgs & IH & Hlen)]; simpl.
  - exists []. split; reflexivity.
  - unfold readFile. rewrite Hd, IH. simpl. eexists. split; [reflexivity|].
    simpl. now rewrite Hlen.
Qed.

Lemma filesToImageFiles_length (files : list File) (imageFiles : list ImageFile) :
  filesToImageFiles files = Js.resolved imageFiles ->
  length imageFiles = length files.
Proof.
  revert imageFiles. induction files as [|f rest IH]; simpl; intros imgs.
  - intros [= <-]. reflexivity.
  - destruct (readFile f) as [e|img]; [discriminate|].
    destruct (filesToImageFiles rest) as [e|imgs']; [discriminate|].
    intros [= <-]. simpl. f_equal. now apply IH.
Qed.

Lemma callGeminiApi_returned_shape
    (ai : GenAI.GoogleGenAI) (remote : GenAI.Remote) (payload : PayloadObject) :
  match returned (callGeminiApi ai remote payload) with
  | inr result =>
      (exists imgs, images result = Some imgs /\ imgs <> [] /\ text result = None)
      \/ (exists t, text result = Some t /\ t <> "" /\ images result = None)
  | inl e => exists message, e = Js.ErrorObj message /\ message <> ""
  end.
Proof.
  assert (Hre : forall e, exists message,
             GeminiService.rewrap e = Js.ErrorObj message /\ message <> "").
  { intros [m|s]; simpl; eexists; (split; [reflexivity | discriminate]). }
  unfold callGeminiApi. destruct payload as [params|newPrompt]; simpl.
  - destruct (Promise.all _) as [e|responses]; simpl; [apply Hre|].
    destruct (GeminiService.collect params responses) as [e|result] eqn:Hc;
      simpl; [apply Hre|].
    unfold GeminiService.collect in Hc.
    destruct (responseType params).
    + destruct (flat_map _ responses) as [|img imgs] eqn:Hi; simpl in Hc;
        [discriminate Hc|].
      injection Hc as <-. left. eexists. simpl. repeat split. discriminate.
    + destruct responses as [|first more]; [discriminate Hc|].
      destruct (GenAI.text first) as [t|]; [|discriminate Hc].
      destruct (Js.truthy t) eqn:Ht; [|discriminate Hc].
      injection Hc as <-. right. exists t. simpl. repeat split.
      now apply truthy_nonempty.
  - eexists. split; [reflexivity | discriminate].
Qed.

Lemma terminalBotMessage_terminal
    (ai : GenAI.GoogleGenAI) (remote : GenAI.Remote) (payload : PayloadObject)
    (botId userId : string) :
  terminal (terminalBotMessage botId userId (returned (callGeminiApi ai remote payload))).
Proof.
  pose proof (callGeminiApi_returned_shape ai remote payload) as H.
  destruct (returned (callGeminiApi ai remote payload)) as [e|result]; simpl.
  - destruct H as (message & -> & Hne). right.
    unfold failure, notLoading. simpl. repeat split; [discriminate | eauto].
  - left. unfold success, notLoading. simpl.
    split; [discriminate|]. split; [reflexivity|].
    destruct H as [(imgs & Hi & Hne & _) | (t & Ht & Hne & _)]; [left | right]; eauto.
Qed.

Lemma terminalBotMessage_fields (botId userId : string)
    (settled : Js.Settled GeminiService.Result) :
  id (terminalBotMessage botId userId settled) = botId
  /\ role (terminalBotMessage botId userId settled) = bot
  /\ userMessageId (terminalBotMessage botId userId settled) = Some userId
  /\ notLoading (terminalBotMessage botId userId settled).
Proof.
  unfold notLoading. destruct settled as [[m|s]|r]; simpl; repeat split; discriminate.
Qed.

Lemma handleSubmit_begin_resolved
    (ai : GenAI.GoogleGenAI) (remote : GenAI.Remote)
    (prompt : string) (files : list File) (options : GenerationOptions)
    (now elapsed : N) (p : Page) (requestPayload : RequestPayload) :
  submitPayload prompt files options = Js.resolved requestPayload ->
  exists p',
    handleSubmit_begin ai remote prompt files options now elapsed p
    = (p', Js.resolved
             {| pendingPayload := complete requestPayload;
                pendingUserMessageId := Js.toString now;
                botMessageId := Js.toString (now + elapsed + 1) |})
    /\ messages p'
       = messages p
         ++ [userMessage (Js.toString now) prompt
               (createObjectURLs files (objectURLs p)).1 requestPayload;
             loadingBotMessage (Js.toString (now + elapsed + 1)) (Js.toString now)]
    /\ network p'
       = network p ++ GeminiService.issued (callGeminiApi ai remote (complete requestPayload)).
Proof.
  intros Hp. unfold handleSubmit_begin.
  destruct (createObjectURLs files (objectURLs p)) as [urls u].
  rewrite Hp. unfold Js.resolved. simpl.
  eexists. split; [reflexivity|]. simpl.
  rewrite <- app_assoc. split; reflexivity.
Qed.

Lemma handleSubmit_begin_rejected
    (ai : GenAI.GoogleGenAI) (remote : GenAI.Remote)
    (prompt : string) (files : list File) (options : GenerationOptions)
    (now elapsed : N) (p : Page) (e : Js.Thrown) :
  submitPayload prompt files options = Js.rejected e ->
  exists p',
    handleSubmit_begin ai remote prompt files options now elapsed p
    = (p', Js.rejected e)
    /\ messages p' = messages p /\ network p' = network p.
Proof.
  intros Hp. unfold handleSubmit_begin.
  destruct (createObjectURLs files (objectURLs p)) as [urls u].
  rewrite Hp. unfold Js.rejected. simpl.
  eexists. split; [reflexivity|]. split; reflexivity.
Qed.

(** C5.  The payload [handleSubmit] builds, stores in the user message and
    hands to the generation client has the response type [text] exactly
    when more than one file is attached, and [image] when none or one is;
    it is built whenever the attached files can be read. *)
Theorem handleSubmit_derives_responseType
    (ai : GenAI.GoogleGenAI) (remote : GenAI.Remote)
    (prompt : string) (files : list File) (options : GenerationOptions)
    (now elapsed : N) (p : Page) :
  (Forall readable files ->
     exists p' pending,
       handleSubmit_begin ai remote prompt files options now elapsed p
       = (p', Js.resolved pending))
  /\ (forall p' pending,
        handleSubmit_begin ai remote prompt files options now elapsed p
        = (p', Js.resolved pending) ->
        exists requestPayload userEntry,
          pendingPayload pending = complete requestPayload
          /\ userEntry ∈ messages p'
          /\ role userEntry = user
          /\ Types.requestPayload userEntry = Some (complete requestPayload)
          /\ (responseType requestPayload = text_ <-> 1 < length files)
          /\ (responseType requestPayload = image <-> length files <= 1)
          /\ length (Types.images requestPayload) = length files).
Proof.
  split.
  - intros Hr. destruct (filesToImageFiles_readable files Hr) as (imgs & Hi & _).
    edestruct (handleSubmit_begin_resolved ai remote prompt files options now elapsed p)
      as (p' & Hb & _).
    { unfold submitPayload. rewrite Hi. reflexivity. }
    eauto.
  - intros p' pending Hb.
    destruct (submitPayload prompt files options) as [e|rp] eqn:Hs.
    + destruct (handleSubmit_begin_rejected ai remote prompt files options now
                  elapsed p e Hs) as (q & Hq & _).
      rewrite Hq in Hb. discriminate Hb.
    + destruct (handleSubmit_begin_resolved ai remote prompt files options now
                  elapsed p rp Hs) as (q & Hq & Hm & _).
      rewrite Hq in Hb. injection Hb as <- <-.
      eexists rp, _. split; [reflexivity|].
      split; [rewrite Hm; apply elem_of_app; right; left|].
      split; [reflexivity|]. split; [reflexivity|].
      unfold submitPayload in Hs.
      destruct (filesToImageFiles files) as [e|imgs] eqn:Hi; [discriminate Hs|].
      injection Hs as <-. simpl.
      apply filesToImageFiles_length in Hi.
      destruct (1 <? length files)%nat eqn:Hlt.
      * apply Nat.ltb_lt in Hlt. repeat split; try lia; try discriminate; auto.
      * apply Nat.ltb_ge in Hlt. repeat split; try lia; try discriminate; auto.
Qed.

Lemma handleSubmit_derives_responseType_witness :
  exists p' pending,
    handleSubmit_begin Examples.sampleClient Examples.sampleRemote "compare them"
      Examples.picked Examples.sampleOptions 1700000000000 2
      (mount ∅ {| nextHandle := 0; live := ∅ |})
    = (p', Js.resolved pending)
    /\ exists requestPayload,
         pendingPayload pending = complete requestPayload
         /\ responseType requestPayload = text_.
Proof.
  pose proof (handleSubmit_derives_responseType Examples.sampleClient
                Examples.sampleRemote "compare them" Examples.picked
                Examples.sampleOptions 1700000000000 2
                (mount ∅ {| nextHandle := 0; live := ∅ |})) as [H1 H2].
  destruct H1 as (p' & pending & Hb).
  { repeat constructor; eexists; reflexivity. }
  exists p', pending. split; [exact Hb|].
  destruct (H2 p' pending Hb) as (rp & _ & Hp & _ & _ & _ & Ht & _).
  exists rp. split; [exact Hp|]. apply Ht. cbv. lia.
Defined.

Lemma settleNow_messages
    (ai : GenAI.GoogleGenAI) (remote : GenAI.Remote) (pending : Pending) (q : Page) :
  messages (settleNow ai remote pending q)
  = replaceById (botMessageId pending)
      (terminalBotMessage (botMessageId pending) (pendingUserMessageId pending)
         (returned (callGeminiApi ai remote (pendingPayload pending))))
      (messages q).
Proof. reflexivity. Qed.





End Submission.

(** ** Image viewer *)

Section Binary64.

(** Rounding never yields NaN: the mantissa stays non-negative through the
    right shifts and the rounding to nearest even. *)
Lemma shr_1_nonneg (mrs : shr_record) :
  (0 <= shr_m mrs)%Z -> (0 <= shr_m (shr_1 mrs))%Z.
Proof.
  destruct mrs as [m r s]. simpl. destruct m as [|[p|p|]|p]; simpl; lia.
Qed.

Lemma iter_shr_1_nonneg (p : positive) (mrs : shr_record) :
  (0 <= shr_m mrs)%Z -> (0 <= shr_m (SpecFloat.iter_pos shr_1 p mrs))%Z.
Proof.
  revert mrs. induction p as [p IH|p IH|]; intros mrs H; simpl.
  - apply IH, IH, shr_1_nonneg, H.
  - apply IH, IH, H.
  - apply shr_1_nonneg, H.
Qed.

Lemma shr_fexp_nonneg (prec emax m e : Z) (l : location) :
  (0 <= m)%Z -> (0 <= shr_m (shr_fexp prec emax m e l).1)%Z.
Proof.
  intros Hm. unfold shr_fexp, shr.
  assert (H0 : (0 <= shr_m (shr_record_of_loc m l))%Z)
    by (destruct l as [|[ | | ]]; exact Hm).
  destruct (fexp prec emax (Zdigits2 m + e) - e)%Z; simpl; try exact H0.
  now apply iter_shr_1_nonneg.
Qed.

Lemma round_nearest_even_nonneg (m : Z) (l : location) :
  (0 <= m)%Z -> (0 <= round_nearest_even m l)%Z.
Proof.
  intros Hm. destruct l as [|[ | | ]]; simpl; try lia.
  destruct (Z.even m); lia.
Qed.

Lemma binary_round_aux_not_nan (prec emax : Z) (sx : bool) (mx ex : Z) (lx : location) :
  (0 <= mx)%Z -> binary_round_aux prec emax sx mx ex lx <> S754_nan.
Proof.
  intros Hm. unfold binary_round_aux.
  pose proof (shr_fexp_nonneg prec emax mx ex lx Hm) as H1.
  destruct (shr_fexp prec emax mx ex lx) as [mrs' e']. simpl in H1.
  pose proof (shr_fexp_nonneg prec emax
                (round_nearest_even (shr_m mrs') (loc_of_shr_record mrs')) e' loc_Exact
                (round_nearest_even_nonneg _ _ H1)) as H2.
  destruct (shr_fexp prec emax _ e' loc_Exact) as [mrs'' e'']. simpl in H2.
  destruct (shr_m mrs'') as [|m|m]; [discriminate | | lia].
  destruct (e'' <=? emax - prec)%Z; discriminate.
Qed.

Lemma binary_normalize_not_nan (prec emax m e : Z) (szero : bool) :
  binary_normalize prec emax m e szero <> S754_nan.
Proof.
  unfold binary_normalize, binary_round.
  destruct m as [|m|m]; [discriminate | |];
    destruct (shl_align _ _ _) as [mz ez];
    apply binary_round_aux_not_nan; lia.
Qed.

(** A number times a finite number is a number. *)
Lemma mul_finite_not_nan (x : spec_float) (s : bool) (m : positive) (e : Z) :
  Number.isNaN x = false ->
  Number.isNaN (Number.mul x (S754_finite s m e)) = false.
Proof.
  intros Hx. unfold Number.mul.
  destruct x as [sx|sx| |sx mx ex]; simpl; try reflexivity; [discriminate Hx|].
  pose proof (binary_round_aux_not_nan Number.prec Number.emax (xorb sx s)
                (Z.pos (mx * m)) (ex + e) loc_Exact) as H.
  destruct (binary_round_aux _ _ _ _ _ _); try reflexivity.
  exfalso. apply H; [lia | reflexivity].
Qed.

(** A finite number minus a number is a number. *)
Lemma finite_sub_not_nan (s : bool) (m : positive) (e : Z) (y : spec_float) :
  Number.isNaN y = false ->
  Number.isNaN (Number.sub (S754_finite s m e) y) = false.
Proof.
  intros Hy. unfold Number.sub.
  destruct y as [sy|sy| |sy my ey]; simpl; try reflexivity; [discriminate Hy|].
  match goal with
  | |- Number.isNaN (binary_normalize ?p ?x ?a ?b ?c) = false =>
      pose proof (binary_normalize_not_nan p x a b c) as H;
      destruct (binary_normalize p x a b c); try reflexivity
  end.
  exfalso. now apply H.
Qed.

Lemma SFcompare_swap (x y : spec_float) :
  SFcompare y x = option_map CompOpp (SFcompare x y).
Proof.
  destruct x as [sx|sx| |sx mx ex], y as [sy|sy| |sy my ey]; simpl;
    try destruct sx; try destruct sy; simpl; try reflexivity.
  - rewrite (Z.compare_antisym ex ey). destruct (ex ?= ey)%Z; simpl; try reflexivity.
    rewrite !Pos.compare_cont_spec. simpl. rewrite (Pos.compare_antisym mx my).
    now destruct (mx ?= my)%positive.
  - rewrite (Z.compare_antisym ex ey). destruct (ex ?= ey)%Z; simpl; try reflexivity.
    rewrite !Pos.compare_cont_spec. simpl. rewrite (Pos.compare_antisym mx my).
    now destruct (mx ?= my)%positive.
Qed.

Lemma SFcompare_number (x y : spec_float) :
  Number.isNaN x = false -> Number.isNaN y = false ->
  exists c, SFcompare x y = Some c.
Proof.
  destruct x, y; simpl; intros Hx Hy; try discriminate; eauto.
Qed.

(** [Math.min] and [Math.max] of two numbers return one of them, the
    other one being no smaller, respectively no larger. *)
Lemma min_cases (a b : spec_float) :
  Number.isNaN a = false -> Number.isNaN b = false ->
  (Number.min a b = a /\ SFleb a b = true)
  \/ (Number.min a b = b /\ SFleb b a = true).
Proof.
  intros Ha Hb. unfold Number.min. rewrite Ha, Hb. cbn [orb].
  unfold SFltb, SFleb. rewrite (SFcompare_swap a b).
  destruct (SFcompare_number a b Ha Hb) as [c Hc]. rewrite Hc.
  destruct c; cbn [option_map CompOpp].
  - clear Hc.
    destruct a as [[|]| | |], b as [[|]| | |];
      ((left; split; reflexivity) || (right; split; reflexivity)).
  - left. split; reflexivity.
  - right. split; reflexivity.
Qed.

Lemma max_cases (a b : spec_float) :
  Number.isNaN a = false -> Number.isNaN b = false ->
  (Number.max a b = a /\ SFleb b a = true)
  \/ (Number.max a b = b /\ SFleb a b = true).
Proof.
  intros Ha Hb. unfold Number.max. rewrite Ha, Hb. cbn [orb].
  unfold SFltb, SFleb. rewrite (SFcompare_swap a b).
  destruct (SFcompare_number a b Ha Hb) as [c Hc]. rewrite Hc.
  destruct c; cbn [option_map CompOpp].
  - clear Hc.
    destruct a as [[|]| | |], b as [[|]| | |];
      ((left; split; reflexivity) || (right; split; reflexivity)).
  - right. split; reflexivity.
  - left. split; reflexivity.
Qed.

(** [Math.min(x, 5)] is a number at most [5]. *)
Lemma min_5 (x : spec_float) :
  Number.isNaN x = false ->
  Number.isNaN (Number.min x Number.lit_5) = false
  /\ Number.leb (Number.min x Number.lit_5) Number.lit_5 = true.
Proof.
  intros Hx. unfold Number.leb.
  destruct (min_cases x Number.lit_5 Hx eq_refl) as [[-> H]|[-> _]].
  - split; assumption.
  - split; reflexivity.
Qed.

(** [Math.max(0.5, y)] for a number [y] at most [5] lies between [0.5]
    and [5]. *)
Lemma max_0_5 (y : spec_float) :
  Number.isNaN y = false ->
  Number.leb y Number.lit_5 = true ->
  ImageModal.clamped (Number.max Number.lit_0_5 y).
Proof.
  intros Hy Hle. unfold ImageModal.clamped, Number.leb in *.
  destruct (max_cases Number.lit_0_5 y eq_refl Hy) as [[-> _]|[-> H]].
  - split; reflexivity.
  - split; assumption.
Qed.

(** A zoom between [0.5] and [5] is a finite number. *)
Lemma clamped_finite (zoom : spec_float) :
  ImageModal.clamped zoom -> exists m e, zoom = S754_finite false m e.
Proof.
  intros [Hlo Hhi]. unfold Number.leb in *.
  destruct zoom as [s|s| |s m e]; try discriminate Hlo.
  - destruct s; discriminate.
  - destruct s; [discriminate Hlo | eauto].
Qed.

End Binary64.

Section Zoom.
Import ImageModal.

Lemma handleWheel_clamped (deltaY prevZoom : spec_float) :
  Number.isNaN deltaY = false ->
  clamped prevZoom ->
  clamped (handleWheel deltaY prevZoom).
Proof.
  intros Hd Hz. destruct (clamped_finite prevZoom Hz) as (m & e & ->).
  unfold handleWheel.
  set (newZoom := Number.sub _ _).
  assert (Hn : Number.isNaN newZoom = false).
  { apply finite_sub_not_nan. unfold Number.lit_0_1.
    apply mul_finite_not_nan, mul_finite_not_nan, Hd. }
  destruct (min_5 newZoom Hn) as [Hm Hle].
  now apply max_0_5.
Qed.

Lemma initialZoom_clamped : clamped initialZoom.
Proof. split; reflexivity. Qed.

Lemma zooms_clamped (deltas : list spec_float) (zoom : spec_float) :
  Forall (fun deltaY => Number.isNaN deltaY = false) deltas ->
  clamped zoom ->
  Forall clamped (zooms deltas zoom).
Proof.
  intros Hd. revert zoom. induction Hd as [|d deltas Hd _ IH]; intros zoom Hz; simpl.
  - constructor.
  - pose proof (handleWheel_clamped d zoom Hd Hz) as H.
    constructor; [exact H | now apply IH].
Qed.

Lemma length_zooms (deltas : list spec_float) (zoom : spec_float) :
  length (zooms deltas zoom) = length deltas.
Proof.
  revert zoom. induction deltas as [|d deltas IH]; intros zoom; simpl;
    [reflexivity | now rewrite IH].
Qed.

(** C9.  Starting from the initial zoom [1], after each of any sequence of
    wheel events whose [deltaY] is a number (of any sign and size, the
    infinities included) the zoom lies between [0.5] and [5]; there are as
    many zoom values as events. *)
Theorem zoom_stays_clamped (deltas : list spec_float) :
  Forall (fun deltaY => Number.isNaN deltaY = false) deltas ->
  clamped initialZoom
  /\ length (zooms deltas initialZoom) = length deltas
  /\ Forall clamped (zooms deltas initialZoom)
  /\ (forall k zoom,
        zooms deltas initialZoom !! k = Some zoom ->
        Number.leb Number.lit_0_5 zoom = true
        /\ Number.leb zoom Number.lit_5 = true
        /\ Number.isNaN zoom = false).
Proof.
  intros Hd. pose proof (zooms_clamped deltas initialZoom Hd initialZoom_clamped) as Hall.
  split; [exact initialZoom_clamped|].
  split; [apply length_zooms|].
  split; [exact Hall|].
  intros k zoom Hk.
  apply list_elem_of_lookup_2 in Hk.
  rewrite Forall_forall in Hall. specialize (Hall zoom Hk).
  destruct (clamped_finite zoom Hall) as (m & e & ->).
  destruct Hall as [Hlo Hhi]. repeat split; assumption.
Qed.

Lemma zoom_stays_clamped_witness :
  Forall clamped (zooms Examples.wheel initialZoom)
  /\ zooms Examples.wheel initialZoom !! 1 = Some (S754_finite false 6755399441055744 (-51)).
Proof.
  split.
  - apply (zoom_stays_clamped Examples.wheel). repeat constructor.
  - reflexivity.
Defined.

End Zoom.

(** ** Retry and edit *)

Section Rerun.
Import Types Browser App Spec.
Import GeminiService(callGeminiApi, returned).

Lemma findById_some (userId : string) (l : list ChatMessage) (m : ChatMessage) :
  findById userId l = Some m -> m ∈ l /\ id m = userId.
Proof.
  unfold findById. intros H. apply find_some in H as [Hin Heq].
  split; [now apply list_elem_of_In | now apply String.eqb_eq].
Qed.

Lemma findBotFor_some (userId : string) (l : list ChatMessage) (m : ChatMessage) :
  findBotFor userId l = Some m -> m ∈ l /\ userMessageId m = Some userId.
Proof.
  unfold findBotFor, refersTo. intros H. apply find_some in H as [Hin Heq].
  split; [now apply list_elem_of_In|].
  destruct (userMessageId m) as [linked|]; [|discriminate Heq].
  apply String.eqb_eq in Heq. now subst.
Qed.

Lemma findBotFor_none (userId : string) (l : list ChatMessage) :
  (forall m, m ∈ l -> userMessageId m <> Some userId) -> findBotFor userId l = None.
Proof.
  intros H. unfold findBotFor.
  destruct (List.find (refersTo userId) l) as [m|] eqn:Hf; [|reflexivity].
  apply (findBotFor_some userId l m) in Hf as [Hin Hm]. now apply H in Hin.
Qed.

(** What [processRequest] does up to its [await]. *)
Lemma processRequest_begin_spec
    (ai : GenAI.GoogleGenAI) (remote : GenAI.Remote) (payload : PayloadObject)
    (userId : string) (existing : option string) (now : N) (p : Page) :
  let started := processRequest_begin ai remote payload userId existing now p in
  started.2 = {| pendingPayload := payload; pendingUserMessageId := userId;
                 botMessageId := botMessageIdFor existing now |}
  /\ messages started.1
     = (if Js.truthy_opt existing then
          replaceById (botMessageIdFor existing now)
            (loadingBotMessage (botMessageIdFor existing now) userId) (messages p)
        else messages p ++ [loadingBotMessage (botMessageIdFor existing now) userId])
  /\ localStorage started.1 = localStorage p
  /\ network started.1
     = network p ++ GeminiService.issued (callGeminiApi ai remote payload)
  /\ console started.1 = console p.
Proof.
  unfold processRequest_begin. cbv zeta.
  destruct (Js.truthy_opt existing); simpl; repeat split; reflexivity.
Qed.

Lemma botMessageIdFor_existing (existing : string) (now : N) :
  existing <> "" ->
  botMessageIdFor (Some existing) now = existing
  /\ Js.truthy_opt (Some existing) = true.
Proof.
  intros H. apply truthy_nonempty in H. simpl. now rewrite H.
Qed.

Lemma ids_editMessage (userId newPrompt : string) (l : list ChatMessage) :
  map id (map (editMessage userId newPrompt) l) = map id l.
Proof.
  rewrite map_map. apply map_ext. intros m. unfold editMessage.
  destruct (String.eqb (id m) userId); reflexivity.
Qed.

Lemma editMessage_other (userId newPrompt : string) (m : ChatMessage) :
  id m <> userId -> editMessage userId newPrompt m = m.
Proof.
  intros H. unfold editMessage. now destruct (String.eqb_spec (id m) userId).
Qed.

(** With identifiers that differ from message to message, the updater of
    [handleEdit] captures the payload of the message [find] returns. *)
Lemma capturedPayload_from (userId : string) (l : list ChatMessage)
    (start : option PayloadObject) :
  (forall m, m ∈ l -> id m <> userId) ->
  fold_left
    (fun captured msg =>
       if String.eqb (id msg) userId then requestPayload msg else captured)
    l start = start.
Proof.
  revert start. induction l as [|m l IH]; intros start H; simpl; [reflexivity|].
  rewrite IH by (intros m' Hm'; apply H; now right).
  destruct (String.eqb_spec (id m) userId) as [E|_]; [|reflexivity].
  exfalso. apply (H m); [left | exact E].
Qed.

Lemma capturedPayload_unique (userId : string) (l : list ChatMessage) (m : ChatMessage) :
  NoDup (map id l) -> findById userId l = Some m ->
  capturedPayload userId l = requestPayload m.
Proof.
  unfold capturedPayload, findById. generalize (@None PayloadObject) as start.
  induction l as [|m0 l IH]; intros start Hnd Hf; simpl in *; [discriminate Hf|].
  apply NoDup_cons in Hnd as [Hnotin Hnd].
  destruct (String.eqb_spec (id m0) userId) as [E|Hne].
  - injection Hf as <-. apply capturedPayload_from.
    intros m' Hm' E'. apply Hnotin. rewrite E, <- E'.
    apply list_elem_of_fmap. exists m'. split; [reflexivity | exact Hm'].
  - now apply IH.
Qed.

(** No entry with this identifier carries a payload: the updater captures
    none, and [find] returns no message with a payload. *)
Lemma capturedPayload_none (userId : string) (l : list ChatMessage) :
  (forall m, m ∈ l -> id m = userId -> requestPayload m = None) ->
  capturedPayload userId l = None
  /\ findById userId l ≫= requestPayload = None.
Proof.
  intros H. split.
  - unfold capturedPayload.
    assert (G : forall start, start = None ->
              fold_left
                (fun captured msg =>
                   if String.eqb (id msg) userId then requestPayload msg else captured)
                l start = None); [|now apply G].
    induction l as [|m l IH]; intros start ->; simpl; [reflexivity|].
    apply IH; [intros m' Hm'; apply H; now right|].
    destruct (String.eqb_spec (id m) userId) as [E|_]; [|reflexivity].
    apply H; [left | exact E].
  - destruct (findById userId l) as [m|] eqn:Hf; [|reflexivity].
    apply findById_some in Hf as [Hin Hid]. simpl. now apply H.
Qed.

End Rerun.

(** ** Identifiers of reachable pages *)

Section Identifiers.
Import Types Browser App Spec.
Import GeminiService(callGeminiApi, returned).

Lemma identified_ids (l k : list ChatMessage) :
  map id l = map id k -> identified k -> identified l.
Proof.
  unfold identified. intros E Hk.
  assert (G : forall j : list ChatMessage,
            Forall (fun m => id m <> "") j <-> Forall (fun s => s <> "") (map id j)).
  { intros j. rewrite !Forall_forall. split.
    - intros H s Hs. apply list_elem_of_In, in_map_iff in Hs as (m & <- & Hm).
      apply H. now apply list_elem_of_In.
    - intros H m Hm. apply H. apply list_elem_of_In, in_map. now apply list_elem_of_In. }
  apply G. rewrite E. now apply G.
Qed.

Lemma identified_withoutLoading (l : list ChatMessage) :
  identified l -> identified (withoutLoading l).
Proof.
  unfold identified. rewrite withoutLoading_filter, !Forall_forall.
  intros H m Hm. apply list_elem_of_filter in Hm as [_ Hm]. now apply H.
Qed.

Lemma handleSubmit_begin_storage
    (ai : GenAI.GoogleGenAI) (remote : GenAI.Remote)
    (prompt : string) (files : list File) (options : GenerationOptions)
    (now elapsed : N) (p : Page) :
  localStorage (handleSubmit_begin ai remote prompt files options now elapsed p).1
  = localStorage p.
Proof.
  unfold handleSubmit_begin.
  destruct (createObjectURLs files (objectURLs p)) as [urls u].
  destruct (submitPayload prompt files options); reflexivity.
Qed.

Lemma handleSubmit_begin_identified
    (ai : GenAI.GoogleGenAI) (remote : GenAI.Remote)
    (prompt : string) (files : list File) (options : GenerationOptions)
    (now elapsed : N) (p : Page) :
  identified (messages p) ->
  identified (messages (handleSubmit_begin ai remote prompt files options now elapsed p).1).
Proof.
  intros Hp.
  destruct (submitPayload prompt files options) as [e|rp] eqn:Hs.
  - destruct (handleSubmit_begin_rejected ai remote prompt files options now elapsed
                p e Hs) as (q & Hq & Hm & _).
    rewrite Hq. simpl. rewrite Hm. exact Hp.
  - destruct (handleSubmit_begin_resolved ai remote prompt files options now elapsed
                p rp Hs) as (q & Hq & Hm & _).
    rewrite Hq. simpl. rewrite Hm.
    apply Forall_app. split; [exact Hp|].
    repeat constructor; simpl; apply truthy_nonempty, toString_truthy.
Qed.

(** A request started against a message of the page keeps every
    identifier. *)
Lemma rerun_begin_ids
    (ai : GenAI.GoogleGenAI) (remote : GenAI.Remote) (payload : PayloadObject)
    (userId : string) (botEntry : ChatMessage) (now : N) (p : Page) :
  id botEntry <> "" ->
  let started :=
    processRequest_begin ai remote payload userId (Some (id botEntry)) now p in
  botMessageId started.2 = id botEntry
  /\ messages started.1
     = replaceById (id botEntry) (loadingBotMessage (id botEntry) userId) (messages p)
  /\ map id (messages started.1) = map id (messages p).
Proof.
  intros Hne started. subst started.
  destruct (processRequest_begin_spec ai remote payload userId (Some (id botEntry)) now p)
    as (Hpending & Hm & _).
  destruct (botMessageIdFor_existing (id botEntry) now Hne) as [Hid Ht].
  rewrite Hpending, Hm, Ht, Hid. simpl.
  split; [reflexivity|]. split; [reflexivity|]. now apply ids_replaceById.
Qed.

Lemma handleRetry_begin_identified
    (ai : GenAI.GoogleGenAI) (remote : GenAI.Remote) (userId : string) (now : N)
    (p : Page) :
  identified (messages p) ->
  identified (messages (handleRetry_begin ai remote userId now p).1)
  /\ localStorage (handleRetry_begin ai remote userId now p).1 = localStorage p.
Proof.
  intros Hp. unfold handleRetry_begin.
  destruct (findById userId (messages p) ≫= requestPayload) as [payload|];
    [|split; [exact Hp | reflexivity]].
  destruct (findBotFor userId (messages p)) as [b|] eqn:Hb;
    [|split; [exact Hp | reflexivity]].
  apply findBotFor_some in Hb as [Hin _].
  assert (Hne : id b <> "").
  { unfold identified in Hp. rewrite Forall_forall in Hp. now apply Hp. }
  destruct (rerun_begin_ids ai remote payload userId b now p Hne) as (_ & _ & Hids).
  destruct (processRequest_begin_spec ai remote payload userId (Some (id b)) now p)
    as (_ & _ & Hst & _).
  destruct (processRequest_begin _ _ _ _ _ _ _) as [q pending]. simpl in *.
  split; [now apply (identified_ids _ (messages p)) | exact Hst].
Qed.

Lemma handleEdit_begin_identified
    (ai : GenAI.GoogleGenAI) (remote : GenAI.Remote) (eager : bool)
    (userId newPrompt : string) (now : N) (p : Page) :
  identified (messages p) ->
  identified (messages (handleEdit_begin ai remote eager userId newPrompt now p).1)
  /\ localStorage (handleEdit_begin ai remote eager userId newPrompt now p).1
     = localStorage p.
Proof.
  intros Hp. unfold handleEdit_begin.
  set (p1 := setMessages (map (editMessage userId newPrompt)) p).
  assert (H1 : identified (messages p1)).
  { apply (identified_ids _ (messages p)); [apply ids_editMessage | exact Hp]. }
  destruct (if eager then capturedPayload userId (messages p) else None)
    as [original|];
    [|split; [exact H1 | reflexivity]].
  destruct (findBotFor userId (messages p)) as [b|] eqn:Hb;
    [|split; [exact H1 | reflexivity]].
  apply findBotFor_some in Hb as [Hin _].
  assert (Hne : id b <> "").
  { unfold identified in Hp. rewrite Forall_forall in Hp. now apply Hp. }
  destruct (rerun_begin_ids ai remote (withPrompt (Some original) newPrompt) userId b
              now p1 Hne) as (_ & _ & Hids).
  destruct (processRequest_begin_spec ai remote (withPrompt (Some original) newPrompt)
              userId (Some (id b)) now p1) as (_ & _ & Hst & _).
  destruct (processRequest_begin _ _ _ _ _ _ _) as [q pending]. simpl in *.
  split; [now apply (identified_ids _ (messages p1)) | exact Hst].
Qed.

Lemma step_identified (p q : Page) :
  step p q -> identifiedPage p -> identifiedPage q.
Proof.
  intros Hstep [Hm Hs]. unfold identifiedPage.
  destruct Hstep as [ai remote form prompt files options now elapsed p _
                    | ai remote userId now p
                    | ai remote eager userId newPrompt now p
                    | pending run p
                    | p
                    | p].
  - unfold formCleared, setObjectURLs. cbn [messages localStorage].
    rewrite handleSubmit_begin_storage.
    split; [now apply handleSubmit_begin_identified | exact Hs].
  - destruct (handleRetry_begin_identified ai remote userId now p Hm) as [H1 ->].
    split; [exact H1 | exact Hs].
  - destruct (handleEdit_begin_identified ai remote eager userId newPrompt now p Hm)
      as [H1 ->].
    split; [exact H1 | exact Hs].
  - split; [|exact Hs]. simpl.
    apply (identified_ids _ (messages p)); [|exact Hm].
    apply ids_replaceById, terminalBotMessage_fields.
  - unfold saveEffect.
    destruct (0 <? length (withoutLoading (messages p)))%nat; simpl.
    + split; [exact Hm|]. intros saved. rewrite lookup_insert_eq. intros [= <-].
      now apply identified_withoutLoading.
    + split; [exact Hm|]. intros saved. rewrite lookup_delete_eq. discriminate.
  - unfold loadEffect. simpl.
    destruct (localStorage p !! "chatHistory") as [[saved|raw]|] eqn:Hl; simpl.
    + split; [apply identified_withoutLoading; now apply Hs|].
      intros saved'. rewrite Hl. intros [= <-]. now apply Hs.
    + destruct (Js.truthy raw); simpl.
      * split; [constructor|]. intros saved. rewrite lookup_delete_eq. discriminate.
      * split; [constructor|]. intros saved. rewrite Hl. discriminate.
    + split; [constructor|]. intros saved. rewrite Hl. discriminate.
Qed.

(** On every page the application reaches, no message carries the empty
    identifier. *)
Lemma reachable_identified (p : Page) : reachable p -> identified (messages p).
Proof.
  intros H. enough (identifiedPage p) as [Hm _] by exact Hm.
  induction H as [u|p q _ IH Hstep].
  - split; [constructor|]. intros saved. simpl. rewrite lookup_empty. discriminate.
  - now apply (step_identified p q).
Qed.

End Identifiers.

Section RerunClaims.
Import Types Browser App Spec.
Import GeminiService(callGeminiApi, returned, logString).

Lemma replaceById_twice (target : string) (r1 r2 : ChatMessage) (l : list ChatMessage) :
  id r1 = target ->
  replaceById target r2 (replaceById target r1 l) = replaceById target r2 l.
Proof.
  intros H1. unfold replaceById. rewrite map_map. apply map_ext. intros m.
  destruct (String.eqb_spec (id m) target) as [E|Hne].
  - rewrite H1. now rewrite String.eqb_refl.
  - now destruct (String.eqb_spec (id m) target).
Qed.

Lemma handleRetry_aborts
    (ai : GenAI.GoogleGenAI) (remote : GenAI.Remote) (userId : string) (now : N)
    (p : Page) :
  findById userId (messages p) ≫= requestPayload = None
  \/ findBotFor userId (messages p) = None ->
  handleRetry_begin ai remote userId now p
  = (consoleError
       [[logString "Could not find messages to retry for userMessageId:";
         logString userId]] p,
     None).
Proof.
  unfold handleRetry_begin. intros [-> | ->]; [reflexivity|].
  now destruct (findById userId (messages p) ≫= requestPayload).
Qed.

Lemma handleEdit_aborts
    (ai : GenAI.GoogleGenAI) (remote : GenAI.Remote) (eager : bool)
    (userId newPrompt : string) (now : N) (p : Page) :
  eager = false
  \/ capturedPayload userId (messages p) = None
  \/ findBotFor userId (messages p) = None ->
  handleEdit_begin ai remote eager userId newPrompt now p
  = (consoleError
       [[logString "Could not find messages to edit for userMessageId:";
         logString userId]]
       (setMessages (map (editMessage userId newPrompt)) p),
     None).
Proof.
  unfold handleEdit_begin. intros [-> | [-> | ->]]; [reflexivity | |].
  - now destruct eager.
  - now destruct (if eager then capturedPayload userId (messages p) else None).
Qed.

(** What a retry that finds its messages does, begun and run to its end. *)
Lemma handleRetry_runs
    (ai : GenAI.GoogleGenAI) (remote : GenAI.Remote) (userId : string) (now : N)
    (p : Page) (payload : PayloadObject) (botEntry : ChatMessage) :
  findById userId (messages p) ≫= requestPayload = Some payload ->
  findBotFor userId (messages p) = Some botEntry ->
  id botEntry <> "" ->
  (handleRetry_begin ai remote userId now p).2
  = Some {| pendingPayload := payload; pendingUserMessageId := userId;
            botMessageId := id botEntry |}
  /\ messages (handleRetry_begin ai remote userId now p).1
     = replaceById (id botEntry) (loadingBotMessage (id botEntry) userId) (messages p)
  /\ messages (handleRetry ai remote userId now p)
     = replaceById (id botEntry)
         (terminalBotMessage (id botEntry) userId
            (returned (callGeminiApi ai remote payload)))
         (messages p).
Proof.
  intros Hu Hb Hne. unfold handleRetry, handleRetry_begin. rewrite Hu, Hb.
  destruct (rerun_begin_ids ai remote payload userId botEntry now p Hne)
    as (Hid & Hm & _).
  destruct (processRequest_begin_spec ai remote payload userId (Some (id botEntry)) now p)
    as (Hpending & _).
  destruct (processRequest_begin _ _ _ _ _ _ _) as [q pending].
  cbn [fst snd] in *. subst pending. cbn [botMessageId] in Hid.
  split; [now rewrite Hid|]. split; [exact Hm|].
  rewrite settleNow_messages.
  cbn [botMessageId pendingUserMessageId pendingPayload]. rewrite Hid, Hm.
  now apply replaceById_twice.
Qed.

(** What an edit that finds its messages does, begun and run to its end,
    when React has run the updater by the time the payload is tested. *)
Lemma handleEdit_runs
    (ai : GenAI.GoogleGenAI) (remote : GenAI.Remote) (userId newPrompt : string)
    (now : N) (p : Page) (original : PayloadObject) (botEntry : ChatMessage) :
  capturedPayload userId (messages p) = Some original ->
  findBotFor userId (messages p) = Some botEntry ->
  id botEntry <> "" ->
  (handleEdit_begin ai remote true userId newPrompt now p).2
  = Some {| pendingPayload := withPrompt (Some original) newPrompt;
            pendingUserMessageId := userId; botMessageId := id botEntry |}
  /\ messages (handleEdit_begin ai remote true userId newPrompt now p).1
     = replaceById (id botEntry) (loadingBotMessage (id botEntry) userId)
         (map (editMessage userId newPrompt) (messages p))
  /\ messages (handleEdit ai remote true userId newPrompt now p)
     = replaceById (id botEntry)
         (terminalBotMessage (id botEntry) userId
            (returned (callGeminiApi ai remote (withPrompt (Some original) newPrompt))))
         (map (editMessage userId newPrompt) (messages p)).
Proof.
  intros Hu Hb Hne. unfold handleEdit, handleEdit_begin. rewrite Hu, Hb.
  set (p1 := setMessages (map (editMessage userId newPrompt)) p).
  set (payload := withPrompt (Some original) newPrompt).
  destruct (rerun_begin_ids ai remote payload userId botEntry now p1 Hne)
    as (Hid & Hm & _).
  destruct (processRequest_begin_spec ai remote payload userId (Some (id botEntry)) now p1)
    as (Hpending & _).
  destruct (processRequest_begin _ _ _ _ _ _ _) as [q pending].
  cbn [fst snd] in *. subst pending. cbn [botMessageId] in Hid.
  split; [now rewrite Hid|]. split; [exact Hm|].
  rewrite settleNow_messages.
  cbn [botMessageId pendingUserMessageId pendingPayload]. rewrite Hid, Hm.
  now apply replaceById_twice.
Qed.

Lemma lookup_editMessage (userId newPrompt : string) (l : list ChatMessage)
    (i : nat) (m : ChatMessage) :
  l !! i = Some m ->
  map (editMessage userId newPrompt) l !! i = Some (editMessage userId newPrompt m).
Proof. intros H. now rewrite lookup_map, H. Qed.

Lemma editMessage_keeps (userId newPrompt : string) (m : ChatMessage) :
  id (editMessage userId newPrompt m) = id m
  /\ role (editMessage userId newPrompt m) = role m
  /\ Types.isLoading (editMessage userId newPrompt m) = Types.isLoading m
  /\ error (editMessage userId newPrompt m) = error m
  /\ generatedImages (editMessage userId newPrompt m) = generatedImages m
  /\ userMessageId (editMessage userId newPrompt m) = userMessageId m.
Proof.
  unfold editMessage. destruct (String.eqb (id m) userId); repeat split.
Qed.

(** C7, amended.  When no message with the given identifier carries a
    request payload (there is no such message, or it has no payload), or
    no bot message refers to the identifier, retry and edit start no
    request: no call is sent, the loading flag and the storage are as
    before, and the one thing written is a line on the console.  Retry
    leaves the messages as they are.  Edit does not: its own update of the
    user message has run, so the messages under that identifier have the
    new prompt as their text and in their payload, and keep everything
    else; no message is added, removed or moved, none under another
    identifier changes, and none changes its loading state, its error or
    its images.  This holds whether or not React has run the updater when
    the payload is tested. *)
Theorem retry_and_edit_abort_silently
    (ai : GenAI.GoogleGenAI) (remote : GenAI.Remote) (eager : bool)
    (userId newPrompt : string) (now : N) (p : Page) :
  (forall m, m ∈ messages p -> id m = userId -> requestPayload m = None)
  \/ (forall m, m ∈ messages p -> userMessageId m <> Some userId) ->
  let retried := handleRetry ai remote userId now p in
  let edited := handleEdit ai remote eager userId newPrompt now p in
  (handleRetry_begin ai remote userId now p).2 = None
  /\ (handleEdit_begin ai remote eager userId newPrompt now p).2 = None
  /\ messages retried = messages p
  /\ network retried = network p /\ isLoading retried = isLoading p
  /\ localStorage retried = localStorage p
  /\ console retried
     = console p ++ [[logString "Could not find messages to retry for userMessageId:";
                      logString userId]]
  /\ messages edited = map (editMessage userId newPrompt) (messages p)
  /\ network edited = network p /\ isLoading edited = isLoading p
  /\ localStorage edited = localStorage p
  /\ console edited
     = console p ++ [[logString "Could not find messages to edit for userMessageId:";
                      logString userId]]
  /\ length (messages edited) = length (messages p)
  /\ ((forall m, m ∈ messages p -> id m <> userId) -> messages edited = messages p)
  /\ (forall i m,
        messages p !! i = Some m ->
        exists m',
          messages edited !! i = Some m'
          /\ id m' = id m /\ role m' = role m
          /\ Types.isLoading m' = Types.isLoading m /\ error m' = error m
          /\ generatedImages m' = generatedImages m
          /\ userMessageId m' = userMessageId m
          /\ imagePreviewUrls m' = imagePreviewUrls m
          /\ (id m <> userId -> m' = m)
          /\ (id m = userId ->
                text m' = Some newPrompt
                /\ requestPayload m' = Some (withPrompt (requestPayload m) newPrompt))).
Proof.
  intros Hmissing retried edited.
  assert (Hr : handleRetry_begin ai remote userId now p
               = (consoleError
                    [[logString "Could not find messages to retry for userMessageId:";
                      logString userId]] p, None)).
  { apply handleRetry_aborts. destruct Hmissing as [H1|H2].
    - left. now apply capturedPayload_none.
    - right. now apply findBotFor_none. }
  assert (He : handleEdit_begin ai remote eager userId newPrompt now p
               = (consoleError
                    [[logString "Could not find messages to edit for userMessageId:";
                      logString userId]]
                    (setMessages (map (editMessage userId newPrompt)) p), None)).
  { apply handleEdit_aborts. right. destruct Hmissing as [H1|H2].
    - left. now apply capturedPayload_none.
    - right. now apply findBotFor_none. }
  subst retried edited. unfold handleRetry, handleEdit. rewrite Hr, He. simpl.
  repeat (split; [reflexivity|]).
  split; [apply length_map|]. split.
  - intros Hnone. rewrite <- (map_id (messages p)) at 2.
    apply map_ext_in. intros m Hm. apply editMessage_other, Hnone.
    now apply list_elem_of_In.
  - intros i m Hi. exists (editMessage userId newPrompt m).
    split; [now apply lookup_editMessage|].
    destruct (editMessage_keeps userId newPrompt m) as (H1 & H2 & H3 & H4 & H5 & H6).
    repeat (split; [assumption|]).
    split; [unfold editMessage; now destruct (String.eqb (id m) userId)|].
    split; [apply editMessage_other|].
    intros E. unfold editMessage. rewrite E, String.eqb_refl. split; reflexivity.
Qed.

Lemma retry_and_edit_abort_silently_witness :
  messages (handleRetry Examples.sampleClient Examples.sampleRemote "1700000000000"
              1700000009000 Examples.orphaned)
  = messages Examples.orphaned
  /\ network (handleEdit Examples.sampleClient Examples.sampleRemote true "1700000000000"
                "a blue kite" 1700000009000 Examples.orphaned)
     = []
  /\ map text (messages (handleEdit Examples.sampleClient Examples.sampleRemote true
                           "1700000000000" "a blue kite" 1700000009000
                           Examples.orphaned))
     = [Some "a blue kite"].
Proof.
  destruct (retry_and_edit_abort_silently Examples.sampleClient Examples.sampleRemote
              true "1700000000000" "a blue kite" 1700000009000 Examples.orphaned)
    as (_ & _ & Hm & _ & _ & _ & _ & He & Hn & _).
  - right. intros m Hm. apply list_elem_of_In in Hm. simpl in Hm.
    destruct Hm as [<-|[]]. discriminate.
  - split; [exact Hm|]. split; [exact Hn|]. rewrite He. reflexivity.
Defined.

(** An edit on a page whose user message has lost its bot message: no bot
    message refers to the identifier, the edit starts no request, and yet
    the user message no longer reads as it did. *)
Lemma aborted_edit_changes_the_user_entry :
  findBotFor "1700000000000" (messages Examples.orphaned) = None
  /\ (handleEdit_begin Examples.sampleClient Examples.sampleRemote true "1700000000000"
        "a blue kite" 1700000009000 Examples.orphaned).2 = None
  /\ map text (messages Examples.orphaned) = [Some "a red kite"]
  /\ map text (messages (handleEdit Examples.sampleClient Examples.sampleRemote true
                           "1700000000000" "a blue kite" 1700000009000
                           Examples.orphaned))
     = [Some "a blue kite"]
  /\ messages (handleEdit Examples.sampleClient Examples.sampleRemote true
                 "1700000000000" "a blue kite" 1700000009000 Examples.orphaned)
     <> messages Examples.orphaned.
Proof.
  split; [reflexivity|]. split; [reflexivity|]. split; [reflexivity|].
  split; [reflexivity|]. intros E. apply (f_equal (map text)) in E.
  vm_compute in E. discriminate E.
Qed.

(** C2.  On a page the application reaches, when the message [find]
    returns for the identifier holds a request payload and a bot message
    refers to the identifier, retry and edit, begun and run to their end,
    keep the number of messages, their order and every identifier, the bot
    message's among them: retry replaces, in place, only messages under the
    bot message's identifier, by the loading and then by the terminal bot
    message; edit besides updates, in place, the messages under the user
    identifier.  The retry re-runs the original payload against the bot
    message's identifier, and so does the edit with the new prompt when
    identifiers differ from message to message and React has run the
    updater by the time the payload is tested; when it has not, the edit
    starts no request and only updates the messages under the user
    identifier. *)
Theorem retry_and_edit_replace_in_place
    (ai : GenAI.GoogleGenAI) (remote : GenAI.Remote) (eager : bool) (p : Page)
    (userId newPrompt : string) (now : N)
    (target botEntry : ChatMessage) (payload : PayloadObject) :
  reachable p ->
  findById userId (messages p) = Some target ->
  requestPayload target = Some payload ->
  findBotFor userId (messages p) = Some botEntry ->
  let retried := handleRetry ai remote userId now p in
  let edited := handleEdit ai remote eager userId newPrompt now p in
  (handleRetry_begin ai remote userId now p).2
  = Some {| pendingPayload := payload; pendingUserMessageId := userId;
            botMessageId := id botEntry |}
  /\ map id (messages (handleRetry_begin ai remote userId now p).1) = map id (messages p)
  /\ map id (messages retried) = map id (messages p)
  /\ length (messages retried) = length (messages p)
  /\ (forall i m, messages p !! i = Some m -> id m <> id botEntry ->
        messages retried !! i = Some m)
  /\ (forall i m, messages p !! i = Some m -> id m = id botEntry ->
        exists t, messages retried !! i = Some t /\ id t = id botEntry /\ terminal t)
  /\ map id (messages (handleEdit_begin ai remote eager userId newPrompt now p).1)
     = map id (messages p)
  /\ map id (messages edited) = map id (messages p)
  /\ length (messages edited) = length (messages p)
  /\ (forall i m, messages p !! i = Some m -> id m <> id botEntry -> id m <> userId ->
        messages edited !! i = Some m)
  /\ (forall i m, messages p !! i = Some m -> id m <> id botEntry ->
        messages edited !! i = Some (editMessage userId newPrompt m))
  /\ (forall i m, messages p !! i = Some m -> id m = id botEntry ->
        exists t, messages edited !! i = Some t /\ id t = id botEntry)
  /\ (eager = true -> NoDup (map id (messages p)) ->
        (handleEdit_begin ai remote eager userId newPrompt now p).2
        = Some {| pendingPayload := withPrompt (Some payload) newPrompt;
                  pendingUserMessageId := userId; botMessageId := id botEntry |}
        /\ forall i m, messages p !! i = Some m -> id m = id botEntry ->
             exists t, messages edited !! i = Some t /\ id t = id botEntry /\ terminal t)
  /\ (eager = false ->
        (handleEdit_begin ai remote eager userId newPrompt now p).2 = None
        /\ messages edited = map (editMessage userId newPrompt) (messages p)
        /\ network edited = network p).
Proof.
  intros Hreach Hu Hpayload Hb retried edited.
  assert (Hne : id botEntry <> "").
  { pose proof (reachable_identified p Hreach) as Hid.
    unfold identified in Hid. rewrite Forall_forall in Hid.
    apply Hid. now apply findBotFor_some in Hb as [Hin _]. }
  assert (Hu' : findById userId (messages p) ≫= requestPayload = Some payload)
    by (rewrite Hu; exact Hpayload).
  destruct (handleRetry_runs ai remote userId now p payload botEntry Hu' Hb Hne)
    as (Hr1 & Hr2 & Hr3).
  set (T := terminalBotMessage (id botEntry) userId
              (returned (callGeminiApi ai remote payload))) in *.
  destruct (terminalBotMessage_fields (id botEntry) userId
              (returned (callGeminiApi ai remote payload))) as (HT & _).
  fold T in HT.
  split; [exact Hr1|].
  split; [rewrite Hr2; now apply ids_replaceById|].
  split; [subst retried; rewrite Hr3; now apply ids_replaceById|].
  split; [subst retried; rewrite Hr3; apply length_replaceById|].
  split.
  { intros i m Hi Hm. subst retried. rewrite Hr3, lookup_replaceById, Hi. simpl.
    now destruct (String.eqb_spec (id m) (id botEntry)). }
  split.
  { intros i m Hi Hm. exists T. subst retried.
    rewrite Hr3, lookup_replaceById, Hi. simpl.
    rewrite Hm, String.eqb_refl. split; [reflexivity|]. split; [exact HT|].
    apply terminalBotMessage_terminal. }
  (* edit *)
  assert (Hedit :
    (messages (handleEdit_begin ai remote eager userId newPrompt now p).1
       = map (editMessage userId newPrompt) (messages p)
     /\ messages edited = map (editMessage userId newPrompt) (messages p))
    \/ exists original,
         capturedPayload userId (messages p) = Some original
         /\ messages (handleEdit_begin ai remote eager userId newPrompt now p).1
            = replaceById (id botEntry) (loadingBotMessage (id botEntry) userId)
                (map (editMessage userId newPrompt) (messages p))
         /\ messages edited
            = replaceById (id botEntry)
                (terminalBotMessage (id botEntry) userId
                   (returned (callGeminiApi ai remote
                                (withPrompt (Some original) newPrompt))))
                (map (editMessage userId newPrompt) (messages p))).
  { destruct eager.
    - destruct (capturedPayload userId (messages p)) as [original|] eqn:Hc.
      + right. exists original.
        destruct (handleEdit_runs ai remote userId newPrompt now p original botEntry
                    Hc Hb Hne) as (_ & He2 & He3).
        split; [reflexivity|]. split; [exact He2 | exact He3].
      + left. subst edited. unfold handleEdit.
        rewrite (handleEdit_aborts ai remote true userId newPrompt now p
                   (or_intror (or_introl Hc))).
        split; reflexivity.
    - left. subst edited. unfold handleEdit.
      rewrite (handleEdit_aborts ai remote false userId newPrompt now p
                 (or_introl eq_refl)).
      split; reflexivity. }
  assert (Hkeep : forall i m t,
            messages p !! i = Some m ->
            (replaceById (id botEntry) t
               (map (editMessage userId newPrompt) (messages p))) !! i
            = Some (if String.eqb (id m) (id botEntry) then t
                    else editMessage userId newPrompt m)).
  { intros i m t Hi. rewrite lookup_replaceById, (lookup_editMessage _ _ _ _ _ Hi).
    simpl. destruct (editMessage_keeps userId newPrompt m) as (-> & _). reflexivity. }
  split.
  { destruct Hedit as [[-> _]|(original & _ & -> & _)].
    - apply ids_editMessage.
    - rewrite ids_replaceById by reflexivity. apply ids_editMessage. }
  split.
  { destruct Hedit as [[_ ->]|(original & _ & _ & ->)].
    - apply ids_editMessage.
    - rewrite ids_replaceById by apply terminalBotMessage_fields.
      apply ids_editMessage. }
  split.
  { destruct Hedit as [[_ ->]|(original & _ & _ & ->)].
    - apply length_map.
    - rewrite length_replaceById. apply length_map. }
  assert (Hother : forall i m, messages p !! i = Some m -> id m <> id botEntry ->
            messages edited !! i = Some (editMessage userId newPrompt m)).
  { intros i m Hi Hm. destruct Hedit as [[_ ->]|(original & _ & _ & ->)].
    - now apply lookup_editMessage.
    - rewrite (Hkeep _ _ _ Hi). now destruct (String.eqb_spec (id m) (id botEntry)). }
  split.
  { intros i m Hi Hm Hm'. rewrite (Hother i m Hi Hm). f_equal.
    now apply editMessage_other. }
  split; [exact Hother|].
  split.
  { intros i m Hi Hm. destruct Hedit as [[_ ->]|(original & _ & _ & ->)].
    - exists (editMessage userId newPrompt m).
      split; [now apply lookup_editMessage|].
      destruct (editMessage_keeps userId newPrompt m) as (-> & _). exact Hm.
    - eexists. rewrite (Hkeep _ _ _ Hi), Hm, String.eqb_refl.
      split; [reflexivity | apply terminalBotMessage_fields]. }
  split.
  { intros -> Hnd.
    pose proof (capturedPayload_unique userId (messages p) target Hnd Hu) as Hc.
    rewrite Hpayload in Hc.
    destruct (handleEdit_runs ai remote userId newPrompt now p payload botEntry
                Hc Hb Hne) as (He1 & _ & He3).
    split; [exact He1|].
    intros i m Hi Hm. eexists. subst edited.
    rewrite He3, (Hkeep _ _ _ Hi), Hm, String.eqb_refl.
    split; [reflexivity|]. split; [apply terminalBotMessage_fields|].
    apply terminalBotMessage_terminal. }
  intros ->. subst edited. unfold handleEdit.
  rewrite (handleEdit_aborts ai remote false userId newPrompt now p (or_introl eq_refl)).
  repeat split.
Qed.

Lemma answered_reachable : reachable Examples.answered.
Proof.
  set (begun := handleSubmit_begin Examples.sampleClient Examples.refusingRemote
                  "a red kite" [] Examples.sampleOptions
                  1700000000000 2 Examples.firstVisit).
  assert (E : exists pending run,
             Examples.answered = processRequest_settle pending run begun.1).
  { unfold Examples.answered, handleSubmit. fold begun.
    destruct begun as [q [e|pending]] eqn:Hb.
    - exfalso. vm_compute in Hb. discriminate Hb.
    - exists pending, (callGeminiApi Examples.sampleClient Examples.refusingRemote
                         (pendingPayload pending)). reflexivity. }
  destruct E as (pending & run & ->).
  eapply reachable_step; [|apply step_settle].
  set (form := {| ChatInput.prompt := "a red kite"; ChatInput.files := [];
                  ChatInput.previewUrls := [];
                  ChatInput.options := Examples.sampleOptions |}).
  assert (E : begun.1 = formCleared form begun.1) by reflexivity.
  rewrite E. unfold begun.
  eapply reachable_step; [apply reachable_mount|].
  apply step_submit. reflexivity.
Qed.

Lemma retry_and_edit_replace_in_place_witness :
  map id (messages (handleRetry Examples.sampleClient Examples.sampleRemote
                      "1700000000000" 1700000009000 Examples.answered))
  = ["1700000000000"; "1700000000003"]
  /\ length (messages (handleEdit Examples.sampleClient Examples.sampleRemote true
                        "1700000000000" "a blue kite" 1700000009000 Examples.answered))
     = 2.
Proof.
  destruct (retry_and_edit_replace_in_place Examples.sampleClient Examples.sampleRemote
              true Examples.answered "1700000000000" "a blue kite" 1700000009000
              (userMessage "1700000000000" "a red kite" []
                 {| prompt := "a red kite"; images := [];
                    options := Examples.sampleOptions; responseType := image |})
              (errorBotMessage "1700000000003" "1700000000000" "API Error: quota exceeded")
              (complete
                 {| prompt := "a red kite"; images := [];
                    options := Examples.sampleOptions; responseType := image |}))
    as (_ & _ & Hids & _ & _ & _ & _ & _ & Hlen & _).
  - exact answered_reachable.
  - vm_compute. reflexivity.
  - reflexivity.
  - vm_compute. reflexivity.
  - split; [rewrite Hids | rewrite Hlen]; reflexivity.
Defined.

End RerunClaims.

(** * Further properties *)

(** ** Input form *)

Section ObjectURLs.
Import Browser.

Lemma revokeObjectURLs_spec (urls : list string) (u : ObjectURLs) :
  nextHandle (revokeObjectURLs urls u) = nextHandle u
  /\ forall url, url ∈ live (revokeObjectURLs urls u) <-> url ∈ live u /\ url ∉ urls.
Proof.
  unfold revokeObjectURLs. revert u.
  induction urls as [|first rest IH]; intros u; simpl.
  - split; [reflexivity|]. intros url. split; [intros H; split; [exact H|]|tauto].
    intros Hin. inversion Hin.
  - destruct (IH (revokeObjectURL first u)) as [Hn Hl]. split; [exact Hn|].
    intros url. rewrite Hl. simpl. rewrite elem_of_difference, elem_of_singleton.
    rewrite elem_of_cons. tauto.
Qed.

End ObjectURLs.

Section Trim.
Import Spec.

Lemma stripPrefix_Some (w l rest : list ascii) :
  Js.stripPrefix w l = Some rest <-> l = w ++ rest.
Proof.
  revert l. induction w as [|a w IH]; intros l; simpl.
  - split; [intros [= ->]; reflexivity | intros ->; reflexivity].
  - destruct l as [|b l]; [split; discriminate|].
    destruct (Ascii.eqb_spec a b) as [->|Hne].
    + rewrite IH. split; [intros ->; reflexivity | intros [= ->]; reflexivity].
    + split; [discriminate | intros [= E _]; congruence].
Qed.

Lemma stripPrefix_None (w l : list ascii) :
  Js.stripPrefix w l = None <-> ~ w `prefix_of` l.
Proof.
  destruct (Js.stripPrefix w l) as [rest|] eqn:E.
  - apply stripPrefix_Some in E. split; [discriminate|].
    intros H. exfalso. apply H. now exists rest.
  - split; [|reflexivity]. intros _ [rest Hr].
    apply stripPrefix_Some in Hr. congruence.
Qed.

Lemma skipSpace_Some (ws : list (list ascii)) (l rest : list ascii) :
  Js.skipSpace ws l = Some rest -> exists w, w ∈ ws /\ l = w ++ rest.
Proof.
  induction ws as [|w ws IH]; simpl; [discriminate|].
  destruct (Js.stripPrefix w l) as [r|] eqn:E.
  - intros [= ->]. apply stripPrefix_Some in E. exists w. split; [left | exact E].
  - intros H. destruct (IH H) as (w' & Hin & Hl). exists w'. split; [now right | exact Hl].
Qed.

Lemma skipSpace_None (ws : list (list ascii)) (l : list ascii) :
  Js.skipSpace ws l = None <-> Forall (fun w => ~ w `prefix_of` l) ws.
Proof.
  induction ws as [|w ws IH]; simpl; [split; [constructor | reflexivity]|].
  destruct (Js.stripPrefix w l) as [r|] eqn:E.
  - split; [discriminate|]. intros H. apply Forall_cons in H as [H _].
    apply stripPrefix_None in H. congruence.
  - rewrite IH. apply stripPrefix_None in E. split.
    + intros H. now constructor.
    + intros H. now apply Forall_cons in H as [_ H].
Qed.

Lemma skipSpaces_fixed (ws : list (list ascii)) (fuel : nat) (l : list ascii) :
  Js.skipSpace ws l = None -> Js.skipSpaces ws fuel l = l.
Proof. intros H. destruct fuel; simpl; [reflexivity | now rewrite H]. Qed.

Lemma skipSpaces_spec (ws : list (list ascii)) (fuel : nat) (l : list ascii) :
  Forall (fun w => w <> []) ws -> length l <= fuel ->
  exists spaces,
    Forall (fun w => w ∈ ws) spaces
    /\ l = concat spaces ++ Js.skipSpaces ws fuel l
    /\ Js.skipSpace ws (Js.skipSpaces ws fuel l) = None.
Proof.
  intros Hne. revert l. induction fuel as [|fuel IH]; intros l Hlen.
  - destruct l; [|simpl in Hlen; lia]. exists []. simpl.
    split; [constructor|]. split; [reflexivity|].
    apply skipSpace_None. apply Forall_forall. intros w Hw [rest Hr].
    rewrite Forall_forall in Hne. apply (Hne w Hw).
    symmetry in Hr. now apply app_eq_nil in Hr as [Hr _].
  - simpl. destruct (Js.skipSpace ws l) as [rest|] eqn:E.
    + destruct (skipSpace_Some ws l rest E) as (w & Hw & ->).
      assert (Hw0 : w <> []) by (rewrite Forall_forall in Hne; now apply Hne).
      destruct (IH rest) as (spaces & Hsp & Hrest & Hnone).
      { rewrite length_app in Hlen. destruct w; [congruence|]. simpl in Hlen. lia. }
      exists (w :: spaces). split; [now constructor|]. split; [|exact Hnone].
      simpl. rewrite <- app_assoc. now rewrite <- Hrest.
    + exists []. split; [constructor|]. split; [reflexivity | exact E].
Qed.

Lemma whiteSpace_nonempty : Forall (fun w => w <> []) Js.whiteSpace.
Proof. apply (bool_decide_unpack _). vm_compute. exact I. Qed.

Lemma whiteSpace_reverse_nonempty : Forall (fun w => w <> []) (map reverse Js.whiteSpace).
Proof. apply (bool_decide_unpack _). vm_compute. exact I. Qed.

(** No code point of the list starts another one: a text that starts with
    one of them is taken to start with that one. *)
Lemma skipSpace_whiteSpace (w rest : list ascii) :
  w ∈ Js.whiteSpace -> Js.skipSpace Js.whiteSpace (w ++ rest) = Some rest.
Proof.
  intros Hw. unfold Js.whiteSpace in Hw. cbn [map] in Hw.
  repeat (apply elem_of_cons in Hw as [->|Hw]; [reflexivity|]).
  inversion Hw.
Qed.

Lemma skipSpaces_concat (spaces : list (list ascii)) (r : list ascii) (fuel : nat) :
  Forall (fun w => w ∈ Js.whiteSpace) spaces ->
  Js.skipSpace Js.whiteSpace r = None ->
  length (concat spaces ++ r) <= fuel ->
  Js.skipSpaces Js.whiteSpace fuel (concat spaces ++ r) = r.
Proof.
  intros Hsp Hr. revert fuel. induction Hsp as [|w spaces Hw _ IH]; intros fuel Hlen.
  - now apply skipSpaces_fixed.
  - change (concat (w :: spaces)) with (w ++ concat spaces) in *.
    rewrite <- app_assoc in *.
    assert (Hw0 : w <> []).
    { pose proof whiteSpace_nonempty as H. rewrite Forall_forall in H. now apply H. }
    rewrite length_app in Hlen.
    destruct fuel as [|fuel]; [destruct w; [congruence | simpl in Hlen; lia]|].
    cbn [Js.skipSpaces]. rewrite (skipSpace_whiteSpace w _ Hw). apply IH.
    destruct w; [congruence | simpl in Hlen; lia].
Qed.

Lemma reverse_concat (L : list (list ascii)) :
  reverse (concat L) = concat (reverse (map reverse L)).
Proof.
  induction L as [|x L IH]; [reflexivity|].
  simpl. rewrite reverse_app, IH, reverse_cons, concat_app. simpl.
  now rewrite app_nil_r.
Qed.

Lemma trimStartBytes_spec (l : list ascii) :
  exists spaces,
    Forall (fun w => w ∈ Js.whiteSpace) spaces
    /\ l = concat spaces ++ Js.trimStartBytes l
    /\ Forall (fun w => ~ w `prefix_of` Js.trimStartBytes l) Js.whiteSpace.
Proof.
  destruct (skipSpaces_spec Js.whiteSpace (length l) l whiteSpace_nonempty (le_n _))
    as (spaces & Hsp & Hl & Hnone).
  exists spaces. split; [exact Hsp|]. split; [exact Hl|]. now apply skipSpace_None.
Qed.

Lemma trimEndBytes_spec (l : list ascii) :
  exists spaces,
    Forall (fun w => w ∈ Js.whiteSpace) spaces
    /\ l = Js.trimEndBytes l ++ concat spaces
    /\ Forall (fun w => ~ w `suffix_of` Js.trimEndBytes l) Js.whiteSpace.
Proof.
  unfold Js.trimEndBytes.
  destruct (skipSpaces_spec (map reverse Js.whiteSpace) (length l) (reverse l)
              whiteSpace_reverse_nonempty) as (spaces & Hsp & Hl & Hnone).
  { now rewrite length_reverse. }
  set (q := Js.skipSpaces (map reverse Js.whiteSpace) (length l) (reverse l)) in *.
  exists (reverse (map reverse spaces)). split; [|split].
  - apply Forall_forall. intros w Hw.
    apply elem_of_reverse, list_elem_of_fmap in Hw as (x & -> & Hx).
    rewrite Forall_forall in Hsp. apply Hsp, list_elem_of_fmap in Hx as (w & -> & Hw).
    now rewrite reverse_involutive.
  - rewrite <- reverse_concat, <- reverse_app, <- Hl. now rewrite reverse_involutive.
  - apply skipSpace_None in Hnone. apply Forall_forall. intros w Hw Hsuf.
    rewrite Forall_forall in Hnone. apply (Hnone (reverse w)).
    + apply list_elem_of_fmap. now exists w.
    + apply suffix_prefix_reverse in Hsuf. now rewrite reverse_involutive in Hsuf.
Qed.

Lemma string_of_list_ascii_nil (l : list ascii) :
  string_of_list_ascii l = "" <-> l = [].
Proof. destruct l; simpl; split; congruence. Qed.

(** [trim] yields the empty text exactly on white space only. *)
Lemma trim_empty (s : string) : Js.trim s = "" <-> allSpaces s.
Proof.
  unfold Js.trim, allSpaces. rewrite string_of_list_ascii_nil.
  set (l := list_ascii_of_string s).
  destruct (trimStartBytes_spec l) as (sp1 & Hsp1 & Hl & Hpre).
  destruct (trimEndBytes_spec (Js.trimStartBytes l)) as (sp2 & Hsp2 & Hr & _).
  split.
  - intros E. rewrite E in Hr. simpl in Hr.
    destruct sp2 as [|w sp2].
    + exists sp1. split; [exact Hsp1|]. rewrite Hl at 1. rewrite Hr. simpl.
      now rewrite app_nil_r.
    + exfalso. apply Forall_cons in Hsp2 as [Hw _].
      rewrite Forall_forall in Hpre. apply (Hpre w Hw).
      rewrite Hr. simpl. now exists (concat sp2).
  - intros (spaces & Hsp & E).
    assert (Hs : Js.trimStartBytes l = []).
    { unfold Js.trimStartBytes. rewrite E at 2. rewrite <- (app_nil_r (concat spaces)).
      apply skipSpaces_concat; [exact Hsp | reflexivity |].
      rewrite app_nil_r, E. reflexivity. }
    rewrite Hs. reflexivity.
Qed.

(** Otherwise it yields a text without white space at either end. *)
Lemma trim_cases (s : string) :
  (allSpaces s /\ Js.trim s = "")
  \/ (~ allSpaces s /\ Js.trim s <> "" /\ tight (Js.trim s)).
Proof.
  destruct (string_dec (Js.trim s) "") as [E|Hne].
  - left. split; [now apply trim_empty | exact E].
  - right. split; [intros H; now apply trim_empty in H|]. split; [exact Hne|].
    split; [exact Hne|]. unfold Js.trim.
    rewrite list_ascii_of_string_of_list_ascii.
    set (l := list_ascii_of_string s).
    destruct (trimStartBytes_spec l) as (sp1 & _ & _ & Hpre).
    destruct (trimEndBytes_spec (Js.trimStartBytes l)) as (sp2 & _ & Hr & Hsuf).
    rewrite Forall_forall in Hpre, Hsuf. apply Forall_forall. intros w Hw. split.
    + intros Hp. apply (Hpre w Hw). rewrite Hr. now apply prefix_app_r.
    + now apply Hsuf.
Qed.

Lemma trim_tight (s : string) : tight s -> Js.trim s = s.
Proof.
  intros [_ Ht]. unfold Js.trim.
  set (l := list_ascii_of_string s) in *.
  assert (Hs : Js.trimStartBytes l = l).
  { apply skipSpaces_fixed, skipSpace_None.
    apply (Forall_impl _ _ _ Ht). tauto. }
  assert (He : Js.trimEndBytes l = l).
  { unfold Js.trimEndBytes. rewrite skipSpaces_fixed; [apply reverse_involutive|].
    apply skipSpace_None, Forall_forall. intros x Hx.
    apply list_elem_of_fmap in Hx as (w & -> & Hw).
    rewrite Forall_forall in Ht. destruct (Ht w Hw) as [_ Hsuf].
    intros Hp. apply Hsuf. apply suffix_prefix_reverse. exact Hp. }
  rewrite Hs, He. apply string_of_list_ascii_of_string.
Qed.

End Trim.

Section Form.
Import Types Constants Browser ChatInput Spec.

(** X1.  The form's [handleSubmit] does nothing when the prompt is white
    space only, in the sense of [trim] (tabs, spaces and line ends, and
    also the no-break space, the byte order mark and the other space
    separators and line terminators of Unicode), or the page is loading.
    Otherwise it calls [onSubmit] with the trimmed prompt, which is not
    empty and has no white space at either end, with all the files and the
    options; afterwards the form holds no prompt, no file and no preview,
    and every preview URL it held is revoked while no other object URL is
    touched. *)
Theorem form_handleSubmit_guard_and_reset
    (st : State) (isLoading : bool) (u : ObjectURLs) :
  let '(st', u', called) := handleSubmit st isLoading u in
  (allSpaces (prompt st) \/ isLoading = true ->
     called = None /\ st' = st /\ u' = u)
  /\ (~ allSpaces (prompt st) -> isLoading = false ->
        called = Some (Js.trim (prompt st), files st, options st)
        /\ tight (Js.trim (prompt st))
        /\ prompt st' = "" /\ files st' = [] /\ previewUrls st' = []
        /\ options st' = options st
        /\ nextHandle u' = nextHandle u
        /\ (forall url, url ∈ previewUrls st -> url ∉ live u')
        /\ (forall url, url ∉ previewUrls st -> (url ∈ live u' <-> url ∈ live u))).
Proof.
  unfold handleSubmit.
  destruct (trim_cases (prompt st)) as [[Hs Ht]|(Hs & Hne & Htight)].
  - rewrite Ht. simpl. split; [intros _; repeat split|].
    intros Hs'. contradiction.
  - apply truthy_nonempty in Hne. rewrite Hne. simpl.
    destruct isLoading; simpl.
    + split; [intros _; repeat split|]. discriminate.
    + split; [intros [H|H]; [contradiction | discriminate H]|]. intros _ _.
      destruct (revokeObjectURLs_spec (previewUrls st) u) as [Hn Hl].
      split; [reflexivity|]. split; [exact Htight|].
      repeat (split; [reflexivity|]). split; [exact Hn|]. split.
      * intros url Hin Hlive. apply Hl in Hlive. tauto.
      * intros url Hout. split; [intros Hlive; now apply Hl in Hlive|].
        intros Hlive. apply Hl. tauto.
Qed.

Lemma form_handleSubmit_guard_and_reset_witness :
  (handleSubmit Examples.filled false Examples.filledURLs).2
  = Some ("compare them", files Examples.filled, Examples.sampleOptions)
  /\ ("blob:1" ∉ live (handleSubmit Examples.filled false Examples.filledURLs).1.2)
  /\ (handleSubmit
        {| prompt := Examples.blankPrompt; files := files Examples.filled;
           previewUrls := previewUrls Examples.filled;
           options := Examples.sampleOptions |}
        false Examples.filledURLs).2
     = None.
Proof.
  pose proof (form_handleSubmit_guard_and_reset Examples.filled false
                Examples.filledURLs) as H.
  pose proof (form_handleSubmit_guard_and_reset
                {| prompt := Examples.blankPrompt; files := files Examples.filled;
                   previewUrls := previewUrls Examples.filled;
                   options := Examples.sampleOptions |}
                false Examples.filledURLs) as Hblank.
  destruct (handleSubmit Examples.filled false Examples.filledURLs)
    as [[st' u'] called].
  destruct (handleSubmit _ false Examples.filledURLs) as [[st2 u2] called2].
  destruct H as [_ H].
  destruct H as (Hc & _ & _ & _ & _ & _ & _ & Hr & _);
    [intros Hs; apply trim_empty in Hs; discriminate Hs | reflexivity|].
  destruct Hblank as [Hblank _].
  destruct Hblank as (Hn & _); [left; apply trim_empty; reflexivity|].
  split; [exact Hc|]. split; [|exact Hn]. apply Hr. simpl. right. left.
Defined.

Lemma length_filterIndexFrom {A B : Type} (keep : nat -> bool) (l : list A) (k : list B)
    (i : nat) :
  length l = length k ->
  length (filterIndexFrom keep i l) = length (filterIndexFrom keep i k).
Proof.
  revert k i. induction l as [|a l IH]; intros [|b k] i Hlen; simpl in *;
    try discriminate; [reflexivity|].
  injection Hlen as Hlen. destruct (keep i); simpl; [f_equal|]; now apply IH.
Qed.

Lemma Forall_filterIndexFrom {A : Type} (P : A -> Prop) (keep : nat -> bool)
    (l : list A) (i : nat) :
  Forall P l -> Forall P (filterIndexFrom keep i l).
Proof.
  intros H. revert i. induction H as [|a l Ha _ IH]; intros i; simpl; [constructor|].
  destruct (keep i); [constructor; [exact Ha|]|]; apply IH.
Qed.

Lemma scan_urls_from (selected : list File) (acc : Scan) :
  length (newFiles acc) = length (newUrls acc) ->
  length (newFiles (fold_left scanFile selected acc))
  = length (newUrls (fold_left scanFile selected acc)).
Proof.
  revert acc. induction selected as [|f rest IH]; intros acc Hacc; simpl; [exact Hacc|].
  apply IH. unfold scanFile.
  destruct (negb (includes ACCEPTED_IMAGE_TYPES (type f))); [exact Hacc|].
  destruct (MAX_FILE_SIZE_BYTES <? size f)%N; [exact Hacc|].
  destruct (createObjectURL f (urls acc)) as [url u]. simpl.
  rewrite !length_app. simpl. lia.
Qed.

Lemma handle_keeps (st : State) (u : ObjectURLs) (e : Event) :
  paired st -> Forall validFile (files st) ->
  paired (handle st u e).1 /\ Forall validFile (files (handle st u e).1).
Proof.
  unfold paired. intros Hp Hv. destruct e as [t|o|selected|index|busy]; simpl.
  - split; assumption.
  - split; assumption.
  - destruct selected as [selected|]; simpl; [|split; assumption].
    destruct (scan_from selected
                {| newFiles := []; newUrls := []; alerts := []; urls := u |})
      as [Hf _].
    pose proof (scan_urls_from selected
                  {| newFiles := []; newUrls := []; alerts := []; urls := u |} eq_refl)
      as Hl.
    unfold scanFiles. simpl in Hf. split.
    + rewrite !length_app. now rewrite Hp, Hl.
    + apply Forall_app. split; [exact Hv|]. rewrite Hf. apply Forall_forall.
      intros f Hin. now apply list_elem_of_filter in Hin as [Hin _].
  - split.
    + unfold withoutIndex. now apply length_filterIndexFrom.
    + unfold withoutIndex. now apply Forall_filterIndexFrom.
  - unfold handleSubmit.
    destruct (negb (Js.truthy (Js.trim (prompt st))) || busy); simpl;
      [split; assumption | split; [reflexivity | constructor]].
Qed.

(** X2.  Whatever the user does with the form, starting from the empty
    one, its files and its previews go in pairs, and every file it holds
    has an accepted media type and a size within the ceiling. *)
Theorem form_holds_valid_paired_files (events : list Event) (u : ObjectURLs) :
  paired (after events initial u).1
  /\ Forall validFile (files (after events initial u).1)
  /\ (showGenerationOptions (after events initial u).1 = true
      <-> length (previewUrls (after events initial u).1) <= 1).
Proof.
  assert (G : forall st u0, paired st -> Forall validFile (files st) ->
            paired (after events st u0).1
            /\ Forall validFile (files (after events st u0).1)).
  { unfold after. induction events as [|e events IH]; intros st u0 Hp Hv; simpl;
      [split; assumption|].
    destruct (handle_keeps st u0 e Hp Hv) as [Hp' Hv'].
    destruct (handle st u0 e) as [st1 u1]. now apply IH. }
  destruct (G initial u eq_refl (List.Forall_nil _)) as [Hp Hv].
  split; [exact Hp|]. split; [exact Hv|].
  unfold showGenerationOptions. rewrite <- Hp. apply Nat.leb_le.
Qed.

End Form.

Section RemoveFile.
Import Types Browser ChatInput Spec.

Lemma filterIndexFrom_past {A : Type} (target : nat) (l : list A) (from : nat) :
  target < from ->
  filterIndexFrom (fun i => negb (i =? target)%nat) from l = l.
Proof.
  revert from. induction l as [|a l IH]; intros from Hlt; simpl; [reflexivity|].
  destruct (Nat.eqb_spec from target); [lia|]. simpl. f_equal. apply IH. lia.
Qed.

Lemma filterIndexFrom_skip {A : Type} (l : list A) (from index : nat) :
  filterIndexFrom (fun i => negb (i =? from + index)%nat) from l
  = take index l ++ drop (S index) l.
Proof.
  revert from index. induction l as [|a l IH]; intros from index; simpl.
  - now destruct index.
  - destruct index as [|index]; simpl.
    + rewrite Nat.add_0_r, Nat.eqb_refl. simpl. rewrite drop_0.
      apply filterIndexFrom_past. lia.
    + destruct (Nat.eqb_spec from (from + S index)); [lia|]. simpl. f_equal.
      replace (from + S index) with (S from + index) by lia. apply IH.
Qed.

Lemma withoutIndex_skip {A : Type} (l : list A) (index : nat) :
  withoutIndex index l = take index l ++ drop (S index) l.
Proof. unfold withoutIndex. apply (filterIndexFrom_skip l 0 index). Qed.

Lemma zip_filterIndexFrom {A B : Type} (keep : nat -> bool) (l : list A) (k : list B)
    (i : nat) :
  zip (filterIndexFrom keep i l) (filterIndexFrom keep i k)
  = filterIndexFrom keep i (zip l k).
Proof.
  revert k i. induction l as [|a l IH]; intros [|b k] i; simpl; try reflexivity.
  - destruct (keep i); simpl; [reflexivity|].
    now destruct (filterIndexFrom keep (S i) l).
  - destruct (keep i); simpl; [f_equal|]; apply IH.
Qed.

(** X3.  [removeFile] takes out the file and the preview at the given
    position and nothing else: the others keep their order and stay paired
    with their previews, the prompt and the options are as before, and the
    removed preview URL is revoked, no other.  A position past the end
    leaves the files and the previews as they are. *)
Theorem removeFile_takes_out_one (index : nat) (st : State) (u : ObjectURLs) :
  let '(st', u') := removeFile index st u in
  files st' = take index (files st) ++ drop (S index) (files st)
  /\ previewUrls st' = take index (previewUrls st) ++ drop (S index) (previewUrls st)
  /\ zip (files st') (previewUrls st')
     = take index (zip (files st) (previewUrls st))
       ++ drop (S index) (zip (files st) (previewUrls st))
  /\ prompt st' = prompt st /\ options st' = options st
  /\ nextHandle u' = nextHandle u
  /\ (length (files st) <= index -> files st' = files st)
  /\ (length (previewUrls st) <= index ->
        previewUrls st' = previewUrls st
        /\ forall url, url ∈ live u' <-> (url ∈ live u /\ url <> "undefined"))
  /\ (index < length (files st) -> S (length (files st')) = length (files st))
  /\ (forall url, previewUrls st !! index = Some url ->
        (url ∉ live u')
        /\ forall other, other <> url -> (other ∈ live u' <-> other ∈ live u)).
Proof.
  unfold removeFile. cbn [files previewUrls prompt options].
  split; [apply withoutIndex_skip|]. split; [apply withoutIndex_skip|].
  split.
  { unfold withoutIndex. rewrite (zip_filterIndexFrom _ (files st) (previewUrls st) 0).
    apply (withoutIndex_skip (zip (files st) (previewUrls st))). }
  rewrite !withoutIndex_skip.
  split; [reflexivity|]. split; [reflexivity|].
  split; [destruct (previewUrls st !! index); reflexivity|].
  split.
  { intros Hge. rewrite take_ge by exact Hge. rewrite drop_ge by lia.
    apply app_nil_r. }
  split.
  { intros Hge. split.
    - rewrite take_ge by exact Hge. rewrite drop_ge by lia. apply app_nil_r.
    - apply lookup_ge_None in Hge. rewrite Hge. intros url. simpl.
      rewrite elem_of_difference, elem_of_singleton. tauto. }
  split.
  { intros Hlt. rewrite length_app, length_take, length_drop. lia. }
  intros url Hurl. rewrite Hurl. simpl. split.
  - rewrite elem_of_difference, elem_of_singleton. tauto.
  - intros other Hne. rewrite elem_of_difference, elem_of_singleton. tauto.
Qed.

Lemma removeFile_takes_out_one_witness :
  files (removeFile 0 Examples.filled Examples.filledURLs).1
  = drop 1 (files Examples.filled)
  /\ "blob:0" ∉ live (removeFile 0 Examples.filled Examples.filledURLs).2.
Proof.
  pose proof (removeFile_takes_out_one 0 Examples.filled Examples.filledURLs) as H.
  destruct (removeFile 0 Examples.filled Examples.filledURLs) as [st' u'].
  destruct H as (Hf & _ & _ & _ & _ & _ & _ & _ & _ & Hr).
  split; [exact Hf|]. now apply (Hr "blob:0").
Defined.

End RemoveFile.

(** ** Generation client, further *)

Section ClientReports.
Import Types GenAI GeminiService Spec.

Variables (ai : GoogleGenAI) (remote : Remote).

Lemma partImages_nonempty (p : Part) : Forall (fun d => d <> "") (partImages p).
Proof.
  unfold partImages. destruct (inlineData p) as [b|]; [|constructor].
  destruct (data b) as [d|]; [|constructor].
  destruct (Js.truthy d) eqn:Hd; [|constructor].
  constructor; [now apply truthy_nonempty | constructor].
Qed.

Lemma responseImages_nonempty (responses : list GenerateContentResponse) :
  Forall (fun d => d <> "") (flat_map responseImages responses).
Proof.
  apply Forall_forall. intros d Hd.
  apply list_elem_of_In, in_flat_map in Hd as (r & _ & Hd).
  unfold responseImages in Hd. destruct (candidates r) as [cs|]; [|destruct Hd].
  apply in_flat_map in Hd as (c & _ & Hd).
  apply in_flat_map in Hd as (p & _ & Hd).
  pose proof (partImages_nonempty p) as Hp. rewrite Forall_forall in Hp.
  apply Hp. now apply list_elem_of_In.
Qed.

(** X4.  [callGeminiApi] on a request payload writes to the console
    exactly when it rejects: one line, holding the value that was caught,
    and the rejection is an [Error] made from that value, with a message.
    When it resolves it has written nothing, and the result holds, in image
    mode, a list of images that is not empty and whose every image is not
    empty, and no text; in text mode, a text that is not empty, and no
    images.  On an argument without options it rejects at once, having
    sent and written nothing. *)
Theorem callGeminiApi_reports_what_it_rejects (params : RequestPayload) :
  let run := callGeminiApi ai remote (complete params) in
  match returned run with
  | inr result =>
      logged run = []
      /\ match responseType params with
         | image =>
             exists imgs, result = {| images := Some imgs; text := None |}
                          /\ imgs <> [] /\ Forall (fun d => d <> "") imgs
         | text_ =>
             exists t, result = {| images := None; text := Some t |} /\ t <> ""
         end
  | inl e =>
      exists caughtValue message,
        logged run = [[logString "Error calling Gemini API:"; logThrown caughtValue]]
        /\ e = rewrap caughtValue /\ e = Js.ErrorObj message /\ message <> ""
  end
  /\ forall newPrompt,
       issued (callGeminiApi ai remote (promptOnly newPrompt)) = []
       /\ logged (callGeminiApi ai remote (promptOnly newPrompt)) = []
       /\ exists message,
            returned (callGeminiApi ai remote (promptOnly newPrompt))
            = Js.rejected (Js.ErrorObj message).
Proof.
  assert (Hre : forall e, exists message,
             rewrap e = Js.ErrorObj message /\ message <> "").
  { intros [m|s]; simpl; eexists; (split; [reflexivity | discriminate]). }
  cbv zeta. split; [|intros newPrompt; simpl; eauto].
  unfold callGeminiApi.
  destruct (Promise.all _) as [e|responses]; simpl.
  { destruct (Hre e) as (message & Hm & Hne). exists e, message. now rewrite Hm. }
  destruct (collect params responses) as [e|result] eqn:Hc; simpl.
  { destruct (Hre e) as (message & Hm & Hne). exists e, message. now rewrite Hm. }
  split; [reflexivity|]. unfold collect in Hc.
  destruct (responseType params).
  - destruct (flat_map responseImages responses) as [|img imgs] eqn:Hi; simpl in Hc;
      [discriminate Hc|].
    injection Hc as <-. eexists. split; [reflexivity|]. split; [discriminate|].
    rewrite <- Hi. apply responseImages_nonempty.
  - destruct responses as [|first more]; [discriminate Hc|].
    destruct (GenAI.text first) as [t|]; [|discriminate Hc].
    destruct (Js.truthy t) eqn:Ht; [|discriminate Hc].
    injection Hc as <-. exists t. split; [reflexivity|]. now apply truthy_nonempty.
Qed.

End ClientReports.

(** ** Form and client together *)

Section HiddenOptions.
Import Types Browser Spec.
Import GeminiService(calls, call, buildRequest).

(** X5.  When the form hides the generation options (more than one file
    attached), the payload built from its files is in text mode and the
    options passed along have no effect: whatever they are, the same single
    call is sent.  When the form shows them (no file or one), the payload
    is in image mode, as many calls are sent as the chosen variations, and
    each carries the chosen aspect ratio. *)
Theorem options_matter_exactly_when_shown
    (form : ChatInput.State) (prompt : string)
    (options1 options2 : GenerationOptions) (payload1 payload2 : RequestPayload) :
  App.submitPayload prompt (ChatInput.files form) options1 = Js.resolved payload1 ->
  App.submitPayload prompt (ChatInput.files form) options2 = Js.resolved payload2 ->
  (ChatInput.showGenerationOptions form = false ->
     responseType payload1 = text_
     /\ calls payload1 = calls payload2
     /\ length (calls payload1) = 1)
  /\ (ChatInput.showGenerationOptions form = true ->
        responseType payload1 = image
        /\ length (calls payload1) = variationCount (variations options1)
        /\ GenAI.config (GenAI.request (call payload1))
           = Some {| GenAI.responseModalities := [GenAI.IMAGE];
                     GenAI.imageConfig :=
                       {| GenAI.aspectRatio := aspectRatio options1 |} |}).
Proof.
  unfold App.submitPayload, ChatInput.showGenerationOptions.
  destruct (App.filesToImageFiles (ChatInput.files form)) as [e|imgs];
    [discriminate|].
  intros [= <-] [= <-]. split; intros Hshow.
  - apply Nat.leb_gt in Hshow. apply Nat.ltb_lt in Hshow.
    unfold calls, call, GeminiService.variationCount, buildRequest,
      GeminiService.fullPrompt. simpl. rewrite Hshow. simpl.
    repeat split.
  - apply Nat.leb_le in Hshow. apply Nat.ltb_ge in Hshow.
    unfold calls, call, GeminiService.variationCount, buildRequest. simpl.
    rewrite Hshow. simpl. rewrite length_replicate. repeat split.
Qed.

Lemma options_matter_exactly_when_shown_witness :
  exists payload,
    App.submitPayload "compare them" (ChatInput.files Examples.filled)
      Examples.sampleOptions = Js.resolved payload
    /\ calls payload
       = calls {| prompt := "compare them"; images := images payload;
                  options := {| aspectRatio := ratio_1_1; variations := four;
                                negativePrompt := "" |};
                  responseType := responseType payload |}.
Proof.
  eexists. split; [reflexivity|].
  eapply (options_matter_exactly_when_shown Examples.filled "compare them"
            Examples.sampleOptions
            {| aspectRatio := ratio_1_1; variations := four; negativePrompt := "" |});
    reflexivity.
Defined.

End HiddenOptions.

(** ** Message components *)

Section Strings.

Lemma length_append (a b : string) :
  String.length (a +:+ b) = String.length a + String.length b.
Proof. induction a as [|c a IH]; simpl; [reflexivity | now rewrite IH]. Qed.

Lemma append_cancel_l (s a b : string) : s +:+ a = s +:+ b -> a = b.
Proof. induction s as [|c s IH]; simpl; [tauto|]. intros [= H]. now apply IH. Qed.

Lemma append_cancel_r (a b t : string) : a +:+ t = b +:+ t -> a = b.
Proof.
  revert b. induction a as [|c a IH]; intros [|d b] H; simpl in H.
  - reflexivity.
  - apply (f_equal String.length) in H. rewrite !length_append in H.
    simpl in H. lia.
  - apply (f_equal String.length) in H. rewrite !length_append in H.
    simpl in H. lia.
  - cbn [String.app append] in H. injection H as -> H. f_equal. now apply IH.
Qed.

End Strings.

Section BotMessageView.
Import Types Spec ChatMessage.
Import GeminiService(callGeminiApi, returned).

Lemma download_name_inj (message : Types.ChatMessage) (img1 img2 : string) (i j : nat) :
  download (handleDownload message img1 i) = download (handleDownload message img2 j) ->
  i = j.
Proof.
  unfold handleDownload. simpl. intros H.
  apply append_cancel_l, append_cancel_l, append_cancel_l in H.
  apply append_cancel_r, toString_inj in H. lia.
Qed.

(** X6.  The grid [BotMessage] renders has one cell per generated image,
    in order; a click on the picture zooms that image, its source is the
    PNG data URL of the image, and the names under which the images of one
    message are downloaded differ from one another. *)
Theorem botMessage_grid_cells (message : Types.ChatMessage) (imgs : list string) :
  generatedImages message = Some imgs ->
  exists cells,
    grid (BotMessage message) = Some (bool_decide (1 < length imgs), cells)
    /\ map zooms cells = imgs
    /\ map src cells = map App.handleImageClick imgs
    /\ (forall i cell, cells !! i = Some cell ->
          download (downloads cell)
          = "generated-image-" +:+ id message +:+ "-"
              +:+ Js.toString (N.of_nat (i + 1)) +:+ ".png"
          /\ href (downloads cell) = src cell)
    /\ NoDup (map (fun cell => download (downloads cell)) cells).
Proof.
  intros Hg. unfold BotMessage. rewrite Hg. simpl.
  set (cellOf := fun (index : nat) (img : string) =>
         {| src := "data:image/png;base64," +:+ img;
            alt := "Generated image " +:+ Js.toString (N.of_nat (index + 1));
            zooms := img; downloads := handleDownload message img index |}).
  exists (imap cellOf imgs).
  assert (Hlook : forall i cell, imap cellOf imgs !! i = Some cell ->
            exists img, imgs !! i = Some img /\ cell = cellOf i img).
  { intros i cell Hc. rewrite list_lookup_imap in Hc.
    destruct (imgs !! i) as [img|]; [|discriminate Hc].
    injection Hc as <-. eauto. }
  split.
  { f_equal. f_equal. destruct (Nat.ltb_spec 1 (length imgs)).
    - now rewrite bool_decide_eq_true_2.
    - rewrite bool_decide_eq_false_2; [reflexivity | lia]. }
  split.
  { apply list_eq. intros i. rewrite lookup_map, list_lookup_imap.
    now destruct (imgs !! i). }
  split.
  { apply list_eq. intros i. rewrite !lookup_map, list_lookup_imap.
    now destruct (imgs !! i). }
  split.
  { intros i cell Hc. destruct (Hlook i cell Hc) as (img & _ & ->).
    split; reflexivity. }
  apply NoDup_alt. intros i j name Hi Hj.
  rewrite lookup_map in Hi, Hj.
  destruct (imap cellOf imgs !! i) as [ci|] eqn:Hci; [|discriminate Hi].
  destruct (imap cellOf imgs !! j) as [cj|] eqn:Hcj; [|discriminate Hj].
  destruct (Hlook i ci Hci) as (img1 & _ & ->).
  destruct (Hlook j cj Hcj) as (img2 & _ & ->).
  simpl in Hi, Hj. injection Hi as Hi. injection Hj as Hj.
  apply (download_name_inj message img1 img2). simpl. congruence.
Qed.

Lemma botMessage_grid_cells_witness :
  exists cells,
    grid (BotMessage (App.successBotMessage "1700000000003" "1700000000000"
                        {| GeminiService.images := Some ["img0"; "img1"];
                           GeminiService.text := None |}))
    = Some (true, cells)
    /\ map (fun cell => download (downloads cell)) cells
       = ["generated-image-1700000000003-1.png"; "generated-image-1700000000003-2.png"].
Proof.
  destruct (botMessage_grid_cells
              (App.successBotMessage "1700000000003" "1700000000000"
                 {| GeminiService.images := Some ["img0"; "img1"];
                    GeminiService.text := None |})
              ["img0"; "img1"] eq_refl) as (cells & Hg & _).
  exists cells. split; [exact Hg|].
  vm_compute in Hg. injection Hg as <-. reflexivity.
Defined.

(** X7.  What [BotMessage] shows for the messages [processRequest] makes,
    the user identifier being non-empty as those of submissions are: for
    the loading message the "Generating..." row and nothing else; for the
    message put in place when the call has settled, never that row, and
    either the error text with a retry button for the user message and no
    result, or no error and a result, images or text. *)
Theorem botMessage_shows_one_state
    (ai : GenAI.GoogleGenAI) (remote : GenAI.Remote) (payload : PayloadObject)
    (botId userId : string) :
  userId <> "" ->
  BotMessage (App.loadingBotMessage botId userId)
  = {| generating := true; errorShown := None; textShown := None; grid := None |}
  /\ let view :=
       BotMessage (App.terminalBotMessage botId userId
                     (returned (callGeminiApi ai remote payload))) in
     generating view = false
     /\ ((exists message,
            errorShown view = Some (message, Some userId) /\ message <> ""
            /\ textShown view = None /\ grid view = None)
         \/ (errorShown view = None
             /\ ((exists two cells,
                    grid view = Some (two, cells) /\ cells <> []
                    /\ textShown view = None)
                 \/ (exists t, textShown view = Some t /\ t <> "" /\ grid view = None)))).
Proof.
  intros Hu. split; [reflexivity|]. cbv zeta.
  pose proof (callGeminiApi_returned_shape ai remote payload) as H.
  apply truthy_nonempty in Hu.
  destruct (returned (callGeminiApi ai remote payload)) as [e|result].
  - destruct H as (message & -> & Hne). split; [reflexivity|]. left.
    exists message. unfold BotMessage. simpl.
    pose proof Hne as Ht. apply truthy_nonempty in Ht. rewrite Ht, Hu.
    repeat split. exact Hne.
  - split; [reflexivity|]. right. split; [reflexivity|].
    destruct H as [(imgs & Hi & Hne & Ht)|(t & Ht & Hne & Hi)].
    + left. unfold BotMessage. simpl. rewrite Hi, Ht.
      eexists _, _. split; [reflexivity|]. split; [|reflexivity].
      destruct imgs; [contradiction | discriminate].
    + right. exists t. unfold BotMessage. simpl. rewrite Hi, Ht.
      pose proof Hne as Htr. apply truthy_nonempty in Htr. rewrite Htr.
      repeat split. exact Hne.
Qed.

Lemma botMessage_shows_one_state_witness :
  errorShown
    (BotMessage (App.terminalBotMessage "1700000000003" "1700000000000"
                   (returned (callGeminiApi Examples.sampleClient Examples.refusingRemote
                                (complete Examples.samplePayload)))))
  = Some ("API Error: quota exceeded", Some "1700000000000").
Proof.
  destruct (botMessage_shows_one_state Examples.sampleClient Examples.refusingRemote
              (complete Examples.samplePayload) "1700000000003" "1700000000000")
    as (_ & _ & [(message & He & _)|(He & _)]).
  - discriminate.
  - rewrite He. vm_compute in He. injection He as <-. reflexivity.
  - vm_compute in He. discriminate He.
Defined.

End BotMessageView.

Section UserMessageEdit.
Import Types Spec ChatMessage.

(** X8.  Saving an edit always leaves the editing mode.  It calls
    [onEdit] only when the trimmed text is not empty and is not the text
    the message has, white space being what [trim] strips (the no-break
    space and the other Unicode spaces and line terminators included); then
    it passes the identifier of the message and the trimmed text, which
    has no white space at either end and becomes the text of the message
    under the updater of [handleEdit].  Saving the edit as it opens, for a
    message whose text has no white space at either end, calls nothing. *)
Theorem handleEditSubmit_only_real_changes
    (message : Types.ChatMessage) (st : EditState) :
  let '(st', called) := handleEditSubmit message st in
  isEditing st' = false /\ editText st' = editText st
  /\ (called = None
      <-> allSpaces (editText st)
          \/ text message = Some (Js.trim (editText st)))
  /\ (forall target newPrompt,
        called = Some (target, newPrompt) ->
        target = id message /\ newPrompt = Js.trim (editText st)
        /\ tight newPrompt /\ text message <> Some newPrompt
        /\ text (App.editMessage target newPrompt message) = Some newPrompt)
  /\ (forall t, text message = Some t -> tight t ->
        (handleEditSubmit message (initial message)).2 = None).
Proof.
  unfold handleEditSubmit. cbn [fst snd]. split; [reflexivity|]. split; [reflexivity|].
  pose proof (trim_cases (editText st)) as Hcases.
  remember (Js.trim (editText st)) as trimmed eqn:Etr.
  assert (Hdiff : (match text message with
                   | Some t => negb (String.eqb trimmed t)
                   | None => true
                   end = false) <-> text message = Some trimmed).
  { destruct (text message) as [t|]; [|split; discriminate].
    destruct (String.eqb_spec trimmed t) as [->|Hne]; simpl; split; congruence. }
  split; [|split].
  - destruct Hcases as [[Hs Ht]|(Hs & Hne & _)].
    + rewrite Ht. simpl. split; [left; exact Hs | reflexivity].
    + apply truthy_nonempty in Hne. rewrite Hne. simpl.
      destruct (match text message with
                | Some t => negb (String.eqb trimmed t)
                | None => true
                end) eqn:Hd.
      * split; [discriminate|]. intros [H|H]; [contradiction|].
        apply Hdiff in H. congruence.
      * split; [intros _; right; now apply Hdiff | reflexivity].
  - intros target newPrompt.
    destruct Hcases as [[Hs Ht]|(Hs & Hne & Htight)].
    + rewrite Ht. simpl. discriminate.
    + apply truthy_nonempty in Hne. rewrite Hne. simpl.
      destruct (match text message with
                | Some t => negb (String.eqb trimmed t)
                | None => true
                end) eqn:Hd; [|discriminate].
      intros [= <- <-]. split; [reflexivity|]. split; [reflexivity|].
      split; [exact Htight|]. split.
      * intros H. apply Hdiff in H. congruence.
      * unfold App.editMessage. now rewrite String.eqb_refl.
  - intros t Ht Htight. unfold initial. rewrite Ht. simpl.
    assert (Hne : Js.truthy t = true).
    { destruct Htight as [Hne _]. now apply truthy_nonempty. }
    rewrite Hne. simpl. rewrite (trim_tight t Htight), Hne, String.eqb_refl. reflexivity.
Qed.

Lemma handleEditSubmit_only_real_changes_witness :
  (handleEditSubmit (App.userMessage "1700000000000" "a red kite" [] Examples.samplePayload)
     {| isEditing := true; editText := " a blue kite  " |}).2
  = Some ("1700000000000", "a blue kite")
  /\ (handleEditSubmit (App.userMessage "1700000000000" "a red kite" [] Examples.samplePayload)
        (initial (App.userMessage "1700000000000" "a red kite" [] Examples.samplePayload))).2
     = None
  /\ (handleEditSubmit (App.userMessage "1700000000000" "a red kite" [] Examples.samplePayload)
        {| isEditing := true; editText := Examples.paddedEdit |}).2
     = None.
Proof.
  pose proof (handleEditSubmit_only_real_changes
                (App.userMessage "1700000000000" "a red kite" [] Examples.samplePayload)
                {| isEditing := true; editText := " a blue kite  " |}) as H.
  pose proof (handleEditSubmit_only_real_changes
                (App.userMessage "1700000000000" "a red kite" [] Examples.samplePayload)
                {| isEditing := true; editText := Examples.paddedEdit |}) as Hpad.
  destruct (handleEditSubmit _ {| isEditing := true; editText := " a blue kite  " |})
    as [st' called] eqn:E.
  destruct (handleEditSubmit _ {| isEditing := true; editText := Examples.paddedEdit |})
    as [st2 called2].
  destruct H as (_ & _ & _ & _ & H). destruct Hpad as (_ & _ & Hpad & _).
  split; [|split].
  - vm_compute in E. injection E as _ <-. reflexivity.
  - apply (H "a red kite"); [reflexivity|].
    apply (bool_decide_unpack _). vm_compute. exact I.
  - apply Hpad. right. reflexivity.
Defined.

End UserMessageEdit.

(** ** Encoding the attached files *)

Section Encoding.
Import Types Browser App Spec.

Lemma split_uptoComma (s : string) :
  exists pieces, Js.split "," s = uptoComma s :: pieces
                 /\ (noComma s = true -> pieces = []).
Proof.
  induction s as [|c s (pieces & IH & Hn)]; simpl.
  - exists []. split; [reflexivity | tauto].
  - destruct (Ascii.eqb c ","); simpl.
    + exists (Js.split "," s). split; [reflexivity | discriminate].
    + rewrite IH. exists pieces. split; [reflexivity | exact Hn].
Qed.

Lemma split_header (header rest : string) :
  noComma header = true ->
  Js.split "," (header +:+ String "," rest) = header :: Js.split "," rest.
Proof.
  induction header as [|c header IH]; simpl; [reflexivity|].
  destruct (Ascii.eqb c ","); simpl; [discriminate|].
  intros H. now rewrite (IH H).
Qed.

Lemma uptoComma_noComma (s : string) : noComma s = true -> uptoComma s = s.
Proof.
  induction s as [|c s IH]; simpl; [reflexivity|].
  destruct (Ascii.eqb c ","); simpl; [discriminate|]. intros H. now rewrite IH.
Qed.

(** X9.  What the reader's data URL becomes: with no comma in it the
    encoded image has no data; with a header free of commas, the data is
    what follows the first comma, up to the next one, so all of it when it
    holds no comma; an unreadable file rejects.  In particular the data URL
    under which a generated image is shown decodes to that image. *)
Theorem readFile_decodes (file : File) :
  (dataURL file = None -> readFile file = Js.rejected (Js.NonError "[object ProgressEvent]"))
  /\ (forall result, dataURL file = Some result -> noComma result = true ->
        readFile file = Js.resolved {| base64 := None; mimeType := type file |})
  /\ (forall header payload,
        dataURL file = Some (header +:+ String "," payload) ->
        noComma header = true ->
        readFile file
        = Js.resolved {| base64 := Some (uptoComma payload); mimeType := type file |}
        /\ (noComma payload = true ->
            readFile file
            = Js.resolved {| base64 := Some payload; mimeType := type file |}))
  /\ (forall img, dataURL file = Some (handleImageClick img) -> noComma img = true ->
        readFile file = Js.resolved {| base64 := Some img; mimeType := type file |}).
Proof.
  assert (Hdec : forall header payload,
            dataURL file = Some (header +:+ String "," payload) ->
            noComma header = true ->
            readFile file
            = Js.resolved {| base64 := Some (uptoComma payload);
                             mimeType := type file |}).
  { intros header payload Hd Hh. unfold readFile. rewrite Hd, (split_header _ _ Hh).
    destruct (split_uptoComma payload) as (pieces & -> & _). reflexivity. }
  split; [|split; [|split]].
  - intros Hd. unfold readFile. now rewrite Hd.
  - intros result Hd Hn. unfold readFile. rewrite Hd.
    destruct (split_uptoComma result) as (pieces & -> & Hp). now rewrite (Hp Hn).
  - intros header payload Hd Hh. split; [now apply (Hdec header)|].
    intros Hp. rewrite (Hdec header payload Hd Hh). now rewrite uptoComma_noComma.
  - intros img Hd Hn.
    rewrite (Hdec "data:image/png;base64" img Hd eq_refl).
    now rewrite uptoComma_noComma.
Qed.

Lemma readFile_decodes_witness :
  readFile {| name := "a.png"; type := "image/png"; size := 2048;
              dataURL := Some "data:image/png;base64,AAAA" |}
  = Js.resolved {| base64 := Some "AAAA"; mimeType := "image/png" |}.
Proof.
  destruct (readFile_decodes
              {| name := "a.png"; type := "image/png"; size := 2048;
                 dataURL := Some "data:image/png;base64,AAAA" |}) as (_ & _ & H & _).
  destruct (H "data:image/png;base64" "AAAA" eq_refl eq_refl) as [_ H2].
  apply H2. reflexivity.
Defined.

(** X10.  [filesToImageFiles] encodes all the files or none: when every
    file can be read it resolves with one encoded image per file, in the
    order of the files, each from its own file and with its media type;
    when some file cannot be read it rejects with the reader's event. *)
Theorem filesToImageFiles_all_or_nothing (files : list File) :
  (Forall readable files ->
     exists imageFiles,
       filesToImageFiles files = Js.resolved imageFiles
       /\ map mimeType imageFiles = map type files
       /\ Forall2 (fun file imageFile => readFile file = Js.resolved imageFile)
            files imageFiles)
  /\ (~ Forall readable files ->
        filesToImageFiles files = Js.rejected (Js.NonError "[object ProgressEvent]"))
  /\ (forall imageFiles, filesToImageFiles files = Js.resolved imageFiles ->
        Forall readable files).
Proof.
  assert (Hcases : (Forall readable files /\
                    exists imageFiles,
                      filesToImageFiles files = Js.resolved imageFiles
                      /\ map mimeType imageFiles = map type files
                      /\ Forall2 (fun file imageFile =>
                                    readFile file = Js.resolved imageFile)
                           files imageFiles)
                   \/ (~ Forall readable files /\
                       filesToImageFiles files
                       = Js.rejected (Js.NonError "[object ProgressEvent]"))).
  { induction files as [|f rest IH]; simpl.
    - left. split; [constructor|]. exists []. repeat split. constructor.
    - assert (Hf : readFile f
                   = match dataURL f with
                     | Some result =>
                         Js.resolved {| base64 := nth_error (Js.split "," result) 1;
                                        mimeType := type f |}
                     | None => Js.rejected (Js.NonError "[object ProgressEvent]")
                     end) by reflexivity.
      rewrite Hf. clear Hf. destruct (dataURL f) as [result|] eqn:Hd.
      + destruct IH as [(Hr & imgs & -> & Hm & Hall)|(Hn & ->)].
        * left. split; [constructor; [unfold readable; rewrite Hd; eauto | exact Hr]|].
          eexists. split; [reflexivity|]. simpl. rewrite Hm.
          split; [reflexivity|]. constructor; [|exact Hall].
          unfold readFile. now rewrite Hd.
        * right. split; [|reflexivity]. intros H. apply Hn. now inversion H.
      + right. split; [|reflexivity]. intros H. inversion H as [|? ? [d Hf] ?]; subst.
        congruence. }
  split; [|split].
  - intros Hr. destruct Hcases as [[_ H]|[Hn _]]; [exact H | contradiction].
  - intros Hn. destruct Hcases as [[Hr _]|[_ H]]; [contradiction | exact H].
  - intros imgs Hi. destruct Hcases as [[Hr _]|[_ H]]; [exact Hr|].
    rewrite H in Hi. discriminate Hi.
Qed.

Lemma filesToImageFiles_all_or_nothing_witness :
  filesToImageFiles (Examples.unreadable :: Examples.picked)
  = Js.rejected (Js.NonError "[object ProgressEvent]")
  /\ exists imageFiles, filesToImageFiles Examples.picked = Js.resolved imageFiles.
Proof.
  split.
  - apply (filesToImageFiles_all_or_nothing (Examples.unreadable :: Examples.picked)).
    intros H. inversion H as [|? ? [d Hd] ?]. discriminate Hd.
  - destruct (filesToImageFiles_all_or_nothing Examples.picked) as [H _].
    destruct H as (imgs & Hi & _); [repeat constructor; eexists; reflexivity|].
    eauto.
Defined.

End Encoding.

(** ** Reloading the page *)

Section Reload.
Import Types Browser App Spec.
Import GeminiService(logString, logThrown).




End Reload.

(** ** User messages of reachable pages *)

Section Requests.
Import Types Browser App Spec.

Lemma createObjectURLs_length (files : list File) (u : ObjectURLs) :
  length (createObjectURLs files u).1 = length files.
Proof.
  revert u. induction files as [|f rest IH]; intros u; simpl; [reflexivity|].
  specialize (IH {| nextHandle := nextHandle u + 1;
                    live := {["blob:" +:+ Js.toString (nextHandle u)]} ∪ live u |}).
  destruct (createObjectURLs rest _) as [urls u2]. simpl in *. now rewrite IH.
Qed.

Lemma carriesRequest_bot (m : ChatMessage) : role m = bot -> carriesRequest m.
Proof. intros Hb Hu. congruence. Qed.

Lemma carriesRequest_replaceById (target : string) (r : ChatMessage)
    (l : list ChatMessage) :
  role r = bot -> Forall carriesRequest l -> Forall carriesRequest (replaceById target r l).
Proof.
  intros Hr Hl. unfold replaceById. induction Hl as [|m l Hm _ IH]; simpl;
    constructor; try exact IH.
  destruct (String.eqb (id m) target); [now apply carriesRequest_bot | exact Hm].
Qed.

Lemma carriesRequest_editMessage (userId newPrompt : string) (m : ChatMessage) :
  carriesRequest m -> carriesRequest (editMessage userId newPrompt m).
Proof.
  intros Hm. unfold editMessage. destruct (String.eqb (id m) userId); [|exact Hm].
  intros Hu. destruct (Hm Hu) as (r & urls & Hp & Ht & Hi & Hlen & Hrt & Hl & Hlink).
  cbn in *. rewrite Hp. cbn.
  eexists _, urls. split; [reflexivity|]. cbn. repeat split; assumption.
Qed.

Lemma carriesRequest_withoutLoading (l : list ChatMessage) :
  Forall carriesRequest l -> Forall carriesRequest (withoutLoading l).
Proof.
  rewrite withoutLoading_filter, !Forall_forall.
  intros H m Hm. apply list_elem_of_filter in Hm as [_ Hm]. now apply H.
Qed.

Lemma processRequest_begin_carries
    (ai : GenAI.GoogleGenAI) (remote : GenAI.Remote) (payload : PayloadObject)
    (userId : string) (existing : option string) (now : N) (p : Page) :
  Forall carriesRequest (messages p) ->
  Forall carriesRequest
    (messages (processRequest_begin ai remote payload userId existing now p).1)
  /\ localStorage (processRequest_begin ai remote payload userId existing now p).1
     = localStorage p.
Proof.
  intros Hp.
  destruct (processRequest_begin_spec ai remote payload userId existing now p)
    as (_ & Hm & Hs & _).
  rewrite Hm, Hs. split; [|reflexivity].
  destruct (Js.truthy_opt existing).
  - now apply carriesRequest_replaceById.
  - apply Forall_app. split; [exact Hp|]. constructor; [|constructor].
    now apply carriesRequest_bot.
Qed.

Lemma submitPayload_resolved (prompt : string) (files : list File)
    (options : GenerationOptions) (rp : RequestPayload) :
  submitPayload prompt files options = Js.resolved rp ->
  Types.prompt rp = prompt /\ length (images rp) = length files
  /\ responseType rp = (if (1 <? length (images rp))%nat then text_ else image).
Proof.
  unfold submitPayload. destruct (filesToImageFiles files) as [e|imgs] eqn:Hf;
    [discriminate|].
  intros [= <-]. cbn. apply filesToImageFiles_length in Hf.
  rewrite Hf. repeat split.
Qed.

Lemma step_carryRequests (p q : Page) : step p q -> carryRequests p -> carryRequests q.
Proof.
  intros Hstep [Hm Hs]. unfold carryRequests.
  destruct Hstep as [ai remote form prompt files options now elapsed p _
                    | ai remote userId now p
                    | ai remote eager userId newPrompt now p
                    | pending run p
                    | p
                    | p].
  - unfold formCleared, setObjectURLs. cbn [messages localStorage].
    rewrite handleSubmit_begin_storage. split; [|exact Hs].
    destruct (submitPayload prompt files options) as [e|rp] eqn:Hp.
    + destruct (handleSubmit_begin_rejected ai remote prompt files options now elapsed
                  p e Hp) as (q & Hq & Hmq & _).
      rewrite Hq. cbn [fst]. rewrite Hmq. exact Hm.
    + destruct (handleSubmit_begin_resolved ai remote prompt files options now elapsed
                  p rp Hp) as (q & Hq & Hmq & _).
      rewrite Hq. cbn [fst]. rewrite Hmq.
      destruct (submitPayload_resolved prompt files options rp Hp) as (H1 & H2 & H3).
      apply Forall_app. split; [exact Hm|].
      constructor; [|constructor; [now apply carriesRequest_bot | constructor]].
      intros _. exists rp, (createObjectURLs files (objectURLs p)).1. cbn.
      split; [reflexivity|]. split; [now rewrite H1|]. split; [reflexivity|].
      split; [now rewrite createObjectURLs_length, H2|].
      split; [exact H3|]. split; reflexivity.
  - unfold handleRetry_begin.
    destruct (findById userId (messages p) ≫= requestPayload) as [payload|];
      [|split; [exact Hm | exact Hs]].
    destruct (findBotFor userId (messages p)) as [b|];
      [|split; [exact Hm | exact Hs]].
    destruct (processRequest_begin_carries ai remote payload userId (Some (id b)) now p Hm)
      as [H1 H2].
    destruct (processRequest_begin _ _ _ _ _ _ _) as [q pending]. cbn [fst] in *.
    rewrite H2. split; [exact H1 | exact Hs].
  - unfold handleEdit_begin.
    set (p1 := setMessages (map (editMessage userId newPrompt)) p).
    assert (Hm1 : Forall carriesRequest (messages p1)).
    { cbn. apply Forall_forall. intros m Hin.
      apply list_elem_of_In, in_map_iff in Hin as (m0 & <- & Hin).
      apply carriesRequest_editMessage. rewrite Forall_forall in Hm.
      now apply Hm, list_elem_of_In. }
    destruct (if eager then capturedPayload userId (messages p) else None)
      as [original|];
      [|split; [exact Hm1 | exact Hs]].
    destruct (findBotFor userId (messages p)) as [b|];
      [|split; [exact Hm1 | exact Hs]].
    destruct (processRequest_begin_carries ai remote (withPrompt (Some original) newPrompt)
                userId (Some (id b)) now p1 Hm1) as [H1 H2].
    destruct (processRequest_begin _ _ _ _ _ _ _) as [q pending]. cbn [fst] in *.
    rewrite H2. split; [exact H1 | exact Hs].
  - split; [|exact Hs]. cbn.
    apply carriesRequest_replaceById; [|exact Hm]. apply terminalBotMessage_fields.
  - unfold saveEffect.
    destruct (0 <? length (withoutLoading (messages p)))%nat; cbn.
    + split; [exact Hm|]. intros saved. rewrite lookup_insert_eq. intros [= <-].
      now apply carriesRequest_withoutLoading.
    + split; [exact Hm|]. intros saved. rewrite lookup_delete_eq. discriminate.
  - unfold loadEffect. cbn [localStorage mount].
    destruct (localStorage p !! "chatHistory") as [[saved|raw]|] eqn:Hl; cbn.
    + split; [apply carriesRequest_withoutLoading; now apply Hs|].
      intros saved'. rewrite Hl. intros [= <-]. now apply Hs.
    + destruct (Js.truthy raw); cbn.
      * split; [constructor|]. intros saved. rewrite lookup_delete_eq. discriminate.
      * split; [constructor|]. intros saved. rewrite Hl. discriminate.
    + split; [constructor|]. intros saved. rewrite Hl. discriminate.
Qed.

Lemma reachable_carryRequests (p : Page) : reachable p -> carryRequests p.
Proof.
  induction 1 as [u|p q _ IH Hstep].
  - split; [constructor|]. intros saved. cbn. rewrite lookup_empty. discriminate.
  - now apply (step_carryRequests p q).
Qed.

(** X12.  On every page the application reaches, whatever was submitted,
    retried, edited, settled, saved and reloaded on the way, every user
    message, shown or stored, carries a complete request payload whose
    prompt is the text the message shows, with one preview per image and
    the response type that goes with the number of images; it is never
    loading and refers to no other message.  So the save effect stores
    every user message of the page, and a retry of a user message finds
    its payload. *)
Theorem reachable_users_carry_requests (p : Page) :
  reachable p ->
  Forall carriesRequest (messages p)
  /\ (forall saved, localStorage p !! "chatHistory" = Some (json saved) ->
        Forall carriesRequest saved)
  /\ (forall m, m ∈ messages p -> role m = user ->
        exists saved,
          localStorage (saveEffect p) !! "chatHistory" = Some (json saved)
          /\ m ∈ saved)
  /\ (forall userId target,
        findById userId (messages p) = Some target -> role target = user ->
        exists r,
          findById userId (messages p) ≫= requestPayload = Some (complete r)
          /\ text target = Some (prompt r)).
Proof.
  intros H. destruct (reachable_carryRequests p H) as [Hm Hs]. split; [exact Hm|]. split; [exact Hs|]. split.
  - intros m Hin Hu. rewrite Forall_forall in Hm.
    destruct (Hm m Hin Hu) as (r & urls & _ & _ & _ & _ & _ & Hl & _).
    assert (Hkept : m ∈ withoutLoading (messages p)).
    { rewrite withoutLoading_filter. apply list_elem_of_filter.
      split; [|exact Hin]. unfold notLoading. rewrite Hl. discriminate. }
    unfold saveEffect.
    destruct (withoutLoading (messages p)) as [|m0 kept] eqn:Hk; [inversion Hkept|].
    cbn. rewrite lookup_insert_eq. eauto.
  - intros userId target Hf Hu. rewrite Hf. cbn.
    apply findById_some in Hf as [Hin _]. rewrite Forall_forall in Hm.
    destruct (Hm target Hin Hu) as (r & urls & Hp & Ht & _). eauto.
Qed.

Lemma reachable_users_carry_requests_witness :
  Forall carriesRequest (messages Examples.answered)
  /\ exists r,
       findById "1700000000000" (messages Examples.answered) ≫= requestPayload
       = Some (complete r)
       /\ prompt r = "a red kite".
Proof.
  destruct (reachable_users_carry_requests Examples.answered answered_reachable)
    as (Hall & _ & _ & Hfind).
  split; [exact Hall|].
  destruct (Hfind "1700000000000" _ eq_refl eq_refl) as (r & Hr & Ht).
  exists r. split; [exact Hr|]. cbn in Ht. now injection Ht.
Defined.

End Requests.

(** ** Object URLs of a submission *)

Section Previews.
Import Types Browser App Spec.

Lemma blob_inj (n k : N) :
  "blob:" +:+ Js.toString n = "blob:" +:+ Js.toString k -> n = k.
Proof. cbn. intros [= H]. now apply toString_inj. Qed.

Lemma createObjectURLs_spec (files : list File) (u : ObjectURLs) :
  nextHandle (createObjectURLs files u).2 = (nextHandle u + N.of_nat (length files))%N
  /\ (forall i url,
        (createObjectURLs files u).1 !! i = Some url ->
        url = "blob:" +:+ Js.toString (nextHandle u + N.of_nat i))
  /\ (forall url,
        url ∈ live (createObjectURLs files u).2
        <-> url ∈ (createObjectURLs files u).1 \/ url ∈ live u).
Proof.
  revert u. induction files as [|f rest IH]; intros u.
  - cbn. split; [lia|]. split; [intros i url H; destruct i; discriminate H|].
    intros url. split; [tauto|]. intros [H|H]; [inversion H | exact H].
  - cbn [createObjectURLs createObjectURL].
    set (u1 := {| nextHandle := nextHandle u + 1;
                  live := {["blob:" +:+ Js.toString (nextHandle u)]} ∪ live u |}).
    destruct (IH u1) as (Hn & Hi & Hl).
    destruct (createObjectURLs rest u1) as [urls u2]. cbn [fst snd] in *.
    split; [rewrite Hn; cbn; lia|]. split.
    + intros [|i] url; cbn.
      * intros [= <-]. now rewrite N.add_0_r.
      * intros H. rewrite (Hi i url H). cbn. f_equal. f_equal. lia.
    + intros url. rewrite Hl. cbn. rewrite elem_of_union, elem_of_singleton, elem_of_cons.
      tauto.
Qed.

Lemma createObjectURLs_NoDup (files : list File) (u : ObjectURLs) :
  NoDup (createObjectURLs files u).1.
Proof.
  destruct (createObjectURLs_spec files u) as (_ & Hi & _).
  apply NoDup_alt. intros i j url H1 H2.
  apply Hi in H1, H2. rewrite H1 in H2. apply blob_inj in H2. lia.
Qed.

Lemma createObjectURLs_fresh (files : list File) (u : ObjectURLs) (url : string) :
  url ∈ (createObjectURLs files u).1 -> ~ handedOutBefore (nextHandle u) url.
Proof.
  destruct (createObjectURLs_spec files u) as (_ & Hi & _).
  intros Hin (k & Hk & E). apply list_elem_of_lookup in Hin as [i Hin].
  apply Hi in Hin. rewrite Hin in E. apply blob_inj in E. lia.
Qed.

Lemma handleSubmit_begin_objectURLs
    (ai : GenAI.GoogleGenAI) (remote : GenAI.Remote)
    (prompt : string) (files : list File) (options : GenerationOptions)
    (now elapsed : N) (p : Page) :
  objectURLs (handleSubmit_begin ai remote prompt files options now elapsed p).1
  = (createObjectURLs files (objectURLs p)).2.
Proof.
  unfold handleSubmit_begin.
  destruct (createObjectURLs files (objectURLs p)) as [urls u].
  destruct (submitPayload prompt files options); reflexivity.
Qed.

Lemma formCleared_objectURLs (form : ChatInput.State) (p : Page) :
  nextHandle (objectURLs (formCleared form p)) = nextHandle (objectURLs p)
  /\ (forall url, url ∈ live (objectURLs (formCleared form p)) -> url ∈ live (objectURLs p))
  /\ (forall url, url ∈ live (objectURLs p) -> url ∉ ChatInput.previewUrls form ->
        url ∈ live (objectURLs (formCleared form p))).
Proof.
  unfold formCleared, ChatInput.handleSubmit. cbn [objectURLs setObjectURLs].
  destruct (negb (Js.truthy (Js.trim (ChatInput.prompt form))) || false);
    cbn; [tauto|].
  destruct (revokeObjectURLs_spec (ChatInput.previewUrls form) (objectURLs p)) as [Hn Hl].
  split; [exact Hn|]. split.
  - intros url H. now apply Hl in H.
  - intros url H1 H2. apply Hl. now split.
Qed.

(** X13.  [handleSubmit] hands out one object URL per file, all different,
    before it reads the files, and revokes none: whatever was live stays
    live, and the new URLs are live whether the files can be read or not.
    When they cannot, the page shows no new message, so the new URLs are
    referred to nowhere; when they can, they are the previews of the new
    user message.  None of them was handed out before, so when the form,
    after the submission, revokes the previews it held (URLs handed out
    earlier), the previews of the new message stay live. *)
Theorem handleSubmit_keeps_previews_live
    (ai : GenAI.GoogleGenAI) (remote : GenAI.Remote) (form : ChatInput.State)
    (prompt : string) (files : list File) (options : GenerationOptions)
    (now elapsed : N) (p : Page) :
  let begun := handleSubmit_begin ai remote prompt files options now elapsed p in
  let q := formCleared form begun.1 in
  let urls := (createObjectURLs files (objectURLs p)).1 in
  length urls = length files /\ NoDup urls
  /\ nextHandle (objectURLs q) = (nextHandle (objectURLs p) + N.of_nat (length files))%N
  /\ (forall url, url ∈ live (objectURLs p) -> url ∈ live (objectURLs begun.1))
  /\ (forall url, url ∈ urls -> url ∈ live (objectURLs begun.1))
  /\ (forall url, url ∈ urls -> ~ handedOutBefore (nextHandle (objectURLs p)) url)
  /\ (handedOut (objectURLs p) -> forall url, url ∈ urls -> url ∉ live (objectURLs p))
  /\ (~ Forall readable files -> messages q = messages p)
  /\ (Forall readable files ->
        exists m waiting,
          messages q = messages p ++ [m; waiting]
          /\ role m = user /\ imagePreviewUrls m = Some urls)
  /\ (Forall (handedOutBefore (nextHandle (objectURLs p))) (ChatInput.previewUrls form) ->
        forall url, url ∈ urls -> url ∈ live (objectURLs q)).
Proof.
  intros begun q urls. subst begun q urls.
  destruct (createObjectURLs_spec files (objectURLs p)) as (Hn & Hi & Hl).
  pose proof (handleSubmit_begin_objectURLs ai remote prompt files options now elapsed p)
    as Hu.
  destruct (formCleared_objectURLs form
              (handleSubmit_begin ai remote prompt files options now elapsed p).1)
    as (Hcn & _ & Hkeep).
  split; [apply createObjectURLs_length|]. split; [apply createObjectURLs_NoDup|].
  split; [now rewrite Hcn, Hu|].
  split; [intros url H; rewrite Hu; apply Hl; now right|].
  split; [intros url H; rewrite Hu; apply Hl; now left|].
  split; [intros url H; now apply (createObjectURLs_fresh files)|].
  split.
  { intros Hout url Hin Hlive. apply Hout in Hlive.
    now apply (createObjectURLs_fresh files (objectURLs p) url). }
  split.
  { intros Hnot. unfold formCleared, setObjectURLs. cbn [messages].
    destruct (submitPayload prompt files options) as [e|rp] eqn:Hp.
    - destruct (handleSubmit_begin_rejected ai remote prompt files options now elapsed
                  p e Hp) as (q & Hq & Hmq & _).
      rewrite Hq. cbn [fst]. exact Hmq.
    - exfalso. apply Hnot. unfold submitPayload in Hp.
      destruct (filesToImageFiles files) as [e|imgs] eqn:Hf; [discriminate Hp|].
      clear -Hf. revert imgs Hf. induction files as [|f rest IH]; intros imgs Hf;
        [constructor|].
      cbn in Hf. unfold readFile in Hf.
      destruct (dataURL f) as [d|] eqn:Hd; [|discriminate Hf].
      destruct (filesToImageFiles rest) as [e|imgs'] eqn:Hr; [discriminate Hf|].
      constructor; [unfold readable; rewrite Hd; eauto | now apply (IH imgs')]. }
  split.
  { intros Hread. unfold formCleared, setObjectURLs. cbn [messages].
    destruct (filesToImageFiles_readable files Hread) as (imgs & Hf & _).
    assert (Hp : submitPayload prompt files options
                 = Js.resolved
                     {| Types.prompt := prompt; images := imgs; Types.options := options;
                        responseType := if (1 <? length files)%nat then text_ else image |}).
    { unfold submitPayload. now rewrite Hf. }
    destruct (handleSubmit_begin_resolved ai remote prompt files options now elapsed
                p _ Hp) as (q & Hq & Hmq & _).
    rewrite Hq. cbn [fst]. rewrite Hmq. eexists _, _.
    split; [reflexivity|]. split; reflexivity. }
  intros Hform url Hin. apply Hkeep.
  - rewrite Hu. apply Hl. now left.
  - intros Hheld. rewrite Forall_forall in Hform. apply Hform in Hheld.
    now apply (createObjectURLs_fresh files (objectURLs p) url).
Qed.

Lemma handleSubmit_keeps_previews_live_witness :
  Forall
    (fun url =>
       url ∈ live (objectURLs
                     (formCleared Examples.filled
                        (handleSubmit_begin Examples.sampleClient Examples.sampleRemote
                           "compare them" (ChatInput.files Examples.filled)
                           Examples.sampleOptions 1700000000000 2
                           Examples.composing).1)))
    ["blob:2"; "blob:3"].
Proof.
  destruct (handleSubmit_keeps_previews_live Examples.sampleClient Examples.sampleRemote
              Examples.filled "compare them" (ChatInput.files Examples.filled)
              Examples.sampleOptions 1700000000000 2 Examples.composing)
    as (_ & _ & _ & _ & _ & _ & _ & _ & _ & H).
  assert (Hform : Forall (handedOutBefore (nextHandle (objectURLs Examples.composing)))
                    (ChatInput.previewUrls Examples.filled)).
  { repeat constructor.
    - exists 0%N. split; [reflexivity | reflexivity].
    - exists 1%N. split; [reflexivity | reflexivity]. }
  constructor; [apply (H Hform); left|].
  constructor; [apply (H Hform); right; left | constructor].
Defined.

End Previews.

(** ** Image viewer: edge cases of the wheel, and dragging *)

Section Viewer.
Import ImageModal Spec.

Lemma SFcompare_refl_finite (s : bool) (m : positive) (e : Z) :
  SFcompare (S754_finite s m e) (S754_finite s m e) = Some Eq.
Proof.
  destruct s; cbn; rewrite Z.compare_refl, Pos.compare_cont_refl; reflexivity.
Qed.

Lemma SFleb_antisym (a b : spec_float) :
  SFleb a b = true -> SFleb b a = true -> SFeqb a b = true.
Proof.
  unfold SFleb, SFeqb. rewrite (SFcompare_swap a b).
  destruct (SFcompare a b) as [[ | | ]|]; cbn; congruence.
Qed.

Lemma SFeqb_sym (a b : spec_float) : SFeqb a b = true -> SFeqb b a = true.
Proof.
  unfold SFeqb. rewrite (SFcompare_swap a b).
  destruct (SFcompare a b) as [[ | | ]|]; cbn; congruence.
Qed.

Lemma handleWheel_still (s : bool) (prevZoom : spec_float) :
  clamped prevZoom -> SFeqb (handleWheel (S754_zero s) prevZoom) prevZoom = true.
Proof.
  intros Hz. destruct (clamped_finite prevZoom Hz) as (m & e & ->).
  destruct Hz as [Hlo Hhi]. unfold Number.leb in *.
  assert (Hrefl : SFeqb (S754_finite false m e) (S754_finite false m e) = true)
    by (unfold SFeqb; now rewrite SFcompare_refl_finite).
  unfold handleWheel.
  replace (Number.sub (S754_finite false m e)
             (Number.mul (Number.mul (S754_zero s) Number.lit_0_1) Number.lit_0_1))
    with (S754_finite false m e) by (destruct s; reflexivity).
  destruct (min_cases (S754_finite false m e) Number.lit_5 eq_refl eq_refl)
    as [[-> _]|[-> H5]].
  - destruct (max_cases Number.lit_0_5 (S754_finite false m e) eq_refl eq_refl)
      as [[-> H]|[-> _]]; [|exact Hrefl].
    now apply SFleb_antisym.
  - replace (Number.max Number.lit_0_5 Number.lit_5) with Number.lit_5 by reflexivity.
    now apply SFleb_antisym.
Qed.

Lemma handleWheel_nan (deltaY prevZoom : spec_float) :
  Number.isNaN deltaY = true \/ Number.isNaN prevZoom = true ->
  handleWheel deltaY prevZoom = S754_nan.
Proof.
  intros [H|H].
  - destruct deltaY; try discriminate H. destruct prevZoom; reflexivity.
  - destruct prevZoom; try discriminate H. unfold handleWheel.
    destruct (Number.mul _ _); reflexivity.
Qed.

(** X14.  The wheel at its edges.  A [deltaY] that is not a number makes
    the zoom not a number, and from then on the zoom stays so whatever the
    wheel does.  On a zoom between [0.5] and [5]: an infinite [deltaY] sets
    the zoom to [0.5] when positive and to [5] when negative, and a
    [deltaY] of zero, of either sign, leaves the value of the zoom as it
    was. *)
Theorem handleWheel_edge_cases (prevZoom : spec_float) :
  handleWheel S754_nan prevZoom = S754_nan
  /\ (forall deltas, zooms deltas S754_nan = replicate (length deltas) S754_nan)
  /\ (clamped prevZoom ->
        handleWheel (S754_infinity false) prevZoom = Number.lit_0_5
        /\ handleWheel (S754_infinity true) prevZoom = Number.lit_5
        /\ SFeqb (handleWheel (S754_zero false) prevZoom) prevZoom = true
        /\ SFeqb (handleWheel (S754_zero true) prevZoom) prevZoom = true).
Proof.
  split; [apply handleWheel_nan; now left|]. split.
  - induction deltas as [|d deltas IH]; cbn [zooms]; [reflexivity|].
    rewrite (handleWheel_nan d S754_nan) by now right.
    cbn. now rewrite IH.
  - intros Hz. split; [|split; [|split; now apply handleWheel_still]].
    + destruct (clamped_finite prevZoom Hz) as (m & e & ->). reflexivity.
    + destruct (clamped_finite prevZoom Hz) as (m & e & ->). reflexivity.
Qed.

Lemma handleWheel_edge_cases_witness :
  handleWheel (S754_infinity false) initialZoom = Number.lit_0_5
  /\ SFeqb (handleWheel (S754_zero true) initialZoom) initialZoom = true.
Proof.
  destruct (handleWheel_edge_cases initialZoom) as (_ & _ & H).
  destruct H as (H1 & _ & _ & H2); [split; reflexivity|].
  split; [exact H1 | exact H2].
Defined.

Lemma handle_zoom (st : State) (e : Event) :
  zoom (handle st e)
  = fold_left (fun z d => handleWheel d z) (wheelDeltas [e]) (zoom st).
Proof.
  destruct e; cbn; try reflexivity.
  unfold handleMouseMove. now destruct (negb (isDragging st)).
Qed.

Lemma handle_at_rest (st : State) (e : Event) :
  isDragging st = false -> isMouseDown e = false ->
  translate (handle st e) = translate st /\ isDragging (handle st e) = false.
Proof.
  intros Hd He. destruct e; cbn; try discriminate He; try (split; [reflexivity|]);
    try exact Hd; try reflexivity.
  unfold handleMouseMove. rewrite Hd. cbn. split; [reflexivity | exact Hd].
Qed.

(** X15.  Zooming and panning do not interfere.  After any events of the
    viewer the zoom is what the wheel events among them, applied in their
    order, make of it; so it stays between [0.5] and [5] when it was and
    each wheel event carries a number.  The picture moves only during a
    drag: from a viewer that is not dragging, events without a press of
    the mouse button leave the translation where it was, and the viewer
    not dragging; and a release of the button, or the pointer leaving,
    ends the drag. *)
Theorem viewer_zoom_and_pan (events : list Event) (st : State) :
  zoom (after events st)
  = fold_left (fun z d => handleWheel d z) (wheelDeltas events) (zoom st)
  /\ (Forall (fun deltaY => Number.isNaN deltaY = false) (wheelDeltas events) ->
      clamped (zoom st) -> clamped (zoom (after events st)))
  /\ (isDragging st = false ->
      Forall (fun e => isMouseDown e = false) events ->
      translate (after events st) = translate st
      /\ isDragging (after events st) = false)
  /\ isDragging (after (events ++ [mouseUp]) st) = false
  /\ isDragging (after (events ++ [mouseLeave]) st) = false.
Proof.
  assert (Hzoom : forall evs s,
             zoom (after evs s)
             = fold_left (fun z d => handleWheel d z) (wheelDeltas evs) (zoom s)).
  { induction evs as [|e evs IH]; intros s; [reflexivity|].
    unfold after in *. cbn [fold_left]. rewrite IH, handle_zoom.
    replace (wheelDeltas (e :: evs)) with (wheelDeltas [e] ++ wheelDeltas evs)
      by (unfold wheelDeltas; cbn [flat_map]; now rewrite app_nil_r).
    now rewrite fold_left_app. }
  split; [apply Hzoom|]. split.
  - rewrite Hzoom. generalize (zoom st) as z.
    induction (wheelDeltas events) as [|d deltas IH]; intros z Hd Hz; [exact Hz|].
    cbn [fold_left]. inversion Hd as [|? ? Hd1 Hd2]; subst.
    apply IH; [exact Hd2 | now apply handleWheel_clamped].
  - split.
    + revert st. induction events as [|e evs IH]; intros st Hd He;
        [split; [reflexivity | exact Hd]|].
      inversion He as [|? ? He1 He2]; subst.
      destruct (handle_at_rest st e Hd He1) as [Ht Hd'].
      unfold after in *. cbn [fold_left].
      destruct (IH (handle st e) Hd' He2) as [IH1 IH2].
      split; [now rewrite IH1 | exact IH2].
    + unfold after. rewrite !fold_left_app. split; reflexivity.
Qed.

Lemma viewer_zoom_and_pan_witness :
  clamped (zoom (after Examples.drag initial))
  /\ translate (after [mouseMove (S754_finite false 1 0) (S754_finite false 1 0)]
                  (after (firstn 4 Examples.drag) initial))
     = translate (after (firstn 4 Examples.drag) initial).
Proof.
  split.
  - apply (viewer_zoom_and_pan Examples.drag initial);
      [repeat constructor | split; reflexivity].
  - apply (viewer_zoom_and_pan
             [mouseMove (S754_finite false 1 0) (S754_finite false 1 0)]
             (after (firstn 4 Examples.drag) initial));
      [reflexivity | repeat constructor].
Defined.

End Viewer.

(** ** A retry after an edit *)

Section RetryAfterEdit.
Import Types Browser App Spec.
Import GeminiService(callGeminiApi, returned, issued, calls, logString).

Lemma find_map_ext {A : Type} (P : A -> bool) (g : A -> A) (l : list A) :
  (forall m, In m l -> P (g m) = P m) ->
  List.find P (map g l) = option_map g (List.find P l).
Proof.
  induction l as [|a l IH]; intros H; cbn; [reflexivity|].
  rewrite (H a) by now left. destruct (P a); [reflexivity|].
  apply IH. intros m Hm. apply H. now right.
Qed.

Lemma NoDup_ids_eq (l : list ChatMessage) (a b : ChatMessage) :
  NoDup (map id l) -> a ∈ l -> b ∈ l -> id a = id b -> a = b.
Proof.
  intros Hnd Ha Hb E.
  apply list_elem_of_lookup in Ha as [i Hi], Hb as [j Hj].
  assert (i = j).
  { apply (NoDup_lookup (map id l) i j (id a)); [exact Hnd | |].
    - now rewrite lookup_map, Hi.
    - now rewrite lookup_map, Hj, E. }
  subst j. congruence.
Qed.

Lemma settleNow_network
    (ai : GenAI.GoogleGenAI) (remote : GenAI.Remote) (pending : Pending) (q : Page) :
  network (settleNow ai remote pending q) = network q.
Proof. reflexivity. Qed.

Lemma handleRetry_network
    (ai : GenAI.GoogleGenAI) (remote : GenAI.Remote) (userId : string) (now : N)
    (p : Page) (r : RequestPayload) (botEntry : ChatMessage) :
  findById userId (messages p) ≫= requestPayload = Some (complete r) ->
  findBotFor userId (messages p) = Some botEntry ->
  network (handleRetry ai remote userId now p) = network p ++ calls r.
Proof.
  intros Hu Hb. unfold handleRetry, handleRetry_begin. rewrite Hu, Hb.
  destruct (processRequest_begin_spec ai remote (complete r) userId
              (Some (id botEntry)) now p) as (_ & _ & _ & Hn & _).
  destruct (processRequest_begin _ _ _ _ _ _ _) as [q pending]. cbn [fst] in *.
  now rewrite settleNow_network, Hn, issued_calls.
Qed.

Lemma handleEdit_network
    (ai : GenAI.GoogleGenAI) (remote : GenAI.Remote) (userId newPrompt : string)
    (now : N) (p : Page) (r : RequestPayload) (botEntry : ChatMessage) :
  capturedPayload userId (messages p) = Some (complete r) ->
  findBotFor userId (messages p) = Some botEntry ->
  network (handleEdit ai remote true userId newPrompt now p)
  = network p
    ++ calls {| prompt := newPrompt; images := images r; options := options r;
                responseType := responseType r |}.
Proof.
  intros Hu Hb. unfold handleEdit, handleEdit_begin. rewrite Hu, Hb.
  set (p1 := setMessages (map (editMessage userId newPrompt)) p).
  destruct (processRequest_begin_spec ai remote
              (withPrompt (Some (complete r)) newPrompt) userId
              (Some (id botEntry)) now p1) as (_ & _ & _ & Hn & _).
  destruct (processRequest_begin _ _ _ _ _ _ _) as [q pending]. cbn [fst] in *.
  rewrite settleNow_network, Hn. cbn [withPrompt]. now rewrite issued_calls.
Qed.

(** X16.  An edit is kept for later retries.  On a page the application
    reaches whose identifiers differ from message to message, take a user
    message and the bot message that refers to it.  When React has run the
    updater by the time [handleEdit] tests the payload, the edit sends the
    message's request with the new prompt; when it has not, the edit sends
    nothing and writes its "Could not find messages" line, although both
    messages are there.  Either way the user message then shows the new
    prompt and holds the request with the new prompt, and a retry of it
    sends that request, against the same bot message; no message is added,
    removed or moved. *)
Theorem retry_after_edit_resends_the_edit
    (ai ai' : GenAI.GoogleGenAI) (remote remote' : GenAI.Remote) (eager : bool)
    (p : Page) (userId newPrompt : string) (now now' : N)
    (target botEntry : ChatMessage) :
  reachable p ->
  NoDup (map id (messages p)) ->
  findById userId (messages p) = Some target ->
  role target = user ->
  findBotFor userId (messages p) = Some botEntry ->
  let edited := handleEdit ai remote eager userId newPrompt now p in
  let retried := handleRetry ai' remote' userId now' edited in
  exists r,
    requestPayload target = Some (complete r)
    /\ let r' := {| prompt := newPrompt; images := images r; options := options r;
                    responseType := responseType r |} in
       let pending := {| pendingPayload := complete r'; pendingUserMessageId := userId;
                         botMessageId := id botEntry |} in
       (handleEdit_begin ai remote eager userId newPrompt now p).2
       = (if eager then Some pending else None)
       /\ network edited = network p ++ (if eager then calls r' else [])
       /\ (eager = false ->
             console edited
             = console p
               ++ [[logString "Could not find messages to edit for userMessageId:";
                    logString userId]])
       /\ (exists shown,
             findById userId (messages edited) = Some shown
             /\ text shown = Some newPrompt
             /\ requestPayload shown = Some (complete r')
             /\ imagePreviewUrls shown = imagePreviewUrls target)
       /\ (handleRetry_begin ai' remote' userId now' edited).2 = Some pending
       /\ map id (messages retried) = map id (messages p)
       /\ network retried = network edited ++ calls r'.
Proof.
  intros Hreach Hnd Hfind Hrole Hbot edited retried.
  destruct (reachable_carryRequests p Hreach) as [Hcarry _].
  pose proof (reachable_identified p Hreach) as Hident.
  unfold identified in Hident. rewrite Forall_forall in Hcarry, Hident.
  destruct (findById_some _ _ _ Hfind) as [Htin Htid].
  destruct (findBotFor_some _ _ _ Hbot) as [Hbin Hbref].
  destruct (Hcarry target Htin Hrole) as (r & urls & Hp & _ & _ & _ & _ & _ & Hlink).
  exists r. split; [exact Hp|]. cbv zeta.
  set (r' := {| prompt := newPrompt; images := images r; options := options r;
                responseType := responseType r |}).
  assert (Hne : id botEntry <> "") by now apply Hident.
  assert (Hdiff : id botEntry <> userId).
  { intros E. assert (botEntry = target).
    { apply (NoDup_ids_eq (messages p)); congruence. }
    subst botEntry. congruence. }
  assert (Hcap : capturedPayload userId (messages p) = Some (complete r)).
  { now rewrite (capturedPayload_unique userId (messages p) target Hnd Hfind). }
  assert (Hpayload : requestPayload (editMessage userId newPrompt target)
                     = Some (complete r')).
  { unfold editMessage. rewrite Htid, String.eqb_refl. cbn. now rewrite Hp. }
  (* the messages after the edit, and the bot message found then *)
  assert (Hafter : exists (g : ChatMessage -> ChatMessage) (found : ChatMessage),
             messages edited = map g (messages p)
             /\ (forall m, id (g m) = id m)
             /\ g target = editMessage userId newPrompt target
             /\ g botEntry = found /\ id found = id botEntry
             /\ (forall m, m ∈ messages p -> refersTo userId (g m) = refersTo userId m)
             /\ (handleEdit_begin ai remote eager userId newPrompt now p).2
                = (if eager
                   then Some {| pendingPayload := complete r';
                                pendingUserMessageId := userId;
                                botMessageId := id botEntry |}
                   else None)
             /\ network edited = network p ++ (if eager then calls r' else [])
             /\ (eager = false ->
                   console edited
                   = console p
                     ++ [[logString "Could not find messages to edit for userMessageId:";
                          logString userId]])).
  { destruct eager.
    - destruct (handleEdit_runs ai remote userId newPrompt now p (complete r) botEntry
                  Hcap Hbot Hne) as (He1 & _ & He3).
      fold edited in He3. cbn [withPrompt] in He1, He3. fold r' in He1, He3.
      set (T := terminalBotMessage (id botEntry) userId
                  (returned (callGeminiApi ai remote (complete r')))) in *.
      destruct (terminalBotMessage_fields (id botEntry) userId
                  (returned (callGeminiApi ai remote (complete r'))))
        as (HTid & _ & HTref & _).
      fold T in HTid, HTref.
      exists (fun m => if String.eqb (id (editMessage userId newPrompt m)) (id botEntry)
                       then T else editMessage userId newPrompt m), T.
      split; [rewrite He3; unfold replaceById; now rewrite map_map|].
      split.
      { intros m. destruct (editMessage_keeps userId newPrompt m) as (Hk & _).
        destruct (String.eqb_spec (id (editMessage userId newPrompt m)) (id botEntry));
          congruence. }
      split.
      { destruct (editMessage_keeps userId newPrompt target) as (Hk & _).
        destruct (String.eqb_spec (id (editMessage userId newPrompt target))
                    (id botEntry)); [congruence | reflexivity]. }
      split.
      { destruct (editMessage_keeps userId newPrompt botEntry) as (Hk & _).
        destruct (String.eqb_spec (id (editMessage userId newPrompt botEntry))
                    (id botEntry)); [reflexivity | congruence]. }
      split; [exact HTid|]. split.
      { intros m Hm.
        destruct (editMessage_keeps userId newPrompt m) as (Hk & _ & _ & _ & _ & Hl).
        destruct (String.eqb_spec (id (editMessage userId newPrompt m)) (id botEntry))
          as [E|_].
        - assert (m = botEntry) by (apply (NoDup_ids_eq (messages p)); congruence).
          subst m. unfold refersTo. now rewrite HTref, Hbref.
        - unfold refersTo. now rewrite Hl. }
      split; [exact He1|]. split; [|discriminate].
      now apply (handleEdit_network ai remote userId newPrompt now p r botEntry).
    - assert (Hab : handleEdit_begin ai remote false userId newPrompt now p
                    = (consoleError
                         [[logString "Could not find messages to edit for userMessageId:";
                           logString userId]]
                         (setMessages (map (editMessage userId newPrompt)) p), None))
        by (apply handleEdit_aborts; now left).
      exists (editMessage userId newPrompt), botEntry.
      subst edited. unfold handleEdit. rewrite Hab. cbn.
      split; [reflexivity|].
      split; [intros m; apply editMessage_keeps|].
      split; [reflexivity|].
      split; [apply editMessage_other; exact Hdiff|].
      split; [reflexivity|]. split.
      { intros m _. destruct (editMessage_keeps userId newPrompt m)
          as (_ & _ & _ & _ & _ & Hl). unfold refersTo. now rewrite Hl. }
      split; [reflexivity|]. split; [now rewrite app_nil_r | reflexivity]. }
  destruct Hafter as (g & found & Hmap & Hgid & Hgt & Hgb & Hfid & Hgref
                      & He1 & Hn1 & Hcon).
  assert (Hshown : findById userId (messages edited)
                   = Some (editMessage userId newPrompt target)).
  { unfold findById. rewrite Hmap.
    rewrite (find_map_ext (fun msg => String.eqb (id msg) userId) g).
    - unfold findById in Hfind. rewrite Hfind. cbn. now rewrite Hgt.
    - intros m _. now rewrite Hgid. }
  assert (Hnewbot : findBotFor userId (messages edited) = Some found).
  { unfold findBotFor. rewrite Hmap. rewrite (find_map_ext (refersTo userId) g).
    - unfold findBotFor in Hbot. rewrite Hbot. cbn. now rewrite Hgb.
    - intros m Hm. apply Hgref. now apply list_elem_of_In. }
  assert (Hu : findById userId (messages edited) ≫= requestPayload = Some (complete r')).
  { rewrite Hshown. exact Hpayload. }
  destruct (handleRetry_runs ai' remote' userId now' edited (complete r') found Hu Hnewbot)
    as (Hr1 & _ & Hr3); [now rewrite Hfid|].
  fold retried in Hr3. rewrite Hfid in Hr1, Hr3.
  split; [exact He1|]. split; [exact Hn1|]. split; [exact Hcon|]. split.
  { exists (editMessage userId newPrompt target).
    split; [exact Hshown|]. split; [|split; [exact Hpayload|]].
    - unfold editMessage. now rewrite Htid, String.eqb_refl.
    - unfold editMessage. now rewrite Htid, String.eqb_refl. }
  split; [exact Hr1|]. split.
  { rewrite Hr3, ids_replaceById by apply terminalBotMessage_fields.
    rewrite Hmap, map_map. apply map_ext. exact Hgid. }
  unfold retried.
  apply (handleRetry_network ai' remote' userId now' edited r' found Hu Hnewbot).
Qed.

Lemma retry_after_edit_resends_the_edit_witness :
  (handleRetry_begin Examples.sampleClient Examples.sampleRemote "1700000000000"
     1700000019000
     (handleEdit Examples.sampleClient Examples.sampleRemote true "1700000000000"
        "a blue kite" 1700000009000 Examples.answered)).2
  = (handleEdit_begin Examples.sampleClient Examples.sampleRemote true "1700000000000"
       "a blue kite" 1700000009000 Examples.answered).2
  /\ network (handleEdit Examples.sampleClient Examples.sampleRemote false
                "1700000000000" "a blue kite" 1700000009000 Examples.answered)
     = network Examples.answered.
Proof.
  destruct (retry_after_edit_resends_the_edit
              Examples.sampleClient Examples.sampleClient
              Examples.sampleRemote Examples.sampleRemote true
              Examples.answered "1700000000000" "a blue kite"
              1700000009000 1700000019000
              (userMessage "1700000000000" "a red kite" []
                 {| prompt := "a red kite"; images := [];
                    options := Examples.sampleOptions; responseType := image |})
              (errorBotMessage "1700000000003" "1700000000000" "API Error: quota exceeded"))
    as (r & _ & He & _ & _ & _ & Hr & _).
  - exact answered_reachable.
  - vm_compute. repeat constructor; intros H; inversion H; subst;
      try discriminate; repeat match goal with H : _ ∈ _ |- _ => inversion H; clear H; subst end.
  - vm_compute. reflexivity.
  - reflexivity.
  - vm_compute. reflexivity.
  - split; [now rewrite Hr, He|].
    destruct (retry_after_edit_resends_the_edit
                Examples.sampleClient Examples.sampleClient
                Examples.sampleRemote Examples.sampleRemote false
                Examples.answered "1700000000000" "a blue kite"
                1700000009000 1700000019000
                (userMessage "1700000000000" "a red kite" []
                   {| prompt := "a red kite"; images := [];
                      options := Examples.sampleOptions; responseType := image |})
                (errorBotMessage "1700000000003" "1700000000000"
                   "API Error: quota exceeded"))
      as (r2 & _ & _ & Hn & _).
    + exact answered_reachable.
    + vm_compute. repeat constructor; intros H; inversion H; subst;
        try discriminate;
        repeat match goal with H : _ ∈ _ |- _ => inversion H; clear H; subst end.
    + vm_compute. reflexivity.
    + reflexivity.
    + vm_compute. reflexivity.
    + rewrite Hn. apply app_nil_r.
Defined.

End RetryAfterEdit.

(** ** From the attached files to the request *)

Section Request.
Import Types Browser App Spec.
Import GeminiService(callGeminiApi, issued, calls, call, buildRequest, fullPrompt,
                     fileToGenerativePart).

Lemma filesToImageFiles_lookup (files : list File) (imageFiles : list ImageFile)
    (i : nat) (file : File) :
  filesToImageFiles files = Js.resolved imageFiles ->
  files !! i = Some file ->
  exists result,
    dataURL file = Some result
    /\ imageFiles !! i = Some {| base64 := nth_error (Js.split "," result) 1;
                                 mimeType := type file |}.
Proof.
  revert imageFiles i. induction files as [|f rest IH]; intros imgs i Hf Hi;
    [destruct i; discriminate Hi|].
  cbn in Hf. unfold readFile in Hf.
  destruct (dataURL f) as [d|] eqn:Hd; [|discriminate Hf].
  destruct (filesToImageFiles rest) as [e|imgs'] eqn:Hr; [discriminate Hf|].
  injection Hf as <-. destruct i as [|i]; cbn in Hi |- *.
  - injection Hi as <-. eauto.
  - now apply (IH imgs').
Qed.

Lemma append_nil_r (s : string) : s = s +:+ "".
Proof.
  induction s as [|c s IH]; [reflexivity|].
  change (String c s = String c (s +:+ "")). now f_equal.
Qed.

(** X17.  What a submission sends.  When the attached files can be read,
    [handleSubmit] sends the same call once with more than one file and as
    many times as the chosen variations otherwise.  The call holds one
    content whose parts are one inline part per file, in the order of the
    files, carrying what follows the first comma of the file's data URL
    and the file's media type, and then one text part.  The text starts
    with the prompt; it is the prompt alone with more than one file or
    without a negative prompt, and otherwise the prompt followed by the
    negative prompt.  With more than one file the call names the text
    model and has no configuration; otherwise it names the image model and
    asks for an image of the chosen aspect ratio. *)
Theorem submitted_files_reach_the_api
    (ai : GenAI.GoogleGenAI) (remote : GenAI.Remote)
    (prompt : string) (files : list File) (options : GenerationOptions)
    (now elapsed : N) (p : Page) :
  Forall readable files ->
  exists sentCall sentParts sentText,
    network (handleSubmit_begin ai remote prompt files options now elapsed p).1
    = network p
      ++ replicate (if (1 <? length files)%nat then 1
                    else variationCount (variations options)) sentCall
    /\ GenAI.contents (GenAI.request sentCall) = [ {| GenAI.parts := sentParts |} ]
    /\ length sentParts = S (length files)
    /\ (forall i file, files !! i = Some file ->
          exists result,
            dataURL file = Some result
            /\ sentParts !! i
               = Some {| GenAI.inlineData :=
                           Some {| GenAI.data := nth_error (Js.split "," result) 1;
                                   GenAI.blobMimeType := Some (type file) |};
                         GenAI.partText := None |})
    /\ sentParts !! length files
       = Some {| GenAI.inlineData := None; GenAI.partText := Some sentText |}
    /\ (exists suffix, sentText = prompt +:+ suffix)
    /\ (1 < length files \/ negativePrompt options = "" -> sentText = prompt)
    /\ (length files <= 1 -> negativePrompt options <> "" ->
          sentText = prompt +:+ ". Negative prompt: do not include "
                       +:+ negativePrompt options)
    /\ (1 < length files ->
          GenAI.model sentCall = "gemini-2.5-flash"
          /\ GenAI.config (GenAI.request sentCall) = None)
    /\ (length files <= 1 ->
          GenAI.model sentCall = "gemini-2.5-flash-image"
          /\ GenAI.config (GenAI.request sentCall)
             = Some {| GenAI.responseModalities := [GenAI.IMAGE];
                       GenAI.imageConfig :=
                         {| GenAI.aspectRatio := aspectRatio options |} |}).
Proof.
  intros Hread.
  destruct (filesToImageFiles_readable files Hread) as (imgs & Hf & Hlen).
  set (rp := {| Types.prompt := prompt; images := imgs; Types.options := options;
                responseType := if (1 <? length files)%nat then text_ else image |}).
  assert (Hp : submitPayload prompt files options = Js.resolved rp).
  { unfold submitPayload. now rewrite Hf. }
  destruct (handleSubmit_begin_resolved ai remote prompt files options now elapsed
              p rp Hp) as (q & Hq & _ & Hn).
  rewrite Hq. cbn [fst]. rewrite Hn, issued_calls. clear Hq Hn q.
  exists (call rp),
    (map (fun img => fileToGenerativePart (base64 img) (mimeType img)) imgs
     ++ [ {| GenAI.inlineData := None; GenAI.partText := Some (fullPrompt rp) |} ]),
    (fullPrompt rp).
  split.
  { unfold calls, GeminiService.variationCount. subst rp. cbn [responseType].
    destruct (1 <? length files)%nat; reflexivity. }
  split; [reflexivity|].
  split; [rewrite length_app, length_map, Hlen; cbn; lia|].
  split.
  { intros i file Hi.
    destruct (filesToImageFiles_lookup files imgs i file Hf Hi) as (d & Hd & Himg).
    exists d. split; [exact Hd|].
    rewrite lookup_app_l by (rewrite length_map, Hlen; now apply lookup_lt_Some in Hi).
    now rewrite lookup_map, Himg. }
  split.
  { rewrite lookup_app_r by (rewrite length_map, Hlen; lia).
    rewrite length_map, Hlen, Nat.sub_diag. reflexivity. }
  assert (Htext : fullPrompt rp
                  = if (1 <? length files)%nat then prompt
                    else if Js.truthy (negativePrompt options)
                         then prompt +:+ ". Negative prompt: do not include "
                                +:+ negativePrompt options
                         else prompt).
  { unfold fullPrompt. subst rp. cbn [responseType Types.prompt Types.options].
    destruct (1 <? length files)%nat; reflexivity. }
  pose proof (append_nil_r prompt) as Hnil.
  split.
  { rewrite Htext. destruct (1 <? length files)%nat; [now exists ""|].
    destruct (Js.truthy (negativePrompt options)); [eauto | now exists ""]. }
  split.
  { rewrite Htext. intros [Hlt|Hnone].
    - apply Nat.ltb_lt in Hlt. now rewrite Hlt.
    - rewrite Hnone. destruct (1 <? length files)%nat; reflexivity. }
  split.
  { rewrite Htext. intros Hle Hneg. apply Nat.ltb_ge in Hle. rewrite Hle.
    apply truthy_nonempty in Hneg. now rewrite Hneg. }
  split.
  - intros Hlt. apply Nat.ltb_lt in Hlt. unfold call, buildRequest. subst rp.
    cbn [responseType GenAI.model GenAI.request GenAI.config Types.options].
    rewrite Hlt. split; reflexivity.
  - intros Hle. apply Nat.ltb_ge in Hle. unfold call, buildRequest. subst rp.
    cbn [responseType GenAI.model GenAI.request GenAI.config Types.options].
    rewrite Hle. split; reflexivity.
Qed.

Lemma submitted_files_reach_the_api_witness :
  exists sentCall,
    network (handleSubmit_begin Examples.sampleClient Examples.sampleRemote
               "compare them" Examples.picked Examples.sampleOptions
               1700000000000 2 Examples.firstVisit).1
    = [sentCall]
    /\ GenAI.model sentCall = "gemini-2.5-flash".
Proof.
  destruct (submitted_files_reach_the_api Examples.sampleClient Examples.sampleRemote
              "compare them" Examples.picked Examples.sampleOptions
              1700000000000 2 Examples.firstVisit)
    as (sentCall & sentParts & sentText & Hn & _ & _ & _ & _ & _ & _ & _ & Hm & _).
  - repeat constructor; eexists; reflexivity.
  - exists sentCall. split; [exact Hn|]. apply Hm. cbv. lia.
Defined.

End Request.
